(** * ev-tracker: the collection scripts, embedded and verified

    Shallow embedding of the Node.js collection scripts of ev-tracker
    (scripts/util.js, scripts/collect_all.js and the parsers of
    scripts/parsers/) together with the properties the specification states
    about them.

    Modelling conventions.
    - A JavaScript string is a Rocq [string], the bytes of its UTF-8 form.
      Literals are written as in the source files.  [toLowerCase], [trim] and
      the class [\s] are modelled on the ASCII alphabet (letters A-Z; blank,
      tab, line feed, vertical tab, form feed, carriage return); other
      characters are left as they are.  The length of a string is its number
      of bytes, which is its JavaScript length when the string is ASCII, as
      the aliases compared by length are.
    - A JavaScript integer is a [Z]; the counts the parsers read are integers.
    - An absent value ([undefined], [null]) is [None].
    - A JavaScript object used as a dictionary is an association list of its
      own properties, in insertion order.  A lookup [o[k]] finds the
      properties the code has put there; the members every object inherits
      ([constructor], [toString], ...) are not labels the sources send and
      are left out.
    - The file system below a data directory is a [gmap] from file path to
      the JSON value last written there.
    - The network and the PDF and spreadsheet libraries are not part of the
      repository: a fetch is a function from the URL to its outcome, a PDF is
      the list of its pages' positioned text items, a sheet is the list of
      its rows of cells. *)

From Stdlib Require Import ZArith QArith Qround List String Ascii Bool Lia DecimalString.
From Stdlib Require DecimalZ DecimalPos.
From stdpp Require Import gmap strings list.

Local Open Scope string_scope.
Local Open Scope Z_scope.

(** ** JavaScript strings *)

Module Js.

(** [\s] on the ASCII alphabet. *)
Definition isSpace (c : ascii) : bool :=
  let n := nat_of_ascii c in
  (n =? 32)%nat || ((9 <=? n)%nat && (n <=? 13)%nat).

Definition isDigit (c : ascii) : bool :=
  let n := nat_of_ascii c in (48 <=? n)%nat && (n <=? 57)%nat.

Definition digitValue (c : ascii) : Z := Z.of_nat (nat_of_ascii c) - 48.

Definition lowerChar (c : ascii) : ascii :=
  let n := nat_of_ascii c in
  if (65 <=? n)%nat && (n <=? 90)%nat then ascii_of_nat (n + 32) else c.

(** [s.toLowerCase()] *)
Fixpoint toLowerCase (s : string) : string :=
  match s with
  | EmptyString => EmptyString
  | String c r => String (lowerChar c) (toLowerCase r)
  end.

Fixpoint trimStart (s : string) : string :=
  match s with
  | String c r => if isSpace c then trimStart r else s
  | EmptyString => EmptyString
  end.

(** Removes the blanks at the end: a blank is kept when something that is
    not a blank follows it. *)
Fixpoint trimEnd (s : string) : string :=
  match s with
  | EmptyString => EmptyString
  | String c r =>
      match trimEnd r with
      | EmptyString => if isSpace c then EmptyString else String c EmptyString
      | r' => String c r'
      end
  end.

(** [s.trim()] *)
Definition trim (s : string) : string := trimEnd (trimStart s).

(** [s.replace(/\s+/g, ' ')]: every maximal run of blanks becomes one
    blank. *)
Fixpoint collapseFrom (inRun : bool) (s : string) : string :=
  match s with
  | EmptyString => EmptyString
  | String c r =>
      if isSpace c
      then (if inRun then collapseFrom true r
            else String " "%char (collapseFrom true r))
      else String c (collapseFrom false r)
  end.

Definition collapseSpaces (s : string) : string := collapseFrom false s.

(** [s.startsWith(p)] *)
Fixpoint startsWith (s p : string) : bool :=
  match p, s with
  | EmptyString, _ => true
  | String _ _, EmptyString => false
  | String a p', String b s' => if Ascii.eqb a b then startsWith s' p' else false
  end.

(** [s.includes(p)] *)
Fixpoint includes (s p : string) : bool :=
  startsWith s p ||
  match s with
  | EmptyString => false
  | String _ s' => includes s' p
  end.

(** [s.replace(/,/g, '')] *)
Fixpoint removeChar (x : ascii) (s : string) : string :=
  match s with
  | EmptyString => EmptyString
  | String c r => if Ascii.eqb c x then removeChar x r else String c (removeChar x r)
  end.

(** The digits at the front of [s], read in base ten after [acc]. *)
Fixpoint readDigits (s : string) (acc : option Z) : option Z :=
  match s with
  | String c r =>
      if isDigit c
      then readDigits r (Some (10 * default 0 acc + digitValue c))
      else acc
  | EmptyString => acc
  end.

(** [parseInt(s, 10)]: leading blanks, an optional sign, then the longest
    run of digits; [None] is [NaN]. *)
Definition parseInt (s : string) : option Z :=
  match trimStart s with
  | String "-"%char r => Z.opp <$> readDigits r None
  | String "+"%char r => readDigits r None
  | r => readDigits r None
  end.

(** [String(n)] for an integer. *)
Definition showZ (n : Z) : string := NilZero.string_of_int (Z.to_int n).

Fixpoint replicate0 (n : nat) (c : ascii) : string :=
  match n with
  | O => EmptyString
  | S k => String c (replicate0 k c)
  end.

(** [s.padStart(n, c)] for a one-character pad. *)
Definition padStart (s : string) (n : nat) (c : ascii) : string :=
  replicate0 (n - String.length s) c ++ s.

(** [String(n).padStart(2, '0')] *)
Definition pad2 (n : Z) : string := padStart (showZ n) 2 "0"%char.

(** [s.split(sep)] for a one-character separator. *)
Fixpoint split (sep : ascii) (s : string) : list string :=
  match s with
  | EmptyString => [EmptyString]
  | String c r =>
      if Ascii.eqb c sep then EmptyString :: split sep r
      else match split sep r with
           | h :: t => String c h :: t
           | [] => [String c EmptyString]
           end
  end.

(** [a.join(sep)] *)
Fixpoint join (sep : string) (l : list string) : string :=
  match l with
  | [] => EmptyString
  | [x] => x
  | x :: r => x ++ sep ++ join sep r
  end.

End Js.

(** ** JSON values, files and failures *)

(** What [JSON.stringify] is given: the fields of an object are kept in the
    order the object literal lists them; [NaN] is written as [null]. *)
#[local] Set Warnings "-register-all".

Inductive json :=
| JNull
| JNum (n : Z)
| JStr (s : string)
| JArr (items : list json)
| JObj (fields : list (string * json)).

(** A JavaScript object used as a dictionary: its own properties in
    insertion order. *)
Module Obj.

(** [o[k]] *)
Fixpoint get {A} (k : string) (o : list (string * A)) : option A :=
  match o with
  | [] => None
  | (k', v) :: r => if String.eqb k' k then Some v else get k r
  end.

(** [o[k] = v]: an existing property keeps its place. *)
Fixpoint set {A} (k : string) (v : A) (o : list (string * A)) : list (string * A) :=
  match o with
  | [] => [(k, v)]
  | (k', v') :: r => if String.eqb k' k then (k', v) :: r else (k', v') :: set k v r
  end.

Fixpoint allDigits (s : string) : bool :=
  match s with
  | EmptyString => true
  | String c r => Js.isDigit c && allDigits r
  end.

(** An integer index key: the canonical decimal form of an integer below
    [2^32 - 1]. *)
Definition indexKey (k : string) : option Z :=
  match Js.readDigits k None with
  | Some n =>
      if allDigits k && String.eqb (Js.showZ n) k && (n <? 4294967295)
      then Some n else None
  | None => None
  end.

Fixpoint insertIndexed {A} (n : Z) (e : string * A) (l : list (Z * (string * A)))
    : list (Z * (string * A)) :=
  match l with
  | [] => [(n, e)]
  | (m, e') :: r => if n <? m then (n, e) :: l else (m, e') :: insertIndexed n e r
  end.

Fixpoint indexed {A} (o : list (string * A)) : list (Z * (string * A)) :=
  match o with
  | [] => []
  | (k, v) :: r =>
      match indexKey k with
      | Some n => insertIndexed n (k, v) (indexed r)
      | None => indexed r
      end
  end.

Definition named {A} (o : list (string * A)) : list (string * A) :=
  List.filter (fun e => bool_decide (indexKey (fst e) = None)) o.

(** [Object.entries(o)]: the integer index keys in ascending order, then
    the other keys in insertion order. *)
Definition entries {A} (o : list (string * A)) : list (string * A) :=
  map snd (indexed o) ++ named o.

Definition keys {A} (o : list (string * A)) : list string := map fst (entries o).

End Obj.

Module Json.

Definition field (k : string) (j : json) : option json :=
  match j with
  | JObj fs => Obj.get k fs
  | _ => None
  end.

Definition hasField (k : string) (j : json) : bool :=
  match field k j with Some _ => true | None => false end.

Definition elements (j : json) : list json :=
  match j with
  | JArr l => l
  | _ => []
  end.

(** A number that may be [NaN]. *)
Definition num (n : option Z) : json :=
  match n with Some z => JNum z | None => JNull end.

(** One element of a record's [data] array. *)
Definition entry (marque modele : string) (total : Z) (energie : string) : json :=
  JObj [("marque", JStr marque); ("modele", JStr modele);
        ("total", JNum total); ("energie", JStr energie)].

(** The [energie] values of a persisted record's [data] array. *)
Definition energies (record : json) : list (option json) :=
  match field "data" record with
  | Some d => map (field "energie") (elements d)
  | None => []
  end.

(** The [(energie, total)] pairs of a persisted record, in file order. *)
Definition totals (record : json) : list (option json * option json) :=
  match field "data" record with
  | Some d => map (fun e => (field "energie" e, field "total" e)) (elements d)
  | None => []
  end.

(** The five fields of a canonical record file. *)
Definition recordFields : list string := ["year"; "month"; "region"; "type"; "data"].

Definition hasRecordFields (j : json) : bool :=
  forallb (fun k => hasField k j) recordFields.

End Json.

(** The files below the data directory: path to content. *)
Abbreviation Store := (gmap string json).

Module Fs.

(** [fs.existsSync(p)] *)
Definition existsSync (store : Store) (p : string) : bool :=
  bool_decide (is_Some (store !! p)).

(** [fs.writeFileSync(p, JSON.stringify(content))] *)
Definition writeFileSync (p : string) (content : json) (store : Store) : Store :=
  <[p := content]> store.

(** [path.join(dir, file)] for a plain file name. *)
Definition join (dir file : string) : string := dir ++ "/" ++ file.

End Fs.

(** A call that may throw. *)
Inductive Result (A : Type) :=
| Ok (a : A)
| Throw (message : string).
Arguments Ok {A} a.
Arguments Throw {A} message.

(** ** scripts/util.js *)

Module Util.

(** A month as [getMonthsSinceStart] builds it: [{ year, month, code }]. *)
Record MonthInfo := mkMonth { year : Z; month : Z; code : string }.

(** The wall clock: [now.getFullYear()] and [now.getMonth() + 1]. *)
Record Clock := mkClock { currentYear : Z; currentMonth : Z }.

(** [for (let i = lo; i <= hi; i++)]: the values [i] takes. *)
Definition range (lo hi : Z) : list Z :=
  map (fun k => lo + Z.of_nat k) (seq 0 (Z.to_nat (hi - lo + 1))).

Definition monthCode (y m : Z) : string := Js.showZ y ++ "-" ++ Js.pad2 m.

Definition monthsOfYear (now : Clock) (y : Z) : list MonthInfo :=
  let endMonth := if y =? currentYear now then currentMonth now else 12 in
  map (fun m => mkMonth y m (monthCode y m)) (range 1 endMonth).

Definition getMonthsSinceStart (startYear : Z) (now : Clock) : list MonthInfo :=
  concat (map (monthsOfYear now) (range startYear (currentYear now))).

(** [filterMissingMonths(months, outDir, fileNamer)]: the months with no
    file in [outDir]. *)
Definition filterMissingMonths (months : list MonthInfo) (outDir : string)
    (fileNamer : MonthInfo -> string) (store : Store) : list MonthInfo :=
  List.filter (fun m => negb (Fs.existsSync store (Fs.join outDir (fileNamer m)))) months.

(** The default [fileNamer]. *)
Definition codeJson (m : MonthInfo) : string := code m ++ ".json".

(** What [https.get] hands to its callback: [res.statusCode],
    [res.headers.location] and the chunks of the body, joined. *)
Record IncomingMessage := mkMessage {
  statusCode : Z; location : option string; data : string }.

Section Https.

(** [https.get(url, callback)]: the response, or the error of the request.
    [resolveUrl location currentUrl] is
    [new URL(location, currentUrl).toString()]. *)
Variable get : string -> Result IncomingMessage.
Variable resolveUrl : string -> string -> string.

(** [request(currentUrl, redirectsLeft)] of [fetchFile], with the URLs asked
    so far: the URLs asked in the end, and what the promise settles to. *)
Fixpoint request (redirectsLeft : nat) (currentUrl : string) (asked : list string)
    : list string * Result string :=
  let asked := (asked ++ [currentUrl])%list in
  match get currentUrl with
  | Throw e => (asked, Throw e)
  | Ok res =>
      let settle :=
        if statusCode res =? 200 then (asked, Ok (data res))
        else (asked, Throw ("HTTP error: " ++ Js.showZ (statusCode res))) in
      if (300 <=? statusCode res) && (statusCode res <? 400) then
        match location res, redirectsLeft with
        | Some (String c r), S fewer =>
            let nextUrl :=
              if Js.startsWith (String c r) "http" then String c r
              else resolveUrl (String c r) currentUrl in
            request fewer nextUrl asked
        | _, _ => settle
        end
      else settle
  end.

(** [fetchFile(url, maxRedirects)]; [maxRedirects] is 5 when it is not
    given. *)
Definition fetchFile (url : string) (maxRedirects : nat) : list string * Result string :=
  request maxRedirects url [].

End Https.

End Util.

(** The canonical fuel codes of the specification. *)
Definition canonicalFuelCodes : list string :=
  ["BEV"; "PHEV"; "HYBRID"; "DIESEL"; "GASOLINE"; "LPG_CNG_OTHER"; "FOSSIL";
   "OTHER"; "UNKNOWN"].

Definition isCanonical (c : string) : bool :=
  existsb (String.eqb c) canonicalFuelCodes.

(** An alias table: [Object.entries] of an object from code to aliases. *)
Abbreviation AliasTable := (list (string * list string)).

(** The (code, alias) pairs in the order the two nested loops visit them. *)
Definition aliasPairs (table : AliasTable) : list (string * string) :=
  flat_map (fun e => map (fun a => (fst e, a)) (snd e)) table.

(** [a || b] on strings: the empty string is falsy. *)
Definition strOr (a : option string) (b : string) : string :=
  match a with
  | Some (String c r) => String c r
  | _ => b
  end.

(** The loop [for (const [key, value] of Object.entries(mapping)) if
    (normalized.includes(key)) return value] of the German and ACEA
    mappings, ending in [return 'UNKNOWN']. *)
Fixpoint firstIncluded (normalized : string) (mapping : list (string * string)) : string :=
  match mapping with
  | [] => "UNKNOWN"
  | (key, value) :: r =>
      if Js.includes normalized key then value else firstIncluded normalized r
  end.

(** A cell of a sheet read with [sheet_to_json(ws, { header: 1 })]. *)
Inductive Cell :=
| CStr (s : string)
| CNum (n : Z)
| CEmpty.

Module Sheet.

(** [row[j]]: beyond the row it is [undefined]. *)
Definition cellAt (row : list Cell) (j : nat) : Cell := nth j row CEmpty.

(** [!c] *)
Definition falsy (c : Cell) : bool :=
  match c with
  | CStr EmptyString => true
  | CStr _ => false
  | CNum n => n =? 0
  | CEmpty => true
  end.

(** [String(c)] *)
Definition toString (c : Cell) : string :=
  match c with
  | CStr s => s
  | CNum n => Js.showZ n
  | CEmpty => "undefined"
  end.

(** [parseInt(c, 10) || 0] *)
Definition intOrZero (c : Cell) : Z := default 0 (Js.parseInt (toString c)).

(** [colMapping[j]] on the index-to-code object. *)
Fixpoint codeAt (j : nat) (colMapping : list (nat * string)) : option string :=
  match colMapping with
  | [] => None
  | (i, c) :: r => if (i =? j)%nat then Some c else codeAt j r
  end.

(** The loop over [Object.entries(colMapping)]:
    [aggregated[code] = (aggregated[code] || 0) + val] for the values
    above zero. *)
Fixpoint aggregate (row : list Cell) (colMapping : list (nat * string))
    (aggregated : list (string * Z)) : list (string * Z) :=
  match colMapping with
  | [] => aggregated
  | (colIdx, fuelCode) :: r =>
      let val := intOrZero (cellAt row colIdx) in
      aggregate row r
        (if 0 <? val
         then Obj.set fuelCode (default 0 (Obj.get fuelCode aggregated) + val) aggregated
         else aggregated)
  end.

(** The loop over the cells of the header row: index to code for the
    cells that name a fuel, in ascending index order (the order of
    [Object.entries] on integer keys). *)
Fixpoint mapColumns (normalize : option string -> string) (row : list Cell) (j : nat)
    : list (nat * string) :=
  match row with
  | [] => []
  | c :: r =>
      let rest := mapColumns normalize r (S j) in
      match c with
      | CStr val =>
          let fuelCode := normalize (Some val) in
          if negb (String.eqb fuelCode "OTHER") && negb (String.eqb fuelCode "UNKNOWN")
          then (j, fuelCode) :: rest
          else rest
      | _ => rest
      end
  end.

(** [if (!colMapping[0]) colDate = 0], [colDate] being [-1] before. *)
Definition dateColumn (colMapping : list (nat * string)) : option nat :=
  match codeAt 0 colMapping with
  | Some (String _ _) => None
  | _ => Some 0%nat
  end.

(** The data array built from [Object.entries(aggregated)]. *)
Definition dataOf (marque modele : string) (aggregated : list (string * Z)) : list json :=
  map (fun ft => Json.entry marque modele (snd ft) (fst ft)) (Obj.entries aggregated).

End Sheet.

(** ** scripts/parsers/FR.js *)

Module FR.

Definition FRENCH_FUEL_MAP : AliasTable :=
  [ ("DIESEL", ["Gazole (thermique)"; "Diesel"]);
    ("GASOLINE", ["Essence (thermique)"; "Essence"]);
    ("HYBRID", ["hybride gazole non rechargeable";
                "hybride essence non rechargeable";
                "gazole (y compris hybrides non rechargeables)";
                "essence (y compris hybrides non rechargeables)"]);
    ("PHEV", ["hybride rechargeable"]);
    ("BEV", ["Electrique"; "Electric"; "BEV"]);
    ("OTHER", ["Gaz & ND"; "LPG"; "CNG"]) ].

(** [label.toString().trim().toLowerCase().replace(/\s+/g, ' ')] *)
Definition cleanLabel (label : string) : string :=
  Js.collapseSpaces (Js.toLowerCase (Js.trim label)).

(** [alias.toLowerCase().replace(/\s+/g, ' ')] *)
Definition cleanAlias (alias : string) : string :=
  Js.collapseSpaces (Js.toLowerCase alias).

(** The two nested loops of [normalizeFrenchFuel] over the (code, alias)
    pairs, with [best] and [bestLen] as they stand, and the final
    [return best || 'OTHER']. *)
Fixpoint scanAliases (clean : string) (pairs : list (string * string))
    (best : option string) (bestLen : nat) : string :=
  match pairs with
  | [] => strOr best "OTHER"
  | (code, alias) :: r =>
      let aliasClean := cleanAlias alias in
      if String.eqb clean aliasClean then code
      else if Js.includes clean aliasClean && (bestLen <? String.length aliasClean)%nat
           then scanAliases clean r (Some code) (String.length aliasClean)
           else scanAliases clean r best bestLen
  end.

(** [normalizeFrenchFuel] with the alias table it reads as an argument. *)
Definition normalizeWith (table : AliasTable) (label : option string) : string :=
  match label with
  | Some (String c r) => scanAliases (cleanLabel (String c r)) (aliasPairs table) None 0
  | _ => "UNKNOWN"
  end.

Definition normalizeFrenchFuel (label : option string) : string :=
  normalizeWith FRENCH_FUEL_MAP label.

(** The test that finds the header row. *)
Definition hasFuelRef (row : list Cell) : bool :=
  existsb (fun c =>
    match c with
    | CStr (String a r) =>
        let l := Js.toLowerCase (String a r) in
        Js.includes l "gazole" || Js.includes l "essence" || Js.includes l "electrique"
    | _ => false
    end) row.

(** [/^\d{4}_\d{2}$/.test(s)] *)
Definition isPeriod (s : string) : bool :=
  match Js.split "_"%char s with
  | [y; m] => (String.length y =? 4)%nat && (String.length m =? 2)%nat
              && Obj.allDigits y && Obj.allDigits m
  | _ => false
  end.

Definition outDir : string := "data/FR/ev".

Definition record (year month : option Z) (data : list json) : json :=
  JObj [("year", Json.num year); ("month", Json.num month); ("data", JArr data);
        ("region", JStr "FR"); ("type", JStr "all")].

(** The body of the loop over the rows below the header, down to the
    test of [data.length]: the path and the record of the row, [None]
    when the row is passed over. *)
Definition rowRecord (colDate : option nat) (colMapping : list (nat * string))
    (row : list Cell) : option (string * json) :=
  match colDate with
  | None => None
  | Some d =>
      if Sheet.falsy (Sheet.cellAt row d) then None else
      let dateStr := Js.trim (Sheet.toString (Sheet.cellAt row d)) in
      if negb (isPeriod dateStr) then None else
      match Js.split "_"%char dateStr with
      | [yStr; mStr] =>
          let year := Js.parseInt yStr in
          let month := Js.parseInt mStr in
          let aggregated := Sheet.aggregate row colMapping [] in
          let data := Sheet.dataOf "Toutes marques" "Tous modèles" aggregated in
          match data with
          | [] => None
          | _ =>
              Some (Fs.join outDir (Js.showZ (default 0 year) ++ "-" ++ mStr ++ ".json"),
                    record year month data)
          end
      | _ => None
      end
  end.

(** The body of the loop: a file that exists is left as it is. *)
Definition processRow (colDate : option nat) (colMapping : list (nat * string))
    (row : list Cell) (store : Store) : Store :=
  match rowRecord colDate colMapping row with
  | None => store
  | Some (outPath, content) =>
      if Fs.existsSync store outPath then store
      else Fs.writeFileSync outPath content store
  end.

(** The search for the header row: the rows below it, the date column and
    the fuel columns; [None] when no row names a fuel. *)
Fixpoint findHeader (rows : list (list Cell))
    : option (list (list Cell) * option nat * list (nat * string)) :=
  match rows with
  | [] => None
  | row :: rest =>
      if hasFuelRef row then
        let colMapping := Sheet.mapColumns normalizeFrenchFuel row 0 in
        Some (rest, Sheet.dateColumn colMapping, colMapping)
      else findHeader rest
  end.

(** [fetchAndProcessExcel] from the rows of the first sheet on. *)
Definition processSheet (rows : list (list Cell)) (store : Store) : Store :=
  match findHeader rows with
  | None => store
  | Some (below, colDate, colMapping) =>
      fold_left (fun st row => processRow colDate colMapping row st) below store
  end.

Definition mois : list string :=
  ["janvier"; "fevrier"; "mars"; "avril"; "mai"; "juin"; "juillet"; "aout"; "septembre";
   "octobre"; "novembre"; "decembre"].

(** [mois[month-1]] *)
Definition getFrenchMonthName (month : Z) : string :=
  if (1 <=? month) && (month <=? 12)
  then nth (Z.to_nat (month - 1)) mois "undefined" else "undefined".

(** The URL [findLatestPageUrl] builds for a month. *)
Definition pageUrl (year month : Z) : string :=
  "https://www.statistiques.developpement-durable.gouv.fr/motorisations-des-vehicules-legers-neufs-emissions-de-co2-et-bonus-ecologique-"
  ++ getFrenchMonthName month ++ "-" ++ Js.showZ year.

Section Pages.

(** The bytes of a download and [fetchFile], [None] when it rejects. *)
Variable Buffer : Type.
Variable fetchFile : string -> option Buffer.

(** The loop of [findLatestPageUrl] with [tries] passes to go. *)
Fixpoint findFrom (tries : nat) (year month : Z) : option string :=
  match tries with
  | O => None
  | S fewer =>
      let url := pageUrl year month in
      match fetchFile url with
      | Some _ => Some url
      | None =>
          let month := month - 1 in
          if month =? 0 then findFrom fewer (year - 1) 12 else findFrom fewer year month
      end
  end.

Definition findLatestPageUrl (now : Util.Clock) : option string :=
  findFrom 24 (Util.currentYear now) (Util.currentMonth now).

End Pages.

End FR.

(** ** scripts/parsers/DE.js *)

Module DE.

Definition mapping : list (string * string) :=
  [ ("elektro", "BEV"); ("elektrisch", "BEV"); ("benzin", "GASOLINE");
    ("diesel", "DIESEL"); ("hybrid", "HYBRID"); ("plug-in-hybrid", "PHEV");
    ("plug-in hybrid", "PHEV"); ("erdgas", "LPG_CNG_OTHER"); ("cng", "LPG_CNG_OTHER");
    ("flÃ¼ssiggas", "LPG_CNG_OTHER"); ("lpg", "LPG_CNG_OTHER");
    ("wasserstoff", "LPG_CNG_OTHER"); ("sonstige", "OTHER") ].

Definition mapGermanFuelType (fuelName : option string) : string :=
  match fuelName with
  | Some (String c r) => firstIncluded (Js.trim (Js.toLowerCase (String c r))) mapping
  | _ => "UNKNOWN"
  end.

(** What [parseKbaExcel] reads in the total row: for each column the
    header names, [safeNumber] of the cell in it; [None] when the header
    has no such column.  The counts are integers. *)
Record KbaTotals := mkKba {
  kBEV : option Z; kDIESEL : option Z; kPHEV : option Z; kHYBRID : option Z;
  kTOTAL : option Z; kALL_HYBRIDS : option Z }.

(** [if (columnIndex.X !== undefined) { const x = safeNumber(..); if (x > 0)
    fuelData.X = x }] *)
Definition putPositive (code : string) (v : option Z) (fuelData : list (string * Z))
    : list (string * Z) :=
  match v with
  | Some x => if 0 <? x then Obj.set code x fuelData else fuelData
  | None => fuelData
  end.

(** [parseKbaExcel] from [const fuelData = {}] on. *)
Definition fuelDataOf (t : KbaTotals) : list (string * Z) :=
  let fuelData := putPositive "BEV" (kBEV t) [] in
  let fuelData := putPositive "DIESEL" (kDIESEL t) fuelData in
  let fuelData := putPositive "PHEV" (kPHEV t) fuelData in
  let fuelData := putPositive "HYBRID" (kHYBRID t) fuelData in
  let total := default 0 (kTOTAL t) in
  let bev := default 0 (Obj.get "BEV" fuelData) in
  let diesel := default 0 (Obj.get "DIESEL" fuelData) in
  let allHybrids :=
    match kALL_HYBRIDS t with
    | Some h => h
    | None => bev + diesel + default 0 (Obj.get "PHEV" fuelData)
              + default 0 (Obj.get "HYBRID" fuelData)
    end in
  let gasoline := total - diesel - allHybrids - bev in
  if 0 <? gasoline then Obj.set "GASOLINE" gasoline fuelData else fuelData.

Definition outDir : string := "data/DE/ev".

(** The object [saveMonthlyData] writes. *)
Definition output (year month : Z) (fuelData : list (string * Z)) : json :=
  let data := map (fun et => Json.entry "Alle Marken" "Alle Modelle" (snd et) (fst et))
                  (Obj.entries fuelData) in
  JObj [("year", JNum year); ("month", JNum month); ("data", JArr data);
        ("region", JStr "DE"); ("type", JStr "all")].

Definition saveMonthlyData (year month : Z) (fuelData : list (string * Z))
    (store : Store) : Store :=
  Fs.writeFileSync (Fs.join outDir (Js.showZ year ++ "-" ++ Js.pad2 month ++ ".json"))
    (output year month fuelData) store.

Definition blobParams : string := "?__blob=publicationFile&v=2".

Definition getKbaFileUrls (year month : Z) : list string :=
  let monthStr := Js.pad2 month in
  let y := Js.showZ year in
  [ "https://www.kba.de/SharedDocs/Downloads/DE/Statistik/Fahrzeuge/FZ10/fz10_"
      ++ y ++ "_" ++ monthStr ++ ".xlsx" ++ blobParams;
    "https://www.kba.de/SharedDocs/Downloads/DE/Statistik/Fahrzeuge/FZ7/fz7_"
      ++ y ++ "_" ++ monthStr ++ ".xlsx" ++ blobParams;
    "https://www.kba.de/SharedDocs/Downloads/DE/Statistik/Fahrzeuge/FZ13/fz13_"
      ++ y ++ "_" ++ monthStr ++ ".xlsx" ++ blobParams;
    "https://www.kba.de/SharedDocs/Downloads/DE/Statistik/Fahrzeuge/FZ/fz_"
      ++ y ++ "_" ++ monthStr ++ ".xlsx" ++ blobParams ].

(** The files and the two counters of the loop over the missing months. *)
Record Progress := mkProgress { files : Store; successCount : Z; errorCount : Z }.

Section Network.

(** The bytes of a download, [fetchFile] ([None] when it rejects), and what
    [parseKbaExcel] finds in the workbook: the header row and the total row
    read as [KbaTotals], [None] when one of them is missing or the workbook
    cannot be read, in which case [parseKbaExcel] returns [null]. *)
Variable Buffer : Type.
Variable fetchFile : string -> option Buffer.
Variable readTotals : Buffer -> option KbaTotals.

Definition parseKbaExcel (buffer : Buffer) : option (list (string * Z)) :=
  fuelDataOf <$> readTotals buffer.

(** The loop over the URL patterns: the first one whose file is fetched and
    yields at least one fuel. *)
Fixpoint firstData (urls : list string) : option (list (string * Z)) :=
  match urls with
  | [] => None
  | url :: r =>
      match fetchFile url with
      | Some buffer =>
          match parseKbaExcel buffer with
          | Some fuelData =>
              match Obj.keys fuelData with
              | [] => firstData r
              | _ => Some fuelData
              end
          | None => firstData r
          end
      | None => firstData r
      end
  end.

Definition fetchMonthData (year month : Z) : option (list (string * Z)) :=
  firstData (getKbaFileUrls year month).

(** The body of the loop over the missing months. *)
Definition processMonth (monthInfo : Util.MonthInfo) (p : Progress) : Progress :=
  match fetchMonthData (Util.year monthInfo) (Util.month monthInfo) with
  | Some fuelData =>
      match Obj.keys fuelData with
      | [] => mkProgress (files p) (successCount p) (errorCount p + 1)
      | _ => mkProgress
               (saveMonthlyData (Util.year monthInfo) (Util.month monthInfo) fuelData (files p))
               (successCount p + 1) (errorCount p)
      end
  | None => mkProgress (files p) (successCount p) (errorCount p + 1)
  end.

Definition fetchAllEVData (now : Util.Clock) (store : Store) : Progress :=
  let allMonths := Util.getMonthsSinceStart 2021 now in
  let missingMonths := Util.filterMissingMonths allMonths outDir Util.codeJson store in
  fold_left (fun p m => processMonth m p) missingMonths (mkProgress store 0 0).

End Network.

End DE.

(** ** scripts/parsers/SE.js *)

Module SE.

Definition SWEDISH_FUEL_MAP : AliasTable :=
  [ ("DIESEL", ["diesel"]); ("GASOLINE", ["petrol"]); ("HYBRID", ["electric hybrid"]);
    ("PHEV", ["plug-in hybrid"]); ("BEV", ["electricity"]);
    ("OTHER", ["gas/gas flex"; "ethanol/ethanol flexifuel"; "other fuels"]) ].

Fixpoint firstEqual (clean : string) (pairs : list (string * string)) : string :=
  match pairs with
  | [] => "OTHER"
  | (code, alias) :: r =>
      if String.eqb clean (Js.toLowerCase alias) then code else firstEqual clean r
  end.

Definition normalizeSwedishFuel (label : option string) : string :=
  match label with
  | Some (String c r) =>
      firstEqual (Js.toLowerCase (Js.trim (String c r))) (aliasPairs SWEDISH_FUEL_MAP)
  | _ => "UNKNOWN"
  end.

(** A record of the CSV file, by column name. *)
Record CsvRow := mkRow { region : string; fuel : string; month : string; number : string }.

Record MonthData := mkMonthData { mdYear : option Z; mdMonth : option Z;
                                  byFuel : list (string * Z) }.

(** [month.match(/^(\d{4})M(\d{2})$/)]: the two groups. *)
Definition matchMonth (s : string) : option (string * string) :=
  match Js.split "M"%char s with
  | [y; m] => if (String.length y =? 4)%nat && (String.length m =? 2)%nat
                 && Obj.allDigits y && Obj.allDigits m
              then Some (y, m) else None
  | _ => None
  end.

(** The body of the loop over the records. *)
Definition addRow (row : CsvRow) (monthlyData : list (string * MonthData))
    : list (string * MonthData) :=
  let count := default 0 (Js.parseInt (number row)) in
  if negb (Js.includes (region row) "00 Sweden") then monthlyData else
  match matchMonth (month row) with
  | None => monthlyData
  | Some (y, m) =>
      let year := Js.parseInt y in
      let monthNum := Js.parseInt m in
      let key := Js.showZ (default 0 year) ++ "-" ++ Js.pad2 (default 0 monthNum) in
      let monthlyData :=
        match Obj.get key monthlyData with
        | Some _ => monthlyData
        | None => Obj.set key (mkMonthData year monthNum []) monthlyData
        end in
      let fuelCode := normalizeSwedishFuel (Some (fuel row)) in
      if negb (String.eqb fuelCode "OTHER") && negb (String.eqb fuelCode "UNKNOWN")
      then match Obj.get key monthlyData with
           | Some md =>
               Obj.set key
                 (mkMonthData (mdYear md) (mdMonth md)
                    (Obj.set fuelCode (default 0 (Obj.get fuelCode (byFuel md)) + count)
                       (byFuel md)))
                 monthlyData
           | None => monthlyData
           end
      else monthlyData
  end.

Definition outDir : string := "data/SE/ev".

(** The body of the loop that writes the monthly files, down to the test
    of [data.length]: the path and the record of the month. *)
Definition monthRecord (km : string * MonthData) : option (string * json) :=
  let data :=
    map (fun ft => Json.entry "Toutes marques" "Tous modèles" (snd ft) (fst ft))
        (List.filter (fun ft => bool_decide (0 < snd ft)) (Obj.entries (byFuel (snd km)))) in
  match data with
  | [] => None
  | _ =>
      let parts := Js.split "-"%char (fst km) in
      Some (Fs.join outDir (fst km ++ ".json"),
            JObj [("year", Json.num (Js.parseInt (nth 0 parts "undefined")));
                  ("month", Json.num (Js.parseInt (nth 1 parts "undefined")));
                  ("data", JArr data); ("region", JStr "SE"); ("type", JStr "all")])
  end.

(** The body of the loop: a file that exists is left as it is. *)
Definition writeMonth (km : string * MonthData) (store : Store) : Store :=
  match monthRecord km with
  | None => store
  | Some (outPath, content) =>
      if Fs.existsSync store outPath then store
      else Fs.writeFileSync outPath content store
  end.

(** [fetchAndProcessCSV] from the parsed records on. *)
Definition processRecords (records : list CsvRow) (store : Store) : Store :=
  let monthlyData := fold_left (fun md row => addRow row md) records [] in
  fold_left (fun st km => writeMonth km st) (Obj.entries monthlyData) store.

Definition zipUrl : string :=
  "https://www.statistikdatabasen.scb.se/Resources/PX/bulk/ssd/en/TAB3277_en.zip".

(** [fetchAllEVData]: [download] is the archive behind a URL as far as the
    script sees it: a failure of the request, of the archive or of the CSV
    parser, which nothing catches; no [.csv] entry ([Ok None]); or the
    records of the entry. *)
Definition fetchAllEVData (download : string -> Result (option (list CsvRow)))
    (store : Store) : Result Store :=
  match download zipUrl with
  | Throw e => Throw e
  | Ok None => Ok store
  | Ok (Some records) => Ok (processRecords records store)
  end.

End SE.

(** ** scripts/parsers/CN.js *)

Module CN.

Definition CHINESE_FUEL_MAP : AliasTable :=
  [ ("BEV", ["纯电动"; "纯电动汽车"; "BEV"]);
    ("PHEV", ["插电式混合动力"; "插电式混合动力汽车"; "PHEV"]);
    ("FCEV", ["燃料电池"; "燃料电池汽车"; "FCEV"]);
    ("HYBRID", ["混合动力"; "HEV"]);
    ("GASOLINE", ["汽油"; "汽油车"]);
    ("DIESEL", ["柴油"; "柴油车"]) ].

Fixpoint firstContained (clean : string) (pairs : list (string * string)) : string :=
  match pairs with
  | [] => "OTHER"
  | (code, alias) :: r =>
      if Js.includes clean alias then code else firstContained clean r
  end.

Definition normalizeChineseFuel (label : option string) : string :=
  match label with
  | Some (String c r) => firstContained (Js.trim (String c r)) (aliasPairs CHINESE_FUEL_MAP)
  | _ => "UNKNOWN"
  end.

Definition namesFuel (code : string) : bool :=
  negb (String.eqb code "OTHER") && negb (String.eqb code "UNKNOWN").

Definition hasFuelRef (row : list Cell) : bool :=
  existsb (fun c =>
    match c with
    | CStr (String a r) => namesFuel (normalizeChineseFuel (Some (String a r)))
    | _ => false
    end) row.

(** [/^\d{4}[-\/]\d{2}$/] and [split(/[-\/]/)]: the year and the month. *)
Definition splitPeriod (s : string) : option (string * string) :=
  let y := String.substring 0 4 s in
  let m := String.substring 5 2 s in
  match String.get 4 s with
  | Some sep =>
      if (String.length s =? 7)%nat && (Ascii.eqb sep "-" || Ascii.eqb sep "/")
         && Obj.allDigits y && Obj.allDigits m
      then Some (y, m) else None
  | None => None
  end.

Definition outDir : string := "data/CN/ev".

Definition record (year month : option Z) (data : list json) : json :=
  JObj [("year", Json.num year); ("month", Json.num month); ("data", JArr data);
        ("region", JStr "CN"); ("type", JStr "all")].

(** The body of the loop over the rows below the header, down to the
    test of [data.length]. *)
Definition rowRecord (colDate : option nat) (colMapping : list (nat * string))
    (row : list Cell) : option (string * json) :=
  match colDate with
  | None => None
  | Some d =>
      if Sheet.falsy (Sheet.cellAt row d) then None else
      let dateStr := Js.trim (Sheet.toString (Sheet.cellAt row d)) in
      match splitPeriod dateStr with
      | None => None
      | Some (yStr, mStr) =>
          let year := Js.parseInt yStr in
          let month := Js.parseInt mStr in
          let aggregated := Sheet.aggregate row colMapping [] in
          let data := Sheet.dataOf "所有品牌" "所有车型" aggregated in
          match data with
          | [] => None
          | _ =>
              Some (Fs.join outDir (Js.showZ (default 0 year) ++ "-" ++ mStr ++ ".json"),
                    record year month data)
          end
      end
  end.

Definition processRow (colDate : option nat) (colMapping : list (nat * string))
    (row : list Cell) (store : Store) : Store :=
  match rowRecord colDate colMapping row with
  | None => store
  | Some (outPath, content) =>
      if Fs.existsSync store outPath then store
      else Fs.writeFileSync outPath content store
  end.

Fixpoint findHeader (rows : list (list Cell))
    : option (list (list Cell) * option nat * list (nat * string)) :=
  match rows with
  | [] => None
  | row :: rest =>
      if hasFuelRef row then
        let colMapping := Sheet.mapColumns normalizeChineseFuel row 0 in
        Some (rest, Sheet.dateColumn colMapping, colMapping)
      else findHeader rest
  end.

(** [fetchAndProcessExcel] from the rows of the first sheet on. *)
Definition processSheet (rows : list (list Cell)) (store : Store) : Store :=
  match findHeader rows with
  | None => store
  | Some (below, colDate, colMapping) =>
      fold_left (fun st row => processRow colDate colMapping row st) below store
  end.

(** A month scraped from the articles: [null] figures are [None]. *)
Record Item := mkItem { year : Z; month : Z;
                        NEV : option Z; BEV : option Z; PHEV : option Z; TOTAL : option Z }.

(** Truthiness of a figure. *)
Definition given (v : option Z) : bool :=
  match v with Some n => negb (n =? 0) | None => false end.

Definition entryOf (total : Z) (energie : string) : json :=
  Json.entry "所有品牌" "所有车型" total energie.

Definition dataOfItem (it : Item) : list json :=
  (if given (BEV it) then [entryOf (default 0 (BEV it)) "BEV"] else [])
  ++ (if given (PHEV it) then [entryOf (default 0 (PHEV it)) "PHEV"] else [])
  ++ (if given (TOTAL it) && given (NEV it)
         && (default 0 (NEV it) <? default 0 (TOTAL it))
      then [entryOf (default 0 (TOTAL it) - default 0 (NEV it)) "FOSSIL"] else [])
  ++ (if given (NEV it) && negb (given (BEV it)) && negb (given (PHEV it))
      then [entryOf (default 0 (NEV it)) "BEV"] else []).

Definition pathOfItem (it : Item) : string :=
  Fs.join outDir (Js.showZ (year it) ++ "-" ++ Js.pad2 (month it) ++ ".json").

(** The record an item yields, [None] when [data] is empty. *)
Definition itemRecord (it : Item) : option json :=
  match dataOfItem it with
  | [] => None
  | data => Some (record (Some (year it)) (Some (month it)) data)
  end.

(** [fetchAllEVData] without a URL, from the scraped [monthlyData] on: the
    months with a file at the start are left out, the others are
    written. *)
Definition saveItems (monthlyData : list Item) (store : Store) : Store :=
  let newMonthlyData :=
    List.filter (fun it => negb (Fs.existsSync store (pathOfItem it))) monthlyData in
  fold_left (fun st it =>
    match itemRecord it with
    | None => st
    | Some content => Fs.writeFileSync (pathOfItem it) content st
    end) newMonthlyData store.

(** [existingFilesSet.has(name)]: the directory holds [name.json]. *)
Definition existing (store : Store) (name : string) : bool :=
  Fs.existsSync store (Fs.join outDir (name ++ ".json")).

(** [currentMonth], [lastMonth] and [twoMonthsAgo]; [now.getMonth()] is
    the month of the clock less one. *)
Definition recentMonths (now : Util.Clock) : list string :=
  let year := Util.currentYear now in
  let getMonth := Util.currentMonth now - 1 in
  let currentMonth := Js.showZ year ++ "-" ++ Js.pad2 (getMonth + 1) in
  let lastMonth :=
    if getMonth =? 0 then Js.showZ (year - 1) ++ "-12"
    else Js.showZ year ++ "-" ++ Js.pad2 getMonth in
  let twoMonthsAgo :=
    if getMonth <=? 1 then Js.showZ (year - 1) ++ "-" ++ Js.pad2 (12 + getMonth - 1)
    else Js.showZ year ++ "-" ++ Js.pad2 (getMonth - 1) in
  [currentMonth; lastMonth; twoMonthsAgo].

(** [fetchAllEVData] without a URL.  The scraper is given the names of
    the months that have a file, and passes over the articles it can tell
    are theirs. *)
Definition fetchAllEVData (findLatestDataFromCnEVPost : (string -> bool) -> list Item)
    (now : Util.Clock) (store : Store) : Store :=
  if forallb (existing store) (recentMonths now) then store
  else saveItems (findLatestDataFromCnEVPost (existing store)) store.

End CN.

(** ** scripts/parsers/NO.js *)

Module NO.

Definition mapping : list (string * string) :=
  [ ("19", "BEV"); ("20", "FOSSIL"); ("21", "HYBRID"); ("6", "OTHER") ].

Definition mapFuelType (code : string) : string := strOr (Obj.get code mapping) "UNKNOWN".

(** A JSON-stat response.  [id] lists the dimension names in the order
    [size] and [value] follow; [dimension] gives, by dimension name, the
    [category.index] object.  [parseJsonStat] reads [dimension], [value]
    and [size]. *)
Record Response := mkResponse {
  id : list string;
  size : option (list Z);
  dimension : option (list (string * list (string * Z)));
  value : option (list (option Z)) }.

Fixpoint insertByIndex (e : string * Z) (l : list (string * Z)) : list (string * Z) :=
  match l with
  | [] => [e]
  | e' :: r => if snd e' <? snd e then e' :: insertByIndex e r else e :: l
  end.

(** [entries.sort((a, b) => a[1] - b[1])]: a stable sort. *)
Fixpoint sortByIndex (l : list (string * Z)) : list (string * Z) :=
  match l with
  | [] => []
  | e :: r => insertByIndex e (sortByIndex r)
  end.

(** [Object.entries(index).sort(..).map(([code]) => code)] *)
Definition categoryOrder (index : list (string * Z)) : list string :=
  map fst (sortByIndex (Obj.entries index)).

Abbreviation Results := (list (string * list (string * Z))).

(** The body of the innermost loop. *)
Definition store1 (fuelTypes months : list string) (value : list (option Z))
    (iFuel iTime : nat) (st : Results * nat) : Results * nat :=
  let fuelCode := nth iFuel fuelTypes "undefined" in
  let monthCode := nth iTime months "undefined" in
  let val := default 0 (mjoin (value !! snd st)) in
  let inner := default [] (Obj.get monthCode (fst st)) in
  (Obj.set monthCode (Obj.set fuelCode val inner) (fst st), S (snd st)).

(** [for (let i = 0; i < n; i++) body(i)] *)
Definition forUpTo {S} (n : Z) (body : nat -> S -> S) (st : S) : S :=
  fold_left (fun s i => body i s) (seq 0 (Z.to_nat n)) st.

(** [size[k]]; a missing size ends the loop at once. *)
Definition sizeAt (size : list Z) (k : nat) : Z := nth k size 0.

Definition parseJsonStat (response : Response) : Result Results :=
  match dimension response, value response, size response with
  | Some dim, Some value, Some size =>
      match Obj.get "DrivstoffType" dim, Obj.get "Tid" dim with
      | Some fuelTypeIndex, Some monthIndex =>
          let fuelTypes := categoryOrder fuelTypeIndex in
          let months := categoryOrder monthIndex in
          Ok (fst
            (forUpTo (sizeAt size 0) (fun iTypeReg =>
               forUpTo (sizeAt size 1) (fun iFuel =>
                 forUpTo (sizeAt size 2) (fun iContents =>
                   forUpTo (sizeAt size 3) (fun iTime =>
                     store1 fuelTypes months value iFuel iTime))))
               ([], O)))
      | _, _ => Throw "TypeError"
      end
  | _, _, _ => Throw "Invalid JSON-stat response structure"
  end.

(** [monthCode.match(/^(\d{4})M(\d{2})$/)] *)
Definition matchMonth (s : string) : option (string * string) :=
  match Js.split "M"%char s with
  | [y; m] => if (String.length y =? 4)%nat && (String.length m =? 2)%nat
                 && Obj.allDigits y && Obj.allDigits m
              then Some (y, m) else None
  | _ => None
  end.

Definition outDir : string := "data/NO/ev".

(** The entries [saveMonthlyData] keeps: the totals above zero. *)
Definition dataOf (fuelData : list (string * Z)) : list json :=
  map (fun ft => Json.entry "Toutes marques" "Tous modÃ¨les" (snd ft)
                   (mapFuelType (fst ft)))
      (List.filter (fun ft => bool_decide (0 < snd ft)) (Obj.entries fuelData)).

Definition output (year month : option Z) (data : list json) : json :=
  JObj [("year", Json.num year); ("month", Json.num month);
        ("data", JArr data); ("region", JStr "NO"); ("type", JStr "all")].

Definition saveMonthlyData (monthCode : string) (fuelData : list (string * Z))
    (store : Store) : bool * Store :=
  match matchMonth monthCode with
  | None => (false, store)
  | Some (y, monthStr) =>
      let year := Js.parseInt y in
      let month := Js.parseInt monthStr in
      let outPath := Fs.join outDir (Js.showZ (default 0 year) ++ "-" ++ monthStr ++ ".json") in
      match dataOf fuelData with
      | [] => (false, store)
      | data => (true, Fs.writeFileSync outPath (output year month data) store)
      end
  end.

(** The month code of the API, [`${m.year}M${String(m.month).padStart(2, '0')}`]. *)
Definition apiCode (m : Util.MonthInfo) : string :=
  Js.showZ (Util.year m) ++ "M" ++ Js.pad2 (Util.month m).

(** [allMonthsRaw.map(m => ({ ...m, code: .. }))] *)
Definition withApiCode (m : Util.MonthInfo) : Util.MonthInfo :=
  Util.mkMonth (Util.year m) (Util.month m) (apiCode m).

(** The [fileNamer] given to [filterMissingMonths]. *)
Definition fileNamer (m : Util.MonthInfo) : string :=
  Js.showZ (Util.year m) ++ "-" ++ Js.pad2 (Util.month m) ++ ".json".

Definition batchSize : nat := 36.

(** [l.slice(i, i + n)] *)
Definition slice {A} (i n : nat) (l : list A) : list A := firstn n (skipn i l).

(** The values [i] takes in [for (let i = 0; i < n; i += batchSize)]. *)
Definition batchStarts (n : nat) : list nat :=
  map (fun k => (k * batchSize)%nat) (seq 0 ((n + batchSize - 1) / batchSize)).

(** The files and [totalSaved]. *)
Record Progress := mkProgress { files : Store; totalSaved : Z }.

Section Api.

(** The table of the API as far as the script sees it: the answer to the
    request for the months [monthCodes], or the failure of the request. *)
Variable fetchJson : list string -> Result Response.

Definition fetchMonthsBatch (monthCodes : list string) : Result Results :=
  match fetchJson monthCodes with
  | Ok response => parseJsonStat response
  | Throw e => Throw e
  end.

(** The loop of the [try] block over the months of the batch. *)
Definition saveBatch (results : Results) (monthCodes : list string) (p : Progress)
    : Progress :=
  fold_left (fun p monthCode =>
    match Obj.get monthCode results with
    | Some fuelData =>
        let saved := saveMonthlyData monthCode fuelData (files p) in
        mkProgress (snd saved) (if fst saved then totalSaved p + 1 else totalSaved p)
    | None => p
    end) monthCodes p.

(** The loop of the [catch] block: one request for each month of the batch,
    its failure caught. *)
Definition fetchOneByOne (monthCodes : list string) (p : Progress) : Progress :=
  fold_left (fun p monthCode =>
    match fetchMonthsBatch [monthCode] with
    | Ok results =>
        match Obj.get monthCode results with
        | Some fuelData =>
            mkProgress (snd (saveMonthlyData monthCode fuelData (files p))) (totalSaved p + 1)
        | None => p
        end
    | Throw _ => p
    end) monthCodes p.

(** The body of the loop over the batches. *)
Definition processBatch (batch : list Util.MonthInfo) (p : Progress) : Progress :=
  let monthCodes := map Util.code batch in
  match fetchMonthsBatch monthCodes with
  | Ok results => saveBatch results monthCodes p
  | Throw _ => fetchOneByOne monthCodes p
  end.

Definition fetchAllEVData (now : Util.Clock) (store : Store) : Progress :=
  let allMonthsRaw := Util.getMonthsSinceStart 2011 now in
  let allMonths := map withApiCode allMonthsRaw in
  let missingMonths := Util.filterMissingMonths allMonths outDir fileNamer store in
  fold_left (fun p i => processBatch (slice i batchSize missingMonths) p)
    (batchStarts (length missingMonths)) (mkProgress store 0).

End Api.

End NO.

(** ** scripts/parsers/NL.js *)

Module NL.

Definition mapping : list (string * string) :=
  [ ("Elektriciteit", "BEV"); ("Benzine", "GASOLINE"); ("Diesel", "DIESEL");
    ("LPG", "LPG_CNG_OTHER"); ("CNG", "LPG_CNG_OTHER"); ("LNG", "LPG_CNG_OTHER");
    ("Waterstof", "LPG_CNG_OTHER"); ("Alcohol", "LPG_CNG_OTHER") ].

(** [mapping[brandstof] || 'OTHER']; an absent label is looked up as the
    key ["undefined"]. *)
Definition mapFuelType (brandstof : option string) : string :=
  strOr (Obj.get (default "undefined" brandstof) mapping) "OTHER".

(** The answer to one batch request: [None] when it is not an array, else
    the [brandstof_omschrijving] of each record. *)
Abbreviation Batch := (option (list (option string))).

(** The loop that aggregates the answers into [fuelCounts]. *)
Definition countFuels (results : list Batch) : list (string * Z) :=
  fold_left (fun fuelCounts fuelData =>
    match fuelData with
    | None => fuelCounts
    | Some records =>
        fold_left (fun fc rec =>
          let fuelType := mapFuelType rec in
          Obj.set fuelType (default 0 (Obj.get fuelType fc) + 1) fc) records fuelCounts
    end) results [].

(** [fetchMonthData]: [rdw] is the registry as far as the function sees
    it, the answers to the fuel requests of a month or the failure that
    leaves the function. *)
Definition fetchMonthData (rdw : string -> Result (list Batch)) (monthCode : string)
    : Result (list (string * Z)) :=
  match rdw monthCode with
  | Throw e => Throw e
  | Ok results => Ok (countFuels results)
  end.

Definition outputDir : string := "data/NL/ev".

(** The object [saveMonthlyData] writes. *)
Definition output (monthCode : string) (fuelData : list (string * Z)) : json :=
  let parts := Js.split "-"%char monthCode in
  let formattedData :=
    map (fun et => Json.entry "ALL" "ALL" (snd et) (fst et)) (Obj.entries fuelData) in
  JObj [("year", Json.num (Js.parseInt (nth 0 parts "undefined")));
        ("month", Json.num (Js.parseInt (nth 1 parts "undefined")));
        ("data", JArr formattedData); ("region", JStr "NL"); ("type", JStr "all")].

Definition saveMonthlyData (monthCode : string) (fuelData : list (string * Z))
    (store : Store) : Store :=
  Fs.writeFileSync (Fs.join outputDir (monthCode ++ ".json")) (output monthCode fuelData)
    store.

(** The files and the two counters of the loop over the missing months. *)
Record Progress := mkProgress { files : Store; successCount : Z; errorCount : Z }.

(** The body of the loop: the [try] block and its [catch]. *)
Definition processMonth (rdw : string -> Result (list Batch)) (monthInfo : Util.MonthInfo)
    (p : Progress) : Progress :=
  match fetchMonthData rdw (Util.code monthInfo) with
  | Ok fuelData =>
      match Obj.keys fuelData with
      | [] => mkProgress (files p) (successCount p) (errorCount p + 1)
      | _ => mkProgress (saveMonthlyData (Util.code monthInfo) fuelData (files p))
                        (successCount p + 1) (errorCount p)
      end
  | Throw _ => mkProgress (files p) (successCount p) (errorCount p + 1)
  end.

Definition fetchAllEVData (rdw : string -> Result (list Batch)) (now : Util.Clock)
    (store : Store) : Progress :=
  let allMonths := Util.getMonthsSinceStart 2019 now in
  let missingMonths := Util.filterMissingMonths allMonths outputDir Util.codeJson store in
  fold_left (fun p m => processMonth rdw m p) missingMonths (mkProgress store 0 0).

End NL.

(** ** scripts/parsers/ACEA.js: the extractor that reads positions *)

Module ACEA.

(** A text item of a page as pdf.js gives it: [item.str],
    [item.transform[4]] and [item.transform[5]]. *)
Record TextItem := mkItem { str : string; tx : Q; ty : Q }.

Abbreviation Page := (list TextItem).
Abbreviation Pdf := (list Page).

(** An element of a row: [{ text, x }]. *)
Record RowItem := mkRowItem { text : string; x : Q }.

Definition countryNames : list (string * list string) :=
  [ ("FR", ["France"; "FRANCE"]);
    ("DE", ["Germany"; "GERMANY"; "Deutschland"]);
    ("ES", ["Spain"; "SPAIN"; "España"; "Espana"]);
    ("IT", ["Italy"; "ITALY"; "Italia"]);
    ("NL", ["Netherlands"; "NETHERLANDS"; "Nederland"; "The Netherlands"]);
    ("BE", ["Belgium"; "BELGIUM"; "Belgique"; "België"]);
    ("PT", ["Portugal"; "PORTUGAL"]);
    ("SE", ["Sweden"; "SWEDEN"; "Sverige"]);
    ("NO", ["Norway"; "NORWAY"; "Norge"]);
    ("PL", ["Poland"; "POLAND"; "Polska"]);
    ("AT", ["Austria"; "AUSTRIA"; "Österreich"; "Osterreich"]);
    ("DK", ["Denmark"; "DENMARK"; "Danmark"]);
    ("FI", ["Finland"; "FINLAND"; "Suomi"]);
    ("IE", ["Ireland"; "IRELAND"]);
    ("GR", ["Greece"; "GREECE"]);
    ("CZ", ["Czech Republic"; "CZECH REPUBLIC"; "Czechia"]);
    ("RO", ["Romania"; "ROMANIA"]);
    ("HU", ["Hungary"; "HUNGARY"]);
    ("SK", ["Slovakia"; "SLOVAKIA"]);
    ("BG", ["Bulgaria"; "BULGARIA"]);
    ("HR", ["Croatia"; "CROATIA"]);
    ("LT", ["Lithuania"; "LITHUANIA"]);
    ("LV", ["Latvia"; "LATVIA"]);
    ("EE", ["Estonia"; "ESTONIA"]);
    ("SI", ["Slovenia"; "SLOVENIA"]) ].

(** [countryNames[countryCode] || [countryCode]] *)
Definition countryVariations (countryCode : string) : list string :=
  default [countryCode] (Obj.get countryCode countryNames).

(** [Math.round] *)
Definition round (q : Q) : Z := Qfloor (Qplus q (1 # 2)).

(** [rowMap.get(y).push(item)], the key [y] being added at the end when
    it is new: a [Map] keeps its keys in insertion order. *)
Fixpoint pushAt (y : Z) (it : RowItem) (rowMap : list (Z * list RowItem))
    : list (Z * list RowItem) :=
  match rowMap with
  | [] => [(y, [it])]
  | (y', items) :: r =>
      if y' =? y then (y', (items ++ [it])%list) :: r else (y', items) :: pushAt y it r
  end.

(** The loop over [textContent.items]. *)
Definition groupRows (page : Page) : list (Z * list RowItem) :=
  fold_left (fun rowMap item =>
    let text := Js.trim (str item) in
    match text with
    | EmptyString => rowMap
    | _ => pushAt (round (ty item)) (mkRowItem text (tx item)) rowMap
    end) page [].

Fixpoint insertByX (it : RowItem) (l : list RowItem) : list RowItem :=
  match l with
  | [] => [it]
  | b :: r =>
      match Qcompare (x b) (x it) with
      | Lt => b :: insertByX it r
      | _ => it :: l
      end
  end.

(** [items.sort((a, b) => a.x - b.x)]: a stable sort. *)
Fixpoint sortByX (l : list RowItem) : list RowItem :=
  match l with
  | [] => []
  | it :: r => insertByX it (sortByX r)
  end.

Definition hasSign (text : string) : bool :=
  Js.includes text "+" || Js.includes text "-" || Js.includes text "%".

(** [parseInt(text.replace(/,/g, ''), 10)] when it is a number that is
    not negative. *)
Definition count (text : string) : option Z :=
  match Js.parseInt (Js.removeChar ","%char text) with
  | Some num => if 0 <=? num then Some num else None
  | None => None
  end.

(** The filter that tells a data row: no sign, and a number. *)
Definition plainNumber (it : RowItem) : bool :=
  negb (hasSign (text it)) && bool_decide (is_Some (count (text it))).

(** The loop over the rows of a page: the first row, items sorted, whose
    text holds a name of the country and which has four plain numbers. *)
Fixpoint findInRows (variations : list string) (rows : list (Z * list RowItem))
    : option (list RowItem) :=
  match rows with
  | [] => None
  | (_, items) :: r =>
      let items := sortByX items in
      let rowText := Js.join " " (map text items) in
      if existsb (fun name =>
           Js.includes rowText name
           && (4 <=? length (List.filter (fun it => plainNumber it) items))%nat) variations
      then Some items
      else findInRows variations r
  end.

(** The loop over the pages. *)
Fixpoint findCountryRow (variations : list string) (pdf : Pdf) : option (list RowItem) :=
  match pdf with
  | [] => None
  | page :: r =>
      match findInRows variations (groupRows page) with
      | Some items => Some items
      | None => findCountryRow variations r
      end
  end.

Definition dashGlyphs : list string :=
  ["–"; "—"; "−"; "‐"; "‑"; "‒"; "―"; "⁃"; "ꟷ"].

(** [/^[–—−‐‑‒―⁃ꟷ]+$/.test(s)]: each of the glyphs takes three bytes. *)
Fixpoint dashesOnly (s : string) : bool :=
  match s with
  | String a (String b (String c r)) =>
      existsb (String.eqb (String a (String b (String c EmptyString)))) dashGlyphs
      && match r with
         | EmptyString => true
         | _ => dashesOnly r
         end
  | _ => false
  end.

(** The number an item of the country row contributes, if any. *)
Definition numberOf (variations : list string) (text : string) : option Z :=
  if existsb (fun name => Js.includes text name) variations then None
  else if hasSign text then None
  else if dashesOnly text then None
  else count text.

(** The loop that fills [numbers]. *)
Definition extractNumbers (variations : list string) (countryRow : list RowItem) : list Z :=
  omap (fun it => numberOf variations (text it)) countryRow.

(** [numbers[i] || 0] *)
Definition at0 (numbers : list Z) (i : nat) : Z := nth i numbers 0.

(** [parsePdfData] below the extraction of [numbers]. *)
Definition slots (countryCode : string) (numbers : list Z) : Result (list (string * Z)) :=
  if (length numbers <? 6)%nat
  then Throw ("Insufficient data points for " ++ countryCode)
  else
    let hasHybridData := (14 <=? length numbers)%nat in
    let bev := at0 numbers 0 in
    let phev := at0 numbers 2 in
    let hybrid := if hasHybridData then at0 numbers 4 else 0 in
    let other := if hasHybridData then at0 numbers 6 else at0 numbers 4 in
    let gasoline := if hasHybridData then at0 numbers 8 else at0 numbers 6 in
    let diesel := if hasHybridData then at0 numbers 10 else at0 numbers 8 in
    Ok [("BEV", bev); ("PHEV", phev); ("HYBRID", hybrid); ("DIESEL", diesel);
        ("GASOLINE", gasoline); ("OTHER", other)].

(** [parsePdfData] on a document pdf.js has read. *)
Definition parsePdf (pdf : Pdf) (countryCode : string) : Result (list (string * Z)) :=
  let variations := countryVariations countryCode in
  match findCountryRow variations pdf with
  | None => Throw ("Country " ++ countryCode ++ " not found in PDF")
  | Some countryRow => slots countryCode (extractNumbers variations countryRow)
  end.

Definition mapping : list (string * string) :=
  [ ("electric", "BEV"); ("bev", "BEV"); ("battery electric", "BEV");
    ("plug-in hybrid", "PHEV"); ("phev", "PHEV"); ("hybrid electric", "HYBRID");
    ("hev", "HYBRID"); ("hybrid", "HYBRID"); ("diesel", "DIESEL");
    ("petrol", "GASOLINE"); ("gasoline", "GASOLINE"); ("lpg", "LPG_CNG_OTHER");
    ("cng", "LPG_CNG_OTHER"); ("other", "OTHER") ].

Definition mapAceaFuelType (fuelName : option string) : string :=
  match fuelName with
  | Some (String c r) => firstIncluded (Js.trim (Js.toLowerCase (String c r))) mapping
  | _ => "UNKNOWN"
  end.

Definition monthNames : list string :=
  ["January"; "February"; "March"; "April"; "May"; "June"; "July"; "August";
   "September"; "October"; "November"; "December"].

Definition baseUrl : string := "https://www.acea.auto/files/".

Definition getAceaPdfUrls (year month : Z) : list string :=
  let monthName :=
    if (1 <=? month) && (month <=? 12)
    then nth (Z.to_nat (month - 1)) monthNames "undefined" else "undefined" in
  let y := Js.showZ year in
  [ baseUrl ++ "Press_release_car_registrations_" ++ monthName ++ "_" ++ y ++ ".pdf";
    baseUrl ++ "Press_release_car_registrations-" ++ monthName ++ "_" ++ y ++ ".pdf";
    baseUrl ++ "Press_release_car_registrations_" ++ monthName ++ "-" ++ y ++ ".pdf";
    baseUrl ++ "Press_release_car_registrations_" ++ monthName ++ y ++ ".pdf" ].

Section Network.

(** The bytes of a download, [fetchFile] ([None] when it rejects) and
    pdf.js's [getDocument] ([None] when it rejects). *)
Variable Buffer : Type.
Variable fetchFile : string -> option Buffer.
Variable getDocument : Buffer -> option Pdf.

Fixpoint firstFetched (urls : list string) : option Buffer :=
  match urls with
  | [] => None
  | url :: r =>
      match fetchFile url with
      | Some buffer => Some buffer
      | None => firstFetched r
      end
  end.

Definition fetchAceaPdf (year month : Z) : Result Buffer :=
  match firstFetched (getAceaPdfUrls year month) with
  | Some buffer => Ok buffer
  | None => Throw ("Unable to fetch ACEA PDF for " ++ Util.monthCode year month)
  end.

Definition parsePdfData (pdfBuffer : Buffer) (countryCode : string)
    : Result (list (string * Z)) :=
  match getDocument pdfBuffer with
  | None => Throw "InvalidPDFException"
  | Some pdf => parsePdf pdf countryCode
  end.

(** The object [processAceaMonth] writes. *)
Definition output (year month : Z) (rawData : list (string * Z)) : json :=
  JObj [("year", JNum year); ("month", JNum month);
        ("data", JArr (map (fun item =>
           Json.entry "Toutes marques" "Tous modèles" (snd item) (fst item)) rawData))].

(** [processAceaMonth]: whatever is thrown is caught and logged. *)
Definition processAceaMonth (year month : Z) (countryCode outDir : string)
    (store : Store) : Store :=
  match fetchAceaPdf year month with
  | Throw _ => store
  | Ok pdfBuffer =>
      match parsePdfData pdfBuffer countryCode with
      | Throw _ => store
      | Ok rawData =>
          Fs.writeFileSync (Fs.join outDir (Util.monthCode year month ++ ".json"))
            (output year month rawData) store
      end
  end.

Definition outDirOf (countryCode : string) : string := "data/" ++ countryCode ++ "/ev".

Definition collectAceaData (now : Util.Clock) (countryCode : string) (startYear : Z)
    (store : Store) : Store :=
  let outDir := outDirOf countryCode in
  let allMonths := Util.getMonthsSinceStart startYear now in
  let missingMonths := Util.filterMissingMonths allMonths outDir Util.codeJson store in
  fold_left (fun st m =>
    processAceaMonth (Util.year m) (Util.month m) countryCode outDir st)
    missingMonths store.

End Network.

End ACEA.

(** ** The earlier ACEA extractor, which reads the text of the pages *)

Module ACEAText.

(** Its [parsePdfData] below the extraction of [numbers] from the text
    after the country name. *)
Definition slots (countryCode : string) (numbers : list Z) : Result (list (string * Z)) :=
  if (length numbers <? 12)%nat
  then Throw ("Insufficient data points for " ++ countryCode)
  else
    Ok [("BEV", ACEA.at0 numbers 0); ("PHEV", ACEA.at0 numbers 2);
        ("HYBRID", ACEA.at0 numbers 4); ("DIESEL", ACEA.at0 numbers 10);
        ("GASOLINE", ACEA.at0 numbers 8); ("OTHER", ACEA.at0 numbers 6)].

End ACEAText.

(** ** scripts/collect_all.js *)

Module CollectAll.

Record ParserInfo := mkParser { script : string; function : string }.

(** A zone of config/zones.yaml: its [parsers], by category, if any. *)
Record Zone := mkZone { parsers : option (list (string * ParserInfo)) }.

(** What a parser function does to the files, and what it throws, if it
    throws. *)
Abbreviation Parser := (Store -> Store * option string).

(** The files, and the (zone, category) pairs of the parsers run so far,
    latest first. *)
Record Run := mkRun { files : Store; started : list (string * string) }.

Inductive Outcome :=
| Resolved
| Rejected (error : string)
| Exited (code : Z).

Section Environment.

(** [fs.existsSync(scriptPath)] and [require(scriptPath)[name]]. *)
Variable scriptExists : string -> bool.
Variable modules : string -> string -> option Parser.

(** The loop over the parsers of one zone. *)
Fixpoint runParsers (zoneCode : string) (ps : list (string * ParserInfo)) (r : Run)
    : Run * Outcome :=
  match ps with
  | [] => (r, Resolved)
  | (category, parserInfo) :: rest =>
      if scriptExists (script parserInfo) then
        let r := mkRun (files r) ((zoneCode, category) :: started r) in
        match modules (script parserInfo) (function parserInfo) with
        | None => (r, Rejected "TypeError")
        | Some parser =>
            match parser (files r) with
            | (store, Some e) => (mkRun store (started r), Rejected e)
            | (store, None) => runParsers zoneCode rest (mkRun store (started r))
            end
        end
      else runParsers zoneCode rest r
  end.

(** The loop over the zones. *)
Fixpoint runZones (zs : list (string * Zone)) (r : Run) : Run * Outcome :=
  match zs with
  | [] => (r, Resolved)
  | (zoneCode, zone) :: rest =>
      match parsers zone with
      | None => runZones rest r
      | Some ps =>
          match runParsers zoneCode (Obj.entries ps) r with
          | (r', Resolved) => runZones rest r'
          | other => other
          end
      end
  end.

(** [runAllParsers]: [targetZone] is [process.argv[2]]. *)
Definition runAllParsers (zones : list (string * Zone)) (targetZone : option string)
    (r : Run) : Run * Outcome :=
  match targetZone with
  | Some (String c t) =>
      match Obj.get (String c t) zones with
      | Some zone => runZones (Obj.entries [(String c t, zone)]) r
      | None => (r, Exited 1)
      end
  | _ => runZones (Obj.entries zones) r
  end.

(** The exit code of the script:
    [runAllParsers().then(() => process.exit(0)).catch(e => process.exit(1))]. *)
Definition exitCode (zones : list (string * Zone)) (targetZone : option string)
    (r : Run) : Z :=
  match snd (runAllParsers zones targetZone r) with
  | Resolved => 0
  | Rejected _ => 1
  | Exited code => code
  end.

End Environment.

End CollectAll.

(** * What the specification says, and sample inputs *)

Module Spec.

(** The place of a month on the line of months: twelve per year. *)
Definition ordinal (m : Util.MonthInfo) : Z := 12 * Util.year m + (Util.month m - 1).

(** The rule of the specification for labels that contain aliases: [code]
    is the code of the longest alias the label contains, the first
    registered among the longest.  [norm] is the form in which an alias is
    compared. *)
Definition LongestMatch (norm : string -> string) (clean : string)
    (pairs : list (string * string)) (code : string) : Prop :=
  exists before alias after,
    pairs = (before ++ (code, alias) :: after)%list
    /\ Js.includes clean (norm alias) = true
    /\ (0 < String.length (norm alias))%nat
    /\ Forall (fun p => Js.includes clean (norm (snd p)) = true ->
                        (String.length (norm (snd p)) < String.length (norm alias))%nat) before
    /\ Forall (fun p => Js.includes clean (norm (snd p)) = true ->
                        (String.length (norm (snd p)) <= String.length (norm alias))%nat) after.

(** A collection run that writes a file once: a file of the store is never
    replaced, and a second run over the resulting store changes nothing. *)
Definition WriteOnce (run : Store -> Store) : Prop :=
  (forall store p v, store !! p = Some v -> run store !! p = Some v)
  /\ (forall store, run (run store) = run store).

(** [value[j] || 0] *)
Definition valueAt (value : list (option Z)) (j : nat) : Z := default 0 (mjoin (value !! j)).

(** [results[monthCode][fuelCode]] *)
Definition cell (results : list (string * list (string * Z))) (monthCode fuelCode : string)
    : option Z :=
  Obj.get monthCode results ≫= Obj.get fuelCode.

(** The place of a code in a list of codes. *)
Fixpoint position (code : string) (codes : list string) : option nat :=
  match codes with
  | [] => None
  | c :: r => if String.eqb c code then Some O else S <$> position code r
  end.

(** The place in the flat array of the value of a fuel and a period when the
    order of the dimensions is the declared one, [id]: row-major, the last
    dimension running fastest, the other dimensions at their last
    category. *)
Definition declaredIndex (r : NO.Response) (iFuel iTime : nat) : nat :=
  fold_left (fun acc ds =>
    let coordinate :=
      if String.eqb (fst ds) "DrivstoffType" then iFuel
      else if String.eqb (fst ds) "Tid" then iTime
      else (Z.to_nat (snd ds) - 1)%nat in
    (acc * Z.to_nat (snd ds) + coordinate)%nat)
    (combine (NO.id r) (default [] (NO.size r))) O.

(** The value the declared order gives to a period and a fuel. *)
Definition declaredCell (r : NO.Response) (monthCode fuelCode : string) : option Z :=
  dim ← NO.dimension r;
  fuelIndex ← Obj.get "DrivstoffType" dim;
  monthIndex ← Obj.get "Tid" dim;
  values ← NO.value r;
  iFuel ← position fuelCode (NO.categoryOrder fuelIndex);
  iTime ← position monthCode (NO.categoryOrder monthIndex);
  Some (valueAt values (declaredIndex r iFuel iTime)).

(** A record file with the five fields whose [energie] values are all
    strings of [codes]. *)
Definition Canonical (codes : list string) (j : json) : Prop :=
  Json.hasRecordFields j = true
  /\ Forall (fun e => exists c, e = Some (JStr c) /\ In c codes) (Json.energies j).

Definition AllCanonical (codes : list string) (store : Store) : Prop :=
  forall p j, store !! p = Some j -> Canonical codes j.

(** The codes of the Chinese table: it has a tenth code, FCEV. *)
Definition chineseCodes : list string := (canonicalFuelCodes ++ ["FCEV"])%list.

(** The codes of the entries the PDF extractors return, in their order. *)
Definition sixCodes : list string := ["BEV"; "PHEV"; "HYBRID"; "DIESEL"; "GASOLINE"; "OTHER"].

(** Every parser function the configuration names, in a script that exists,
    is exported and returns without throwing. *)
Definition AllReturn (scriptExists : string -> bool)
    (modules : string -> string -> option CollectAll.Parser)
    (zones : list (string * CollectAll.Zone)) : Prop :=
  forall zoneCode zone ps category info,
    In (zoneCode, zone) zones -> CollectAll.parsers zone = Some ps ->
    In (category, info) ps ->
    scriptExists (CollectAll.script info) = true ->
    exists parser,
      modules (CollectAll.script info) (CollectAll.function info) = Some parser
      /\ forall store, snd (parser store) = None.

(** The Dutch and the Swedish parser functions as collect_all.js calls
    them. *)
Definition nlParser (rdw : string -> Result (list NL.Batch)) (now : Util.Clock)
    : CollectAll.Parser :=
  fun store => (NL.files (NL.fetchAllEVData rdw now store), None).

Definition seParser (download : string -> Result (option (list SE.CsvRow)))
    : CollectAll.Parser :=
  fun store =>
    match SE.fetchAllEVData download store with
    | Ok store' => (store', None)
    | Throw e => (store, Some e)
    end.

(** What a request to the Norwegian API for one month alone says of it. *)
Definition single (fetchJson : list string -> Result NO.Response) (monthCode : string)
    : option (list (string * Z)) :=
  match NO.fetchMonthsBatch fetchJson [monthCode] with
  | Ok results => Obj.get monthCode results
  | Throw _ => None
  end.

(** The sources answer as before, said of the Norwegian API, whose
    requests change with the months that are missing: what the answer to a
    batch says of one of its months is what a request for that month alone
    says. *)
Definition MonthWise (fetchJson : list string -> Result NO.Response) : Prop :=
  forall monthCodes results monthCode,
    NO.fetchMonthsBatch fetchJson monthCodes = Ok results ->
    In monthCode monthCodes ->
    Obj.get monthCode results = single fetchJson monthCode.

(** The sources answer as before, said of the Chinese scraper, which is
    told the months that have a file: with more files in place it finds no
    month it did not find before. *)
Definition SkipsOnly (scrape : (string -> bool) -> list CN.Item) : Prop :=
  forall have have' : string -> bool,
    (forall name, have name = true -> have' name = true) ->
    forall it, In it (scrape have') -> In it (scrape have).

(** The tokens of a country row of the ACEA table: the name of the country,
    a figure, a change in percent (it carries a sign), a dash that stands
    for a missing figure. *)
Inductive Token :=
| Name
| Figure (n : Z)
| Change
| Dash.

(** An item of the row shows a token. *)
Definition shows (variations : list string) (it : ACEA.RowItem) (t : Token) : Prop :=
  match t with
  | Name => existsb (fun name => Js.includes (ACEA.text it) name) variations = true
  | Figure n => ACEA.numberOf variations (ACEA.text it) = Some n
  | Change => ACEA.hasSign (ACEA.text it) = true
  | Dash => ACEA.dashesOnly (ACEA.text it) = true
  end.

Definition figures (layout : list Token) : list Z :=
  omap (fun t => match t with Figure n => Some n | _ => None end) layout.

(** A fuel of the row: this period, the period before, the change. *)
Definition column (current previous : Z) : list Token := [Figure current; Figure previous; Change].

(** The row when dashes stand for the three hybrid tokens: battery electric,
    plug-in hybrid, (hybrid), others, petrol, diesel, total. *)
Definition degradedLayout (bev bev' phev phev' other other' : Z)
    (gasoline gasoline' diesel diesel' total total' : Z) : list Token :=
  (Name :: column bev bev' ++ column phev phev' ++ [Dash; Dash; Dash]
   ++ column other other' ++ column gasoline gasoline' ++ column diesel diesel'
   ++ column total total')%list.

End Spec.

Import Spec.

(** ** Runs that write once *)

Section Writers.

(** What an item of a run would write, and where: [content x] is [None]
    when the item yields no record. *)
Context {X : Type} (path : X -> string) (content : X -> option json).

(** The parsers that look for the file right before they write it. *)
Definition writeIfNew (x : X) (st : Store) : Store :=
  match content x with
  | Some v => if Fs.existsSync st (path x) then st else Fs.writeFileSync (path x) v st
  | None => st
  end.

(** The parsers that first keep the items without a file, then write. *)
Definition write (x : X) (st : Store) : Store :=
  match content x with
  | Some v => Fs.writeFileSync (path x) v st
  | None => st
  end.

Definition writeMissing (xs : list X) (s : Store) : Store :=
  fold_left (fun st x => write x st)
            (List.filter (fun x => negb (Fs.existsSync s (path x))) xs) s.

End Writers.

(** The record a month of an ACEA run yields when its PDF is found and
    read, and the file it goes to. *)
Definition aceaContent (Buffer : Type) (fetchFile : string -> option Buffer)
    (getDocument : Buffer -> option ACEA.Pdf) (countryCode : string) (m : Util.MonthInfo)
    : option json :=
  match ACEA.fetchAceaPdf Buffer fetchFile (Util.year m) (Util.month m) with
  | Ok pdfBuffer =>
      match ACEA.parsePdfData Buffer getDocument pdfBuffer countryCode with
      | Ok rawData => Some (ACEA.output (Util.year m) (Util.month m) rawData)
      | Throw _ => None
      end
  | Throw _ => None
  end.

Definition aceaPath (countryCode : string) (m : Util.MonthInfo) : string :=
  Fs.join (ACEA.outDirOf countryCode) (Util.codeJson m).

(** The record a month of a Dutch run yields, and the file it goes to. *)
Definition nlContent (rdw : string -> Result (list NL.Batch)) (m : Util.MonthInfo)
    : option json :=
  match NL.fetchMonthData rdw (Util.code m) with
  | Ok fuelData =>
      match Obj.keys fuelData with
      | [] => None
      | _ => Some (NL.output (Util.code m) fuelData)
      end
  | Throw _ => None
  end.

Definition nlPath (m : Util.MonthInfo) : string := Fs.join NL.outputDir (Util.codeJson m).

(** The record a month of a German run yields, and the file it goes to. *)
Definition deContent (Buffer : Type) (fetchFile : string -> option Buffer)
    (readTotals : Buffer -> option DE.KbaTotals) (m : Util.MonthInfo) : option json :=
  match DE.fetchMonthData Buffer fetchFile readTotals (Util.year m) (Util.month m) with
  | Some fuelData =>
      match Obj.keys fuelData with
      | [] => None
      | _ => Some (DE.output (Util.year m) (Util.month m) fuelData)
      end
  | None => None
  end.

Definition dePath (m : Util.MonthInfo) : string := Fs.join DE.outDir (Util.codeJson m).

(** The record a month of a Norwegian run yields when the API answers month
    by month, and the file it goes to. *)
Definition noRecord (m : Util.MonthInfo) (fuelData : list (string * Z)) : option json :=
  match NO.dataOf fuelData with
  | [] => None
  | data => Some (NO.output (Some (Util.year m)) (Some (Util.month m)) data)
  end.

Definition noContent (fetchJson : list string -> Result NO.Response) (m : Util.MonthInfo)
    : option json :=
  single fetchJson (Util.code m) ≫= noRecord m.

Definition noPath (m : Util.MonthInfo) : string := Fs.join NO.outDir (NO.fileNamer m).

(** A month of the Norwegian run: a four-digit year, a month of the year,
    and the code the API knows it by. *)
Definition NoMonth (m : Util.MonthInfo) : Prop :=
  1000 <= Util.year m <= 9999 /\ 1 <= Util.month m <= 12 /\ Util.code m = NO.apiCode m.

(** A year is written with four digits and read back; a month with two. *)
Definition yearOk (y : Z) : bool :=
  (String.length (Js.showZ y) =? 4)%nat && Obj.allDigits (Js.showZ y)
  && bool_decide (Js.parseInt (Js.showZ y) = Some y).

Definition monthOk (m : Z) : bool :=
  (String.length (Js.pad2 m) =? 2)%nat && Obj.allDigits (Js.pad2 m)
  && bool_decide (Js.parseInt (Js.pad2 m) = Some m).

(** [for (let i = 0; i < n; i++)] on a natural bound. *)
Definition iter {S} (n : nat) (body : nat -> S -> S) (st : S) : S :=
  fold_left (fun s i => body i s) (seq 0 n) st.

(** The keys of an object are all in [codes]. *)
Definition KeysIn {A} (codes : list string) (o : list (string * A)) : Prop :=
  Forall (fun e => In (fst e) codes) o.

(** The months the Swedish parser has gathered hold canonical codes only. *)
Definition MonthsOk (monthlyData : list (string * SE.MonthData)) : Prop :=
  Forall (fun km => KeysIn canonicalFuelCodes (SE.byFuel (snd km))) monthlyData.

(** ** Sample inputs *)

(** The two aliases of the specification's example. *)
Definition hybrideTable : AliasTable :=
  [("HYBRID", ["hybride"]); ("PHEV", ["hybride rechargeable"])].

(** One registration type, two fuels, one measure, three periods. *)
Definition flatResponse : NO.Response :=
  NO.mkResponse ["TypeRegistrering"; "DrivstoffType"; "ContentsCode"; "Tid"]
    (Some [1; 2; 1; 3])
    (Some [("DrivstoffType", [("19", 0); ("20", 1)]);
           ("Tid", [("2024M01", 0); ("2024M02", 1); ("2024M03", 2)])])
    (Some [Some 10; Some 20; Some 30; Some 40; Some 50; Some 60]).

(** The same six values, declared period first and fuel last. *)
Definition periodFirstResponse : NO.Response :=
  NO.mkResponse ["TypeRegistrering"; "Tid"; "ContentsCode"; "DrivstoffType"]
    (Some [1; 3; 1; 2])
    (Some [("DrivstoffType", [("19", 0); ("20", 1)]);
           ("Tid", [("2024M01", 0); ("2024M02", 1); ("2024M03", 2)])])
    (Some [Some 10; Some 20; Some 30; Some 40; Some 50; Some 60]).

(** The sheet of the specification's example, and the same sheet with the
    header the French table registers. *)
Definition gazoleSheet : list (list Cell) :=
  [ [CStr "Period"; CStr "Gazole"; CStr "Essence"; CStr "Electrique"];
    [CStr "2023_05"; CStr "100"; CStr "50"; CStr "25"] ].

Definition thermiqueSheet : list (list Cell) :=
  [ [CStr "Period"; CStr "Gazole (thermique)"; CStr "Essence"; CStr "Electrique"];
    [CStr "2023_05"; CStr "100"; CStr "50"; CStr "25"] ].

Definition frEntry (total : Z) (energie : string) : json :=
  Json.entry "Toutes marques" "Tous modèles" total energie.

(** A Chinese sheet with a fuel-cell column. *)
Definition fuelCellSheet : list (list Cell) :=
  [ [CStr "月份"; CStr "燃料电池汽车"; CStr "纯电动"];
    [CStr "2024-01"; CStr "5"; CNum 7] ].

(** A page with a German line of prose and the French row, dashes standing
    for the hybrid figures; the items come in no particular order. *)
Definition degradedPage : ACEA.Page :=
  let it (s : string) (x : Z) := ACEA.mkItem s (inject_Z x) (7001 # 10) in
  [ ACEA.mkItem "Germany" (inject_Z 0) (7100 # 10);
    ACEA.mkItem "1" (inject_Z 10) (7100 # 10);
    it "25,000" 10; it "20,000" 20; it "+25.0" 30;
    it "9,000" 40; it "8,000" 50; it "+12.5" 60;
    it "–" 70; it "–" 80; it "–" 90;
    it "300" 100; it "200" 110; it "+50.0" 120;
    it "40,000" 130; it "45,000" 140; it "-11.1" 150;
    it "10,000" 160; it "12,000" 170; it "-16.7" 180;
    it "84,300" 190; it "85,200" 200; it "-1.1" 210;
    it " France " 0 ].

(** An API that serves one month at a time: a request for one month is
    answered with five electric cars, any other request is refused. *)
Definition oneMonthApi (monthCodes : list string) : Result NO.Response :=
  match monthCodes with
  | [monthCode] =>
      Ok (NO.mkResponse ["TypeRegistrering"; "DrivstoffType"; "ContentsCode"; "Tid"]
            (Some [1; 1; 1; 1])
            (Some [("DrivstoffType", [("19", 0)]); ("Tid", [(monthCode, 0)])])
            (Some [Some 5]))
  | _ => Throw "HTTP error: 400"
  end.

(** The Norwegian run in February 2011 with that API, and a store that
    holds a file for January. *)
Definition februaryRun (store : Store) : Store :=
  NO.files (NO.fetchAllEVData oneMonthApi (Util.mkClock 2011 2) store).

Definition januaryStore : Store := {[ "data/NO/ev/2011-01.json" := JNull ]}.

(** A scraper that finds two articles, November and December 2025, and
    passes over those of the months that have a file. *)
Definition twoArticles (have : string -> bool) : list CN.Item :=
  List.filter (fun it => negb (have (Util.monthCode (CN.year it) (CN.month it))))
    [ CN.mkItem 2025 12 (Some 1710000) (Some 1100000) (Some 610000) (Some 3270000);
      CN.mkItem 2025 11 (Some 1820000) None None None ].

(** The registry in February 2019: January fails, February has one diesel
    car. *)
Definition rdwFebruary (monthCode : string) : Result (list NL.Batch) :=
  if String.eqb monthCode "2019-02" then Ok [Some [Some "Diesel"]]
  else Throw "HTTP error: 500".

Definition nlOnly : list (string * CollectAll.Zone) :=
  [("NL", CollectAll.mkZone (Some [("ev", CollectAll.mkParser "NL" "fetchAllEVData")]))].

Definition nlModules (script function : string) : option CollectAll.Parser :=
  if String.eqb script "NL" && String.eqb function "fetchAllEVData"
  then Some (nlParser rdwFebruary (Util.mkClock 2019 2)) else None.

(** Sweden first, the Netherlands second; the download of the Swedish
    archive fails. *)
Definition seThenNl : list (string * CollectAll.Zone) :=
  [("SE", CollectAll.mkZone (Some [("ev", CollectAll.mkParser "SE" "fetchAllEVData")]));
   ("NL", CollectAll.mkZone (Some [("ev", CollectAll.mkParser "NL" "fetchAllEVData")]))].

Definition seNlModules (script function : string) : option CollectAll.Parser :=
  if String.eqb function "fetchAllEVData" then
    if String.eqb script "SE" then Some (seParser (fun _ => Throw "HTTP error: 503"))
    else if String.eqb script "NL" then Some (nlParser rdwFebruary (Util.mkClock 2019 2))
    else None
  else None.

(** ** Further predicates and sample inputs *)

(** A server that answers every request with a redirection to the same
    place. *)
Definition alwaysMoved (url : string) : Result Util.IncomingMessage :=
  Ok (Util.mkMessage 302 (Some "https://example.org/moved") "").

(** A month of the Dutch loop gives nothing to save: the fetch fails or
    counts no fuel. *)
Definition nlFails (rdw : string -> Result (list NL.Batch)) (m : Util.MonthInfo) : bool :=
  match NL.fetchMonthData rdw (Util.code m) with
  | Ok fuelData => match Obj.keys fuelData with [] => true | _ => false end
  | Throw _ => true
  end.

(** A site where the PDF of January 2024 alone is found, with the row of
    the sample page. *)
Definition januaryOnly (url : string) : option unit :=
  if String.eqb url (ACEA.baseUrl ++ "Press_release_car_registrations_January_2024.pdf")
  then Some tt else None.

(** [saveMonthlyData] would save the data of a month: its code is a month
    code and some total is above zero.  It does not depend on the files. *)
Definition noSaves (monthCode : string) (fuelData : list (string * Z)) : bool :=
  fst (NO.saveMonthlyData monthCode fuelData ∅).

(** The batches of the Norwegian loop. *)
Definition noBatches {A} (missingMonths : list A) : list (list A) :=
  map (fun i => NO.slice i NO.batchSize missingMonths)
      (NO.batchStarts (length missingMonths)).

(** The codes the French and the Swedish table give to a column, and the
    codes the other parsers write. *)
Definition fiveCodes : list string := ["DIESEL"; "GASOLINE"; "HYBRID"; "PHEV"; "BEV"].
Definition chineseSheetCodes : list string :=
  ["BEV"; "PHEV"; "FCEV"; "HYBRID"; "GASOLINE"; "DIESEL"].
Definition germanCodes : list string := ["BEV"; "DIESEL"; "PHEV"; "HYBRID"; "GASOLINE"].
Definition dutchCodes : list string := ["BEV"; "GASOLINE"; "DIESEL"; "LPG_CNG_OTHER"; "OTHER"].
Definition norwegianCodes : list string := ["BEV"; "FOSSIL"; "HYBRID"; "OTHER"; "UNKNOWN"].

(** An object from code to total: codes of [codes], totals above zero. *)
Definition Counts (codes : list string) (o : list (string * Z)) : Prop :=
  Forall (fun e => In (fst e) codes /\ 0 < snd e) o.

(** The [data] of a record file read as (code, total) pairs. *)
Definition entriesOf (entries : list (string * Z)) : list (option json * option json) :=
  map (fun e => (Some (JStr (fst e)), Some (JNum (snd e)))) entries.

(** A record file that is filled: it has an entry, and each entry a code of
    [codes] and a total above zero. *)
Definition Filled (codes : list string) (j : json) : Prop :=
  exists entries,
    Json.totals j = entriesOf entries /\ entries <> [] /\ Counts codes entries.

(** A filled record with one entry for a code at most. *)
Definition Sound (codes : list string) (j : json) : Prop :=
  exists entries,
    Json.totals j = entriesOf entries /\ entries <> [] /\ Counts codes entries
    /\ NoDup (map fst entries).

Definition AllRecords (P : json -> Prop) (store : Store) : Prop :=
  forall p j, store !! p = Some j -> P j.

(** [x > 0 ? x : undefined] on a figure that may be missing. *)
Definition positive (v : option Z) : option Z :=
  match v with
  | Some x => if 0 <? x then Some x else None
  | None => None
  end.

(** The gasoline figure of the German parser: the total less the diesel
    cars, the hybrids and the electric cars, the hybrids being, without a
    column of all hybrids, the sum of the electric, diesel, plug-in and
    hybrid figures. *)
Definition germanRemainder (t : DE.KbaTotals) : Z :=
  let bev := default 0 (positive (DE.kBEV t)) in
  let diesel := default 0 (positive (DE.kDIESEL t)) in
  let phev := default 0 (positive (DE.kPHEV t)) in
  let hybrid := default 0 (positive (DE.kHYBRID t)) in
  match DE.kALL_HYBRIDS t with
  | Some allHybrids => default 0 (DE.kTOTAL t) - diesel - allHybrids - bev
  | None => default 0 (DE.kTOTAL t) - 2 * bev - 2 * diesel - phev - hybrid
  end.

(** The months the Swedish parser has gathered hold the five codes of a
    column, each once. *)
Definition MonthsSound (monthlyData : list (string * SE.MonthData)) : Prop :=
  Forall (fun km => KeysIn fiveCodes (SE.byFuel (snd km))
                    /\ NoDup (map fst (SE.byFuel (snd km)))) monthlyData.

(** The records of the answers that are arrays, in the order the Dutch
    loop reads them. *)
Definition nlRecords (results : list NL.Batch) : list (option string) :=
  flat_map (fun fuelData => default [] fuelData) results.

(** How many of the records are given the code [c]. *)
Definition nlCount (c : string) (records : list (option string)) : Z :=
  Z.of_nat (length (List.filter (fun rec => String.eqb (NL.mapFuelType rec) c) records)).

(** What the columns of a row that carry the code [c] add up to, a cell
    that is no number above zero counting for nothing. *)
Definition columnSum (row : list Cell) (colMapping : list (nat * string)) (c : string) : Z :=
  fold_right Z.add 0
    (map (fun jc => Z.max 0 (Sheet.intOrZero (Sheet.cellAt row (fst jc))))
         (List.filter (fun jc => String.eqb (snd jc) c) colMapping)).

(** The year and the month at a place of the line of months. *)
Definition monthOfOrdinal (o : Z) : Z * Z := (o / 12, o mod 12 + 1).

(** The page of the French statistics for the month [k] months before the
    clock's. *)
Definition pageBack (now : Util.Clock) (k : nat) : string :=
  let o := 12 * Util.currentYear now + (Util.currentMonth now - 1) - Z.of_nat k in
  FR.pageUrl (fst (monthOfOrdinal o)) (snd (monthOfOrdinal o)).

(** The name of the file of the month [k] months before the clock's. *)
Definition codeBack (now : Util.Clock) (k : Z) : string :=
  let o := 12 * Util.currentYear now + (Util.currentMonth now - 1) - k in
  Util.monthCode (fst (monthOfOrdinal o)) (snd (monthOfOrdinal o)).

(** A site that has the page of November 2023 and no other. *)
Definition november2023 (url : string) : option unit :=
  if String.eqb url (FR.pageUrl 2023 11) then Some tt else None.

(** [rowMap.get(y)], nothing when the key is absent. *)
Definition rowAt (y : Z) (rowMap : list (Z * list ACEA.RowItem)) : list ACEA.RowItem :=
  match List.find (fun r => fst r =? y) rowMap with
  | Some r => snd r
  | None => []
  end.

(** The items of a page at the height [y], blank ones left out, in the
    order of the page. *)
Definition itemsAt (y : Z) (page : ACEA.Page) : list ACEA.RowItem :=
  omap (fun item =>
    match Js.trim (ACEA.str item) with
    | EmptyString => None
    | text => if ACEA.round (ACEA.ty item) =? y
              then Some (ACEA.mkRowItem text (ACEA.tx item)) else None
    end) page.

(** A (zone, category) pair the configuration gives a parser whose script
    exists. *)
Definition Configured (scriptExists : string -> bool)
    (zones : list (string * CollectAll.Zone)) (pair : string * string) : Prop :=
  exists zone ps info,
    In (fst pair, zone) zones /\ CollectAll.parsers zone = Some ps
    /\ In (snd pair, info) ps /\ scriptExists (CollectAll.script info) = true.

(** The zone a run is asked for, if any. *)
Definition InTarget (targetZone : option string) (zoneCode : string) : Prop :=
  match targetZone with
  | Some (String c t) => zoneCode = String c t
  | _ => True
  end.

(** The key of the month a record of the Swedish file counts for: the
    records of the whole country with a well-formed month. *)
Definition seKey (row : SE.CsvRow) : option string :=
  if Js.includes (SE.region row) "00 Sweden" then
    match SE.matchMonth (SE.month row) with
    | Some (y, m) =>
        Some (Js.showZ (default 0 (Js.parseInt y)) ++ "-"
              ++ Js.pad2 (default 0 (Js.parseInt m)))
    | None => None
    end
  else None.

(** What a record adds to the total of a month and a code. *)
Definition seAdds (key code : string) (row : SE.CsvRow) : bool :=
  bool_decide (seKey row = Some key)
  && String.eqb (SE.normalizeSwedishFuel (Some (SE.fuel row))) code.

(** The numbers of the records of a month and a code, added up. *)
Definition seCount (key code : string) (records : list SE.CsvRow) : Z :=
  fold_right Z.add 0
    (map (fun row => default 0 (Js.parseInt (SE.number row)))
         (List.filter (seAdds key code) records)).

(** [monthlyData[key].byFuel[code] || 0] *)
Definition seCell (key code : string) (monthlyData : list (string * SE.MonthData)) : Z :=
  default 0 (Obj.get key monthlyData ≫= fun md => Obj.get code (SE.byFuel md)).

(** The records of the items of a loop that go to the file [p], in the
    order of the loop. *)
Definition recordsFor {X} (rec : X -> option (string * json)) (p : string) (xs : list X)
    : list json :=
  omap (fun x =>
    match rec x with
    | Some (outPath, content) => if String.eqb outPath p then Some content else None
    | None => None
    end) xs.

(** The path and the record of a scraped month. *)
Definition cnItemFile (it : CN.Item) : option (string * json) :=
  match CN.itemRecord it with
  | Some content => Some (CN.pathOfItem it, content)
  | None => None
  end.

(** A French sheet with two rows for May 2023. *)
Definition twiceMaySheet : list (list Cell) :=
  [ [CStr "Period"; CStr "Diesel"; CStr "Essence"];
    [CStr "2023_05"; CStr "100"; CStr "50"];
    [CStr "2023_05"; CStr "7"; CStr "8"] ].

(** * Theorems *)

(** * The months of a range *)

Section Months.

Import Util.

Lemma range_nil lo hi : hi < lo -> range lo hi = [].
Proof.
  intros H. unfold range.
  replace (Z.to_nat (hi - lo + 1)) with O by lia. reflexivity.
Qed.

Lemma range_cons lo hi : lo <= hi -> range lo hi = lo :: range (lo + 1) hi.
Proof.
  intros H. unfold range.
  replace (Z.to_nat (hi - lo + 1)) with (S (Z.to_nat (hi - (lo + 1) + 1))) by lia.
  cbn [seq map]. f_equal; [lia |].
  rewrite <- seq_shift, map_map. apply map_ext. intros k. lia.
Qed.

Lemma map_seq_from {A} (f : nat -> A) (n s : nat) :
  map f (seq s n) = map (fun k => f (s + k)%nat) (seq 0 n).
Proof.
  rewrite <- (Nat.add_0_r s) at 1. generalize 0%nat as i.
  induction n as [|n IH]; intros i; [reflexivity |].
  cbn [seq map]. f_equal. rewrite <- IH. f_equal. f_equal. lia.
Qed.

Lemma range_app a b c :
  a <= b + 1 -> b <= c -> (range a b ++ range (b + 1) c)%list = range a c.
Proof.
  intros Hab Hbc. unfold range.
  replace (Z.to_nat (c - a + 1))
    with (Z.to_nat (b - a + 1) + Z.to_nat (c - (b + 1) + 1))%nat by lia.
  rewrite seq_app, map_app. apply (f_equal (app _)).
  rewrite (map_seq_from _ _ (0 + _)). apply map_ext. intros k. lia.
Qed.

Lemma range_length lo hi : length (range lo hi) = Z.to_nat (hi - lo + 1).
Proof. unfold range. now rewrite length_map, length_seq. Qed.

Lemma range_bounds lo hi k : In k (range lo hi) -> lo <= k <= hi.
Proof.
  unfold range. rewrite in_map_iff. intros (i & <- & Hi). apply in_seq in Hi. lia.
Qed.

Lemma In_range lo hi k : lo <= k <= hi -> In k (range lo hi).
Proof.
  intros H. unfold range. apply in_map_iff. exists (Z.to_nat (k - lo)).
  split; [lia |]. apply in_seq. lia.
Qed.

Lemma ordinal_monthsOfYear now y :
  map ordinal (monthsOfYear now y)
  = range (12 * y) (12 * y + (if y =? currentYear now then currentMonth now else 12) - 1).
Proof.
  unfold monthsOfYear. rewrite map_map. cbn [ordinal year month].
  generalize (if y =? currentYear now then currentMonth now else 12) as e. intros e.
  unfold range. rewrite map_map.
  replace (12 * y + e - 1 - 12 * y + 1) with (e - 1 + 1) by lia.
  apply map_ext. intros k. unfold ordinal. cbn [year month]. lia.
Qed.

Lemma ordinal_years now (n : nat) : forall sy,
  1 <= currentMonth now <= 12 ->
  Z.to_nat (currentYear now - sy + 1) = n ->
  map ordinal (concat (map (monthsOfYear now) (range sy (currentYear now))))
  = range (12 * sy) (12 * currentYear now + currentMonth now - 1).
Proof.
  induction n as [|n IH]; intros sy Hm Hn.
  - rewrite (range_nil sy) by lia. rewrite range_nil by lia. reflexivity.
  - rewrite (range_cons sy) by lia. cbn [map concat]. rewrite map_app.
    rewrite ordinal_monthsOfYear, IH by lia.
    destruct (Z.eqb_spec sy (currentYear now)) as [->|Hne].
    + rewrite (range_nil (12 * (currentYear now + 1))) by lia. apply app_nil_r.
    + replace (12 * (sy + 1)) with (12 * sy + 12 - 1 + 1) by lia.
      apply range_app; lia.
Qed.

Lemma months_wellformed now sy :
  1 <= currentMonth now <= 12 ->
  Forall (fun m => 1 <= month m <= 12 /\ code m = monthCode (year m) (month m))
         (getMonthsSinceStart sy now).
Proof.
  intros Hm. unfold getMonthsSinceStart. apply Forall_concat, Forall_map.
  apply Forall_forall. intros y _. unfold monthsOfYear. apply Forall_map.
  apply Forall_forall. intros m Hin. cbn.
  apply list_elem_of_In, range_bounds in Hin.
  split; [| reflexivity]. destruct (y =? currentYear now); lia.
Qed.

Lemma months_years now sy :
  Forall (fun m => sy <= year m <= currentYear now) (getMonthsSinceStart sy now).
Proof.
  unfold getMonthsSinceStart. apply Forall_concat, Forall_map.
  apply Forall_forall. intros y Hy. apply list_elem_of_In, range_bounds in Hy.
  unfold monthsOfYear. apply Forall_map.
  apply Forall_forall. intros m _. exact Hy.
Qed.

End Months.

(** C9.  With the wall clock at a month of the year, [getMonthsSinceStart]
    returns the months from January of the start year to the current month,
    both included, in order and without a gap: on the line of months their
    places are the integers from [12 * startYear] to the place of the
    current month; each month is in 1..12 and carries the key
    [YYYY-MM] of its year and month; the list is empty when the start year
    is after the current year. *)
Theorem getMonthsSinceStart_complete (startYear : Z) (now : Util.Clock) :
  1 <= Util.currentMonth now <= 12 ->
  let months := Util.getMonthsSinceStart startYear now in
  map ordinal months
    = Util.range (12 * startYear) (12 * Util.currentYear now + Util.currentMonth now - 1)
  /\ Forall (fun m => 1 <= Util.month m <= 12
                      /\ Util.code m = Util.monthCode (Util.year m) (Util.month m)) months
  /\ (Util.currentYear now < startYear -> months = []).
Proof.
  intros Hm months. split; [| split].
  - apply (ordinal_years now _ startYear Hm eq_refl).
  - apply months_wellformed, Hm.
  - intros Hlt. unfold months, Util.getMonthsSinceStart.
    now rewrite range_nil by lia.
Qed.

(** Year 2020 on, the clock at March 2021: the fifteen keys 2020-01 to
    2021-03. *)
Lemma getMonthsSinceStart_2020_in_2021_03 :
  map Util.code (Util.getMonthsSinceStart 2020 (Util.mkClock 2021 3))
  = ["2020-01"; "2020-02"; "2020-03"; "2020-04"; "2020-05"; "2020-06"; "2020-07"; "2020-08";
     "2020-09"; "2020-10"; "2020-11"; "2020-12"; "2021-01"; "2021-02"; "2021-03"]
  /\ map ordinal (Util.getMonthsSinceStart 2020 (Util.mkClock 2021 3))
     = Util.range (12 * 2020) (12 * 2021 + 3 - 1)
  /\ Util.getMonthsSinceStart 2022 (Util.mkClock 2021 3) = [].
Proof.
  split; [reflexivity |]. split.
  - apply (getMonthsSinceStart_complete 2020 (Util.mkClock 2021 3)). cbn. lia.
  - apply (getMonthsSinceStart_complete 2022 (Util.mkClock 2021 3)); cbn; lia.
Defined.

(** * Strings *)

Lemma startsWith_refl s : Js.startsWith s s = true.
Proof. induction s as [|c s IH]; cbn; [reflexivity |]. now rewrite Ascii.eqb_refl. Qed.

Lemma includes_refl s : Js.includes s s = true.
Proof. destruct s; cbn; [reflexivity |]. now rewrite Ascii.eqb_refl, startsWith_refl. Qed.

Lemma startsWith_length s p :
  Js.startsWith s p = true -> (String.length p <= String.length s)%nat.
Proof.
  revert s. induction p as [|a p IH]; intros s H; cbn; [lia |].
  destruct s as [|b s]; cbn in H; [discriminate |].
  destruct (Ascii.eqb a b); [| discriminate]. apply IH in H. cbn. lia.
Qed.

Lemma startsWith_same_length s p :
  Js.startsWith s p = true -> String.length p = String.length s -> p = s.
Proof.
  revert s. induction p as [|a p IH]; intros s H Hl.
  - destruct s; [reflexivity | discriminate].
  - destruct s as [|b s]; cbn in H; [discriminate |].
    destruct (Ascii.eqb_spec a b) as [->|]; [| discriminate].
    f_equal. apply IH; [assumption | cbn in Hl; lia].
Qed.

Lemma includes_length s p :
  Js.includes s p = true -> (String.length p <= String.length s)%nat.
Proof.
  induction s as [|b s IH]; intros H.
  - cbn [Js.includes] in H. rewrite orb_false_r in H. now apply startsWith_length in H.
  - cbn [Js.includes] in H. apply orb_true_iff in H as [H|H].
    + now apply startsWith_length.
    + apply IH in H. cbn. lia.
Qed.

Lemma includes_same_length s p :
  Js.includes s p = true -> String.length p = String.length s -> p = s.
Proof.
  destruct s as [|b s]; intros H Hl.
  - cbn [Js.includes] in H. rewrite orb_false_r in H. now apply startsWith_same_length.
  - cbn [Js.includes] in H. apply orb_true_iff in H as [H|H].
    + now apply startsWith_same_length.
    + apply includes_length in H. cbn in Hl. lia.
Qed.

(** A label that contains an alias without being it is longer. *)
Lemma includes_shorter s p :
  Js.includes s p = true -> String.eqb s p = false ->
  (String.length p < String.length s)%nat.
Proof.
  intros H Hne. pose proof (includes_length _ _ H) as Hle.
  destruct (Nat.eq_dec (String.length p) (String.length s)) as [E|]; [| lia].
  apply (includes_same_length _ _ H) in E. subst.
  now rewrite String.eqb_refl in Hne.
Qed.

Lemma append_assoc (a b c : string) : (a ++ b) ++ c = a ++ b ++ c.
Proof.
  induction a as [|x a IH]; [reflexivity |].
  change (String x ((a ++ b) ++ c) = String x (a ++ b ++ c)). now rewrite IH.
Qed.

(** Digits hold no separator. *)
Lemma split_digits sep s :
  Js.isDigit sep = false -> Obj.allDigits s = true -> Js.split sep s = [s].
Proof.
  intros Hsep. induction s as [|c s IH]; intros H; [reflexivity |].
  cbn [Obj.allDigits] in H. apply andb_true_iff in H as [Hc Hs]. cbn [Js.split].
  destruct (Ascii.eqb_spec c sep) as [->|_]; [congruence |]. now rewrite IH.
Qed.

Lemma split_two sep a b :
  Js.isDigit sep = false -> Obj.allDigits a = true -> Obj.allDigits b = true ->
  Js.split sep (a ++ String sep b) = [a; b].
Proof.
  intros Hsep Ha Hb. induction a as [|c a IH].
  - change ("" ++ String sep b) with (String sep b). cbn [Js.split].
    rewrite Ascii.eqb_refl. now rewrite split_digits.
  - cbn [Obj.allDigits] in Ha. apply andb_true_iff in Ha as [Hc Ha].
    change (String c a ++ String sep b) with (String c (a ++ String sep b)). cbn [Js.split].
    destruct (Ascii.eqb_spec c sep) as [->|_]; [congruence |]. now rewrite IH.
Qed.

(** * The French normalizer *)

Section French.

Variable clean : string.

Let hit (p : string * string) : Prop := Js.includes clean (FR.cleanAlias (snd p)) = true.
Let len (p : string * string) : nat := String.length (FR.cleanAlias (snd p)).

(** Once the best alias is shorter than the label, later aliases that are
    no longer than it change nothing. *)
Lemma scan_keeps pairs : forall code L,
  code <> "" -> (L < String.length clean)%nat ->
  Forall (fun p => hit p -> (len p <= L)%nat) pairs ->
  FR.scanAliases clean pairs (Some code) L = code.
Proof.
  induction pairs as [|[c a] r IH]; intros code L Hc HL Hall.
  - cbn. destruct code; [congruence | reflexivity].
  - apply Forall_cons in Hall as [Hp Hr]. cbn [FR.scanAliases].
    destruct (String.eqb_spec clean (FR.cleanAlias a)) as [E|_].
    + exfalso. assert (hit (c, a)) as Hh by (unfold hit; cbn [snd]; rewrite <- E; apply includes_refl).
      apply Hp in Hh. unfold len in Hh. cbn [snd] in Hh. rewrite <- E in Hh. lia.
    + destruct (Js.includes clean (FR.cleanAlias a)) eqn:Hi; cbn [andb].
      * specialize (Hp Hi). unfold len in Hp. cbn [snd] in Hp.
        destruct (Nat.ltb_spec L (String.length (FR.cleanAlias a))); [lia |].
        now apply IH.
      * now apply IH.
Qed.

Lemma scan_longest pairs : forall best bestLen code,
  code <> "" ->
  (exists before alias after,
     pairs = (before ++ (code, alias) :: after)%list
     /\ hit (code, alias) /\ (bestLen < len (code, alias))%nat
     /\ Forall (fun p => hit p -> (len p < len (code, alias))%nat) before
     /\ Forall (fun p => hit p -> (len p <= len (code, alias))%nat) after) ->
  FR.scanAliases clean pairs best bestLen = code.
Proof.
  induction pairs as [|[c a] r IH]; intros best bestLen code Hc
    (before & alias & after & Heq & Hhit & Hlen & Hb & Ha).
  - destruct before; discriminate.
  - destruct before as [|p before]; cbn in Heq; inversion Heq; subst; clear Heq.
    + cbn [FR.scanAliases].
      destruct (String.eqb clean (FR.cleanAlias alias)) eqn:E; [reflexivity |].
      unfold hit in Hhit. cbn [snd] in Hhit. rewrite Hhit. cbn [andb].
      unfold len in Hlen. cbn [snd] in Hlen.
      destruct (Nat.ltb_spec bestLen (String.length (FR.cleanAlias alias))); [| lia].
      apply scan_keeps; [assumption | now apply includes_shorter | assumption].
    + apply Forall_cons in Hb as [Hp Hb]. cbn [FR.scanAliases].
      assert (exists before0 alias0 after0,
        (before ++ (code, alias) :: after)%list = (before0 ++ (code, alias0) :: after0)%list
        /\ hit (code, alias0)
        /\ Forall (fun p => hit p -> (len p < len (code, alias0))%nat) before0
        /\ Forall (fun p => hit p -> (len p <= len (code, alias0))%nat) after0
        /\ len (code, alias0) = len (code, alias)) as (b0 & a0 & f0 & E0 & H1 & H2 & H3 & H4)
        by (exists before, alias, after; auto).
      destruct (String.eqb_spec clean (FR.cleanAlias a)) as [E|_].
      * exfalso.
        assert (hit (c, a)) as Hh by (unfold hit; cbn [snd]; rewrite <- E; apply includes_refl).
        apply Hp in Hh. apply includes_length in Hhit.
        unfold len in Hh. unfold hit in Hhit. cbn [snd] in Hh, Hhit. rewrite <- E in Hh. lia.
      * destruct (Js.includes clean (FR.cleanAlias a)) eqn:Hi; cbn [andb].
        -- specialize (Hp Hi).
           destruct (Nat.ltb_spec bestLen (String.length (FR.cleanAlias a))).
           ++ apply IH; [assumption |]. exists b0, a0, f0.
              repeat split; try assumption. rewrite H4. exact Hp.
           ++ apply IH; [assumption |]. exists b0, a0, f0.
              repeat split; try assumption. rewrite H4. exact Hlen.
        -- apply IH; [assumption |]. exists b0, a0, f0.
           repeat split; try assumption. rewrite H4. exact Hlen.
Qed.

(** No alias in the label: [best] stays as it is. *)
Lemma scan_no_hit pairs : forall best bestLen,
  Forall (fun p => Js.includes clean (FR.cleanAlias (snd p)) = false) pairs ->
  FR.scanAliases clean pairs best bestLen = strOr best "OTHER".
Proof.
  induction pairs as [|[c a] r IH]; intros best bestLen Hall; [reflexivity |].
  apply Forall_cons in Hall as [Hp Hr]. cbn [snd] in Hp. cbn [FR.scanAliases].
  destruct (String.eqb_spec clean (FR.cleanAlias a)) as [E|_].
  - rewrite <- E, includes_refl in Hp. discriminate.
  - rewrite Hp. cbn [andb]. now apply IH.
Qed.

End French.

(** C1, as amended.  The French normalizer, whatever its alias table: for
    a label that is not empty, when [code] is the code of the longest alias
    the cleaned label contains, the first registered among the longest,
    [normalizeFrenchFuel] returns [code]. *)
Theorem french_longest_alias_wins (table : AliasTable) (label code : string) :
  label <> "" -> code <> "" ->
  Spec.LongestMatch FR.cleanAlias (FR.cleanLabel label) (aliasPairs table) code ->
  FR.normalizeWith table (Some label) = code.
Proof.
  intros Hl Hc (before & alias & after & Heq & Hhit & Hlen & Hb & Ha).
  destruct label as [|c r]; [congruence |]. cbn [FR.normalizeWith].
  apply scan_longest; [assumption |].
  exists before, alias, after. repeat split; assumption.
Qed.

Ltac check_aliases :=
  repeat (apply List.Forall_cons;
          [ let H := fresh in intros H; vm_compute in H; try discriminate H; vm_compute; lia | ]);
  apply List.Forall_nil.

(** With the aliases "hybride" for HYBRID and "hybride rechargeable" for
    PHEV, "Hybride Rechargeable" is PHEV. *)
Lemma hybride_rechargeable_is_PHEV :
  FR.normalizeWith hybrideTable (Some "Hybride Rechargeable") = "PHEV".
Proof.
  apply french_longest_alias_wins; [discriminate | discriminate |].
  exists [("HYBRID", "hybride")], "hybride rechargeable", [].
  split; [reflexivity |]. split; [reflexivity |]. split; [vm_compute; lia |].
  split; [| constructor].
  constructor; [intros _; vm_compute; lia | constructor].
Defined.

(** C1 as stated fails outside France.  The Chinese normalizer returns the
    first registered alias the label contains: "BEV+PHEV" is BEV although
    "PHEV" is the longest alias in it.  The Swedish normalizer compares whole
    labels: a label that contains "electric hybrid" and "plug-in hybrid" is
    OTHER. *)
Lemma longest_alias_rule_fails_elsewhere :
  (Spec.LongestMatch (fun a => a) (Js.trim "BEV+PHEV") (aliasPairs CN.CHINESE_FUEL_MAP) "PHEV"
   /\ CN.normalizeChineseFuel (Some "BEV+PHEV") = "BEV")
  /\ (Spec.LongestMatch Js.toLowerCase (Js.toLowerCase (Js.trim "Electric hybrid/Plug-in hybrid"))
        (aliasPairs SE.SWEDISH_FUEL_MAP) "HYBRID"
      /\ SE.normalizeSwedishFuel (Some "Electric hybrid/Plug-in hybrid") = "OTHER").
Proof.
  split; split; try reflexivity.
  - exists [("BEV", "纯电动"); ("BEV", "纯电动汽车"); ("BEV", "BEV");
            ("PHEV", "插电式混合动力"); ("PHEV", "插电式混合动力汽车")], "PHEV",
           [("FCEV", "燃料电池"); ("FCEV", "燃料电池汽车"); ("FCEV", "FCEV");
            ("HYBRID", "混合动力"); ("HYBRID", "HEV"); ("GASOLINE", "汽油");
            ("GASOLINE", "汽油车"); ("DIESEL", "柴油"); ("DIESEL", "柴油车")].
    split; [reflexivity |]. split; [reflexivity |]. split; [vm_compute; lia |].
    split; check_aliases.
  - exists [("DIESEL", "diesel"); ("GASOLINE", "petrol")], "electric hybrid",
           [("PHEV", "plug-in hybrid"); ("BEV", "electricity"); ("OTHER", "gas/gas flex");
            ("OTHER", "ethanol/ethanol flexifuel"); ("OTHER", "other fuels")].
    split; [reflexivity |]. split; [reflexivity |]. split; [vm_compute; lia |].
    split; check_aliases.
Qed.

(** * The other normalizers *)

Lemma firstEqual_none clean pairs :
  Forall (fun p => String.eqb clean (Js.toLowerCase (snd p)) = false) pairs ->
  SE.firstEqual clean pairs = "OTHER".
Proof.
  induction 1 as [|[c a] r Hp _ IH]; [reflexivity |].
  cbn [snd] in Hp. cbn [SE.firstEqual]. now rewrite Hp.
Qed.

Lemma firstContained_none clean pairs :
  Forall (fun p => Js.includes clean (snd p) = false) pairs ->
  CN.firstContained clean pairs = "OTHER".
Proof.
  induction 1 as [|[c a] r Hp _ IH]; [reflexivity |].
  cbn [snd] in Hp. cbn [CN.firstContained]. now rewrite Hp.
Qed.

Lemma firstIncluded_none normalized mapping :
  Forall (fun p => Js.includes normalized (fst p) = false) mapping ->
  firstIncluded normalized mapping = "UNKNOWN".
Proof.
  induction 1 as [|[k v] r Hp _ IH]; [reflexivity |].
  cbn [fst] in Hp. cbn [firstIncluded]. now rewrite Hp.
Qed.

Ltac check_each := repeat (apply List.Forall_cons; [vm_compute; reflexivity |]); apply List.Forall_nil.




(** The German mapping lists ["hybrid"] before ["plug-in-hybrid"]: the second
    entry is never reached. *)
Remark german_plug_in_hybrid_reads_HYBRID :
  DE.mapGermanFuelType (Some "Plug-in-Hybrid") = "HYBRID"
  /\ Obj.get "plug-in-hybrid" DE.mapping = Some "PHEV".
Proof. split; reflexivity. Qed.

(** * Writing once *)

Lemma existsSync_true (s : Store) p : Fs.existsSync s p = true <-> is_Some (s !! p).
Proof. unfold Fs.existsSync. apply bool_decide_eq_true. Qed.

Lemma existsSync_false (s : Store) p : Fs.existsSync s p = false <-> s !! p = None.
Proof.
  unfold Fs.existsSync. rewrite bool_decide_eq_false, <- eq_None_not_Some. reflexivity.
Qed.

Section WritersOnce.

Context {X : Type} (path : X -> string) (content : X -> option json).

Lemma writeIfNew_keeps x st p v : st !! p = Some v -> writeIfNew path content x st !! p = Some v.
Proof.
  intros H. unfold writeIfNew. destruct (content x) as [w|]; [| exact H].
  destruct (Fs.existsSync st (path x)) eqn:E; [exact H |].
  apply existsSync_false in E. unfold Fs.writeFileSync.
  rewrite lookup_insert_ne; [exact H | congruence].
Qed.

Lemma fold_writeIfNew_keeps xs : forall st p v,
  st !! p = Some v -> fold_left (fun s x => writeIfNew path content x s) xs st !! p = Some v.
Proof.
  induction xs as [|x xs IH]; intros st p v H; [exact H |].
  cbn [fold_left]. apply IH, writeIfNew_keeps, H.
Qed.

Lemma fold_writeIfNew_written xs : forall st x v,
  In x xs -> content x = Some v ->
  is_Some (fold_left (fun s x => writeIfNew path content x s) xs st !! path x).
Proof.
  induction xs as [|y xs IH]; intros st x v Hin Hc; [destruct Hin |].
  cbn [fold_left]. destruct Hin as [->|Hin]; [| now apply (IH _ _ v)].
  assert (is_Some (writeIfNew path content x st !! path x)) as [w Hw].
  { unfold writeIfNew. rewrite Hc.
    destruct (Fs.existsSync st (path x)) eqn:E; [now apply existsSync_true |].
    unfold Fs.writeFileSync. rewrite lookup_insert_eq. eauto. }
  rewrite (fold_writeIfNew_keeps _ _ _ _ Hw). eauto.
Qed.

Lemma fold_writeIfNew_done xs : forall st,
  (forall x v, In x xs -> content x = Some v -> is_Some (st !! path x)) ->
  fold_left (fun s x => writeIfNew path content x s) xs st = st.
Proof.
  induction xs as [|y xs IH]; intros st H; [reflexivity |].
  cbn [fold_left].
  assert (writeIfNew path content y st = st) as ->.
  { unfold writeIfNew. destruct (content y) as [v|] eqn:Hc; [| reflexivity].
    assert (Fs.existsSync st (path y) = true) as ->; [| reflexivity].
    apply existsSync_true, (H y v); [now left | exact Hc]. }
  apply IH. intros x v Hin. apply H. now right.
Qed.

Theorem writeIfNew_once xs : WriteOnce (fold_left (fun s x => writeIfNew path content x s) xs).
Proof.
  split.
  - intros st p v. apply fold_writeIfNew_keeps.
  - intros st. apply fold_writeIfNew_done. intros x v. apply fold_writeIfNew_written.
Qed.

Lemma fold_write_other xs : forall st p,
  (forall x, In x xs -> path x <> p) ->
  fold_left (fun s x => write path content x s) xs st !! p = st !! p.
Proof.
  induction xs as [|y xs IH]; intros st p H; [reflexivity |].
  cbn [fold_left]. rewrite IH by (intros x Hin; apply H; now right).
  unfold write. destruct (content y); [| reflexivity].
  unfold Fs.writeFileSync. apply lookup_insert_ne, H. now left.
Qed.

Lemma fold_write_grows xs : forall st p,
  is_Some (st !! p) -> is_Some (fold_left (fun s x => write path content x s) xs st !! p).
Proof.
  induction xs as [|y xs IH]; intros st p H; [exact H |].
  cbn [fold_left]. apply IH. unfold write. destruct (content y); [| exact H].
  unfold Fs.writeFileSync. destruct (decide (path y = p)) as [->|Hne].
  - rewrite lookup_insert_eq. eauto.
  - now rewrite lookup_insert_ne.
Qed.

Lemma fold_write_written xs : forall st x v,
  In x xs -> content x = Some v ->
  is_Some (fold_left (fun s x => write path content x s) xs st !! path x).
Proof.
  induction xs as [|y xs IH]; intros st x v Hin Hc; [destruct Hin |].
  cbn [fold_left]. destruct Hin as [->|Hin]; [| now apply (IH _ _ v)].
  apply fold_write_grows. unfold write. rewrite Hc.
  unfold Fs.writeFileSync. rewrite lookup_insert_eq. eauto.
Qed.

Lemma fold_write_nothing xs : forall st,
  (forall x, In x xs -> content x = None) ->
  fold_left (fun s x => write path content x s) xs st = st.
Proof.
  induction xs as [|y xs IH]; intros st H; [reflexivity |].
  cbn [fold_left]. unfold write at 2. rewrite (H y) by now left.
  apply IH. intros x Hin. apply H. now right.
Qed.

Theorem writeMissing_once xs : WriteOnce (writeMissing path content xs).
Proof.
  split.
  - intros st p v H. unfold writeMissing. rewrite fold_write_other; [exact H |].
    intros x Hin Heq. subst p. apply filter_In in Hin as [_ Hx].
    apply negb_true_iff, existsSync_false in Hx. congruence.
  - intros st. unfold writeMissing at 1. apply fold_write_nothing.
    intros x Hin. apply filter_In in Hin as [Hin Hx].
    apply negb_true_iff, existsSync_false in Hx.
    destruct (content x) as [v|] eqn:Hc; [exfalso | reflexivity].
    assert (is_Some (writeMissing path content xs st !! path x)) as [w Hw]; [| congruence].
    unfold writeMissing. destruct (Fs.existsSync st (path x)) eqn:E.
    + apply fold_write_grows. now apply existsSync_true.
    + apply (fold_write_written _ _ _ v); [| exact Hc].
      apply filter_In. split; [exact Hin |]. now rewrite E.
Qed.

(** A run over some of the items of an earlier run writes nothing. *)
Lemma writeMissing_again xs ys st :
  (forall y, In y ys -> In y xs) ->
  writeMissing path content ys (writeMissing path content xs st)
  = writeMissing path content xs st.
Proof.
  intros Hsub. unfold writeMissing at 1. apply fold_write_nothing.
  intros x Hin. apply filter_In in Hin as [Hin Hx].
  apply negb_true_iff, existsSync_false in Hx.
  destruct (content x) as [v|] eqn:Hc; [exfalso | reflexivity].
  assert (is_Some (writeMissing path content xs st !! path x)) as [w Hw]; [| congruence].
  unfold writeMissing. destruct (Fs.existsSync st (path x)) eqn:E.
  - apply fold_write_grows. now apply existsSync_true.
  - apply (fold_write_written _ _ _ v); [| exact Hc].
    apply filter_In. split; [now apply Hsub |]. now rewrite E.
Qed.

End WritersOnce.

Lemma fold_left_ext_in {A B} (f g : A -> B -> A) (l : list B) : forall a,
  (forall x a, In x l -> f a x = g a x) -> fold_left f l a = fold_left g l a.
Proof.
  induction l as [|x l IH]; intros a H; [reflexivity |].
  cbn [fold_left]. rewrite (H x a) by now left.
  apply IH. intros y b Hy. apply H. now right.
Qed.

Lemma code_is_monthCode sy now :
  Forall (fun m => Util.code m = Util.monthCode (Util.year m) (Util.month m))
         (Util.getMonthsSinceStart sy now).
Proof.
  unfold Util.getMonthsSinceStart. apply Forall_concat, Forall_map.
  apply Forall_forall. intros y _. unfold Util.monthsOfYear. apply Forall_map.
  apply Forall_forall. intros m _. reflexivity.
Qed.

Section AceaOnce.

Context (Buffer : Type) (fetchFile : string -> option Buffer)
        (getDocument : Buffer -> option ACEA.Pdf) (countryCode : string).

Lemma collectAceaData_writeMissing now startYear store :
  ACEA.collectAceaData Buffer fetchFile getDocument now countryCode startYear store
  = writeMissing (aceaPath countryCode) (aceaContent Buffer fetchFile getDocument countryCode) (Util.getMonthsSinceStart startYear now) store.
Proof.
  unfold ACEA.collectAceaData, writeMissing, Util.filterMissingMonths.
  apply fold_left_ext_in. intros m st Hin.
  apply filter_In in Hin as [Hin _].
  pose proof (code_is_monthCode startYear now) as Hc.
  rewrite Forall_forall in Hc. specialize (Hc m (proj2 (list_elem_of_In _ _) Hin)).
  unfold ACEA.processAceaMonth, write, aceaContent, aceaPath, Util.codeJson.
  rewrite Hc.
  destruct (ACEA.fetchAceaPdf _ _ _ _) as [buf|]; [| reflexivity].
  destruct (ACEA.parsePdfData _ _ _ _); reflexivity.
Qed.

End AceaOnce.

Section NlOnce.

Context (rdw : string -> Result (list NL.Batch)).

Lemma nl_processMonth_files m p :
  NL.files (NL.processMonth rdw m p) = write nlPath (nlContent rdw) m (NL.files p).
Proof.
  unfold NL.processMonth, write, nlContent, nlPath, Util.codeJson.
  destruct (NL.fetchMonthData rdw (Util.code m)) as [fd|]; [| reflexivity].
  destruct (Obj.keys fd); reflexivity.
Qed.

Lemma nl_fold_files ms : forall p,
  NL.files (fold_left (fun p m => NL.processMonth rdw m p) ms p)
  = fold_left (fun st m => write nlPath (nlContent rdw) m st) ms (NL.files p).
Proof.
  induction ms as [|m ms IH]; intros p; [reflexivity |].
  cbn [fold_left]. now rewrite IH, nl_processMonth_files.
Qed.

Lemma nl_fetchAll_writeMissing now store :
  NL.files (NL.fetchAllEVData rdw now store)
  = writeMissing nlPath (nlContent rdw) (Util.getMonthsSinceStart 2019 now) store.
Proof. unfold NL.fetchAllEVData. now rewrite nl_fold_files. Qed.

End NlOnce.

Section DeOnce.

Context (Buffer : Type) (fetchFile : string -> option Buffer)
        (readTotals : Buffer -> option DE.KbaTotals).

Lemma de_processMonth_files m p :
  Util.code m = Util.monthCode (Util.year m) (Util.month m) ->
  DE.files (DE.processMonth Buffer fetchFile readTotals m p)
  = write dePath (deContent Buffer fetchFile readTotals) m (DE.files p).
Proof.
  intros Hc.
  unfold DE.processMonth, write, deContent, dePath, Util.codeJson, DE.saveMonthlyData.
  rewrite Hc. unfold Util.monthCode. rewrite !append_assoc.
  destruct (DE.fetchMonthData _ _ _ _ _) as [fd|]; [| reflexivity].
  destruct (Obj.keys fd); reflexivity.
Qed.

Lemma de_fold_files ms : forall p,
  Forall (fun m => Util.code m = Util.monthCode (Util.year m) (Util.month m)) ms ->
  DE.files (fold_left (fun p m => DE.processMonth Buffer fetchFile readTotals m p) ms p)
  = fold_left (fun st m => write dePath (deContent Buffer fetchFile readTotals) m st) ms
      (DE.files p).
Proof.
  induction ms as [|m ms IH]; intros p H; [reflexivity |].
  apply Forall_cons in H as [Hm H]. cbn [fold_left]. now rewrite IH, de_processMonth_files.
Qed.

Lemma de_fetchAll_writeMissing now store :
  DE.files (DE.fetchAllEVData Buffer fetchFile readTotals now store)
  = writeMissing dePath (deContent Buffer fetchFile readTotals)
      (Util.getMonthsSinceStart 2021 now) store.
Proof.
  unfold DE.fetchAllEVData. rewrite de_fold_files; [reflexivity |].
  unfold Util.filterMissingMonths. apply Forall_forall. intros m Hm.
  apply list_elem_of_In, filter_In in Hm as [Hm _].
  pose proof (code_is_monthCode 2021 now) as Hc. rewrite Forall_forall in Hc.
  apply Hc. now apply list_elem_of_In.
Qed.

End DeOnce.

(** ** The Norwegian run *)

(** The years from 1000 to 9999 are written with four digits and read back
    as they are; the months with two. *)
Lemma years_shown : forallb yearOk (Util.range 1000 9999) = true.
Proof. vm_compute. reflexivity. Qed.

Lemma months_shown : forallb monthOk (Util.range 1 12) = true.
Proof. vm_compute. reflexivity. Qed.

Lemma matchMonth_apiCode y m :
  1000 <= y <= 9999 -> 1 <= m <= 12 ->
  NO.matchMonth (Js.showZ y ++ "M" ++ Js.pad2 m) = Some (Js.showZ y, Js.pad2 m)
  /\ Js.parseInt (Js.showZ y) = Some y /\ Js.parseInt (Js.pad2 m) = Some m.
Proof.
  intros Hy Hm.
  pose proof (proj1 (forallb_forall _ _) years_shown y (In_range _ _ _ Hy)) as Y.
  pose proof (proj1 (forallb_forall _ _) months_shown m (In_range _ _ _ Hm)) as M.
  unfold yearOk in Y. unfold monthOk in M.
  apply andb_true_iff in Y as [Y Y3]. apply andb_true_iff in Y as [Y1 Y2].
  apply andb_true_iff in M as [M M3]. apply andb_true_iff in M as [M1 M2].
  apply bool_decide_eq_true in Y3, M3.
  split; [| split; assumption]. unfold NO.matchMonth.
  change (Js.showZ y ++ "M" ++ Js.pad2 m) with (Js.showZ y ++ String "M"%char (Js.pad2 m)).
  rewrite split_two by (reflexivity || assumption).
  now rewrite Y1, Y2, M1, M2.
Qed.

(** [saveMonthlyData] writes the file [filterMissingMonths] looks for. *)
Lemma no_save_write m fuelData st :
  1000 <= Util.year m <= 9999 -> 1 <= Util.month m <= 12 ->
  snd (NO.saveMonthlyData (NO.apiCode m) fuelData st)
  = write noPath (fun m => noRecord m fuelData) m st.
Proof.
  intros Hy Hm. unfold NO.saveMonthlyData, NO.apiCode, write, noRecord, noPath, NO.fileNamer.
  destruct (matchMonth_apiCode _ _ Hy Hm) as (-> & -> & ->).
  destruct (NO.dataOf fuelData) eqn:E; reflexivity.
Qed.

Lemma no_months now :
  Util.currentYear now <= 9999 -> 1 <= Util.currentMonth now <= 12 ->
  Forall NoMonth (map NO.withApiCode (Util.getMonthsSinceStart 2011 now)).
Proof.
  intros Hy Hm. apply Forall_map.
  pose proof (months_years now 2011) as H1. pose proof (months_wellformed now 2011 Hm) as H2.
  rewrite Forall_forall in H1, H2. apply Forall_forall. intros m Hin.
  specialize (H1 m Hin). specialize (H2 m Hin). unfold NoMonth. cbn. repeat split; try lia.
Qed.

Lemma slice_Forall {A} (P : A -> Prop) i n l : Forall P l -> Forall P (NO.slice i n l).
Proof. intros H. unfold NO.slice. now apply Forall_take, Forall_drop. Qed.

Lemma fold_left_concat {A B} (f : A -> B -> A) (ls : list (list B)) : forall a,
  fold_left f (concat ls) a = fold_left (fun a l => fold_left f l a) ls a.
Proof.
  induction ls as [|l ls IH]; intros a; [reflexivity |].
  cbn [concat fold_left]. now rewrite fold_left_app, IH.
Qed.

Lemma concat_slices {A} (b : nat) (l : list A) (k : nat) :
  concat (map (fun i => NO.slice i b l) (map (fun j => (j * b)%nat) (seq 0 k)))
  = firstn (k * b) l.
Proof.
  induction k as [|k IH]; [reflexivity |].
  rewrite seq_S, !map_app, concat_app, IH. cbn [map concat plus].
  rewrite app_nil_r. unfold NO.slice. rewrite take_take_drop. f_equal. lia.
Qed.

(** The batches, one after the other, are the missing months. *)
Lemma concat_batches {A} (l : list A) :
  concat (map (fun i => NO.slice i NO.batchSize l) (NO.batchStarts (length l))) = l.
Proof.
  unfold NO.batchStarts. rewrite concat_slices. apply firstn_all2.
  unfold NO.batchSize.
  pose proof (Nat.div_mod_eq (length l + 36 - 1) 36) as E.
  pose proof (Nat.mod_upper_bound (length l + 36 - 1) 36 ltac:(lia)) as U. lia.
Qed.

Section NoOnce.

Context (fetchJson : list string -> Result NO.Response).

(** The files of [s0] are in [st] as they are in [s0]. *)
Let Keeps (s0 st : Store) : Prop := forall p v, s0 !! p = Some v -> st !! p = Some v.

Lemma no_save_keeps s0 m fuelData st :
  NoMonth m -> s0 !! noPath m = None -> Keeps s0 st ->
  Keeps s0 (snd (NO.saveMonthlyData (Util.code m) fuelData st)).
Proof.
  intros (Hy & Hm & ->) Hnew K p v Hp. rewrite no_save_write by assumption.
  unfold write. destruct (noRecord m fuelData); [| now apply K].
  unfold Fs.writeFileSync. rewrite lookup_insert_ne by congruence. now apply K.
Qed.

Lemma no_saveBatch_keeps s0 results batch : forall p,
  Forall (fun m => NoMonth m /\ s0 !! noPath m = None) batch ->
  Keeps s0 (NO.files p) ->
  Keeps s0 (NO.files (NO.saveBatch results (map Util.code batch) p)).
Proof.
  induction batch as [|m batch IH]; intros p H K; [exact K |].
  apply Forall_cons in H as [[Hm Hnew] H]. cbn [map NO.saveBatch fold_left].
  apply IH; [exact H |].
  destruct (Obj.get (Util.code m) results) as [fd|]; [| exact K].
  cbn [NO.files]. now apply no_save_keeps.
Qed.

Lemma no_fetchOneByOne_keeps s0 batch : forall p,
  Forall (fun m => NoMonth m /\ s0 !! noPath m = None) batch ->
  Keeps s0 (NO.files p) ->
  Keeps s0 (NO.files (NO.fetchOneByOne fetchJson (map Util.code batch) p)).
Proof.
  induction batch as [|m batch IH]; intros p H K; [exact K |].
  apply Forall_cons in H as [[Hm Hnew] H]. cbn [map NO.fetchOneByOne fold_left].
  apply IH; [exact H |].
  destruct (NO.fetchMonthsBatch fetchJson [Util.code m]) as [results|]; [| exact K].
  destruct (Obj.get (Util.code m) results) as [fd|]; [| exact K].
  cbn [NO.files]. now apply no_save_keeps.
Qed.

(** Whatever the API answers, the run leaves the files of the store as they
    are. *)
Lemma no_run_keeps now store p v :
  Util.currentYear now <= 9999 -> 1 <= Util.currentMonth now <= 12 ->
  store !! p = Some v ->
  NO.files (NO.fetchAllEVData fetchJson now store) !! p = Some v.
Proof.
  intros Hy Hm. revert p v. change (Keeps store (NO.files (NO.fetchAllEVData fetchJson now store))).
  unfold NO.fetchAllEVData.
  set (missing := Util.filterMissingMonths _ _ _ _).
  assert (Forall (fun m => NoMonth m /\ store !! noPath m = None) missing) as Hmiss.
  { apply Forall_forall. intros m Hin. unfold missing, Util.filterMissingMonths in Hin.
    apply list_elem_of_In, filter_In in Hin as [Hin Hx].
    apply negb_true_iff, existsSync_false in Hx. split; [| exact Hx].
    pose proof (no_months now Hy Hm) as H. rewrite Forall_forall in H.
    apply H. now apply list_elem_of_In. }
  assert (Keeps store (NO.files (NO.mkProgress store 0))) as K by (intros p v H; exact H).
  revert K. generalize (NO.mkProgress store 0) as p.
  induction (NO.batchStarts (length missing)) as [|i starts IH]; intros p K; [exact K |].
  cbn [fold_left]. apply IH. unfold NO.processBatch.
  pose proof (slice_Forall _ i NO.batchSize _ Hmiss) as Hb.
  destruct (NO.fetchMonthsBatch fetchJson _) as [results|].
  - now apply no_saveBatch_keeps.
  - now apply no_fetchOneByOne_keeps.
Qed.

Hypothesis monthWise : MonthWise fetchJson.

Lemma no_step m fuelData st :
  NoMonth m -> single fetchJson (Util.code m) = Some fuelData ->
  snd (NO.saveMonthlyData (Util.code m) fuelData st) = write noPath (noContent fetchJson) m st.
Proof.
  intros (Hy & Hm & Hc) Hs. rewrite Hc, no_save_write by assumption.
  unfold write, noContent. rewrite Hs. reflexivity.
Qed.

Lemma no_skip m st :
  single fetchJson (Util.code m) = None -> write noPath (noContent fetchJson) m st = st.
Proof. intros Hs. unfold write, noContent. now rewrite Hs. Qed.

Lemma no_saveBatch_files results batch : forall p,
  Forall NoMonth batch ->
  (forall m, In m batch -> Obj.get (Util.code m) results = single fetchJson (Util.code m)) ->
  NO.files (NO.saveBatch results (map Util.code batch) p)
  = fold_left (fun st m => write noPath (noContent fetchJson) m st) batch (NO.files p).
Proof.
  induction batch as [|m batch IH]; intros p H Hr; [reflexivity |].
  apply Forall_cons in H as [Hm H]. cbn [map NO.saveBatch fold_left].
  unfold NO.saveBatch in IH. rewrite IH; [| exact H | intros m' Hin; apply Hr; now right].
  f_equal. rewrite (Hr m) by now left.
  destruct (single fetchJson (Util.code m)) as [fd|] eqn:Hs.
  - cbn [NO.files]. now apply no_step.
  - now rewrite no_skip.
Qed.

Lemma no_fetchOneByOne_files batch : forall p,
  Forall NoMonth batch ->
  NO.files (NO.fetchOneByOne fetchJson (map Util.code batch) p)
  = fold_left (fun st m => write noPath (noContent fetchJson) m st) batch (NO.files p).
Proof.
  induction batch as [|m batch IH]; intros p H; [reflexivity |].
  apply Forall_cons in H as [Hm H]. cbn [map NO.fetchOneByOne fold_left].
  unfold NO.fetchOneByOne in IH. rewrite IH by exact H. f_equal.
  destruct (single fetchJson (Util.code m)) as [fd|] eqn:Hs.
  - rewrite <- (no_step m fd) by assumption. unfold single in Hs.
    destruct (NO.fetchMonthsBatch fetchJson [Util.code m]) as [results|]; [| discriminate].
    now rewrite Hs.
  - rewrite no_skip by exact Hs. unfold single in Hs.
    destruct (NO.fetchMonthsBatch fetchJson [Util.code m]) as [results|]; [| reflexivity].
    now rewrite Hs.
Qed.

Lemma no_processBatch_files batch p :
  Forall NoMonth batch ->
  NO.files (NO.processBatch fetchJson batch p)
  = fold_left (fun st m => write noPath (noContent fetchJson) m st) batch (NO.files p).
Proof.
  intros H. unfold NO.processBatch.
  destruct (NO.fetchMonthsBatch fetchJson (map Util.code batch)) as [results|] eqn:E.
  - apply no_saveBatch_files; [exact H |]. intros m Hin.
    apply (monthWise _ _ _ E). now apply in_map.
  - now apply no_fetchOneByOne_files.
Qed.

Lemma no_fetchAll_writeMissing now store :
  Util.currentYear now <= 9999 -> 1 <= Util.currentMonth now <= 12 ->
  NO.files (NO.fetchAllEVData fetchJson now store)
  = writeMissing noPath (noContent fetchJson)
      (map NO.withApiCode (Util.getMonthsSinceStart 2011 now)) store.
Proof.
  intros Hy Hm. unfold NO.fetchAllEVData, writeMissing.
  change (List.filter _ (map NO.withApiCode (Util.getMonthsSinceStart 2011 now)))
    with (Util.filterMissingMonths (map NO.withApiCode (Util.getMonthsSinceStart 2011 now))
            NO.outDir NO.fileNamer store).
  set (missing := Util.filterMissingMonths _ _ _ _).
  assert (Forall NoMonth missing) as Hmiss.
  { apply Forall_forall. intros m Hin. unfold missing, Util.filterMissingMonths in Hin.
    apply list_elem_of_In, filter_In in Hin as [Hin _].
    pose proof (no_months now Hy Hm) as H. rewrite Forall_forall in H.
    apply H. now apply list_elem_of_In. }
  rewrite <- (concat_batches missing) at 2. rewrite fold_left_concat.
  change store with (NO.files (NO.mkProgress store 0)) at 2.
  generalize (NO.mkProgress store 0) as p.
  induction (NO.batchStarts (length missing)) as [|i starts IH]; intros p; [reflexivity |].
  cbn [map fold_left]. rewrite IH. f_equal.
  apply no_processBatch_files. now apply slice_Forall.
Qed.

End NoOnce.

(** ** The Chinese run *)

Lemma cn_saveItems_writeMissing monthlyData store :
  CN.saveItems monthlyData store = writeMissing CN.pathOfItem CN.itemRecord monthlyData store.
Proof.
  unfold CN.saveItems, writeMissing. apply fold_left_ext_in.
  intros it st _. unfold write. destruct (CN.itemRecord it); reflexivity.
Qed.

Lemma cn_run_keeps scrape now store p v :
  store !! p = Some v -> CN.fetchAllEVData scrape now store !! p = Some v.
Proof.
  intros H. unfold CN.fetchAllEVData. destruct (forallb _ _); [exact H |].
  rewrite cn_saveItems_writeMissing. now apply writeMissing_once.
Qed.

(** The second run finds the three recent months in place, or scrapes some
    of the months the first run scraped. *)
Lemma cn_run_once scrape now :
  SkipsOnly scrape -> WriteOnce (CN.fetchAllEVData scrape now).
Proof.
  intros Hskip. split; [intros store p v; apply cn_run_keeps |].
  intros store. unfold CN.fetchAllEVData.
  destruct (forallb (CN.existing store) (CN.recentMonths now)) eqn:E; [now rewrite E |].
  set (s1 := CN.saveItems (scrape (CN.existing store)) store).
  destruct (forallb (CN.existing s1) (CN.recentMonths now)); [reflexivity |].
  unfold s1. rewrite !cn_saveItems_writeMissing. apply writeMissing_again.
  apply Hskip. intros name Hn. unfold CN.existing in *.
  apply existsSync_true in Hn as [v Hv]. apply existsSync_true. exists v.
  now apply writeMissing_once.
Qed.

Lemma twoArticles_skips : SkipsOnly twoArticles.
Proof.
  intros have have' Hle it Hin. unfold twoArticles in *.
  apply filter_In in Hin as [Hin Hno]. apply filter_In. split; [exact Hin |].
  apply negb_true_iff in Hno. apply negb_true_iff.
  destruct (have _) eqn:E; [| reflexivity]. apply Hle in E. congruence.
Qed.

(** The API that serves one month at a time answers month by month. *)
Lemma oneMonthApi_monthWise : MonthWise oneMonthApi.
Proof.
  intros [|c1 [|c2 r]] results c H Hin; [destruct Hin | | discriminate H].
  destruct Hin as [<-|[]]. unfold single. now rewrite H.
Qed.

Lemma WriteOnce_ext (f g : Store -> Store) :
  (forall s, f s = g s) -> WriteOnce g -> WriteOnce f.
Proof.
  intros E [H1 H2]. split.
  - intros s p v H. rewrite E. now apply H1.
  - intros s. rewrite !E. apply H2.
Qed.

Lemma WriteOnce_id : WriteOnce (fun s => s).
Proof. split; [intros s p v H; exact H | reflexivity]. Qed.

(** A loop body that writes the record of its item unless the file exists. *)
Lemma guarded_fold_once {X} (rec : X -> option (string * json)) (xs : list X) :
  WriteOnce (fold_left (fun st x =>
    match rec x with
    | None => st
    | Some (outPath, content) =>
        if Fs.existsSync st outPath then st else Fs.writeFileSync outPath content st
    end) xs).
Proof.
  apply (WriteOnce_ext _
    (fold_left (fun s x =>
       writeIfNew (fun x => default "" (fst <$> rec x)) (fun x => snd <$> rec x) x s) xs)).
  - intros s. apply fold_left_ext_in. intros x st _. unfold writeIfNew.
    destruct (rec x) as [[p v]|]; reflexivity.
  - apply writeIfNew_once.
Qed.



(** * Objects: entries and keys *)

Lemma insertIndexed_In {A} n (e : string * A) l e' :
  In e' (map snd (Obj.insertIndexed n e l)) <-> e' = e \/ In e' (map snd l).
Proof.
  induction l as [|[m x] l IH]; cbn.
  - intuition congruence.
  - destruct (n <? m); cbn; [intuition congruence |]. rewrite IH. intuition congruence.
Qed.

Lemma indexed_In {A} (o : list (string * A)) e :
  In e (map snd (Obj.indexed o)) <-> In e o /\ Obj.indexKey (fst e) <> None.
Proof.
  induction o as [|[k v] o IH]; cbn [Obj.indexed].
  - cbn. tauto.
  - destruct (Obj.indexKey k) as [n|] eqn:E.
    + rewrite insertIndexed_In, IH. cbn [In]. split.
      * intros [->|[H1 H2]]; [split; [now left | cbn; congruence] | split; [now right | exact H2]].
      * intros [[<-|H1] H2]; [now left | right; tauto].
    + rewrite IH. cbn [In]. split.
      * intros [H1 H2]. split; [now right | exact H2].
      * intros [[<-|H1] H2]; [cbn in H2; congruence | tauto].
Qed.

(** [Object.entries] lists the properties of the object, each once. *)
Lemma entries_In {A} (o : list (string * A)) e : In e (Obj.entries o) <-> In e o.
Proof.
  unfold Obj.entries, Obj.named. rewrite in_app_iff, indexed_In, filter_In.
  rewrite bool_decide_eq_true.
  destruct (Obj.indexKey (fst e)); (split; [intros [[H _]|[H _]]; exact H | intros H]).
  - left. split; [exact H | congruence].
  - right. split; [exact H | reflexivity].
Qed.

Lemma entries_singleton {A} k (v : A) : Obj.entries [(k, v)] = [(k, v)].
Proof.
  unfold Obj.entries, Obj.named. cbn [Obj.indexed List.filter fst].
  destruct (Obj.indexKey k); reflexivity.
Qed.

Lemma get_In {A} k (v : A) o : Obj.get k o = Some v -> In (k, v) o.
Proof.
  induction o as [|[k' v'] o IH]; cbn; [discriminate |].
  destruct (String.eqb_spec k' k) as [->|_].
  - intros [= ->]. now left.
  - intros H. right. now apply IH.
Qed.

(** The keys after an assignment are the old keys and the new one. *)
Lemma set_keys {A} k (v : A) o e : In e (Obj.set k v o) -> fst e = k \/ In (fst e) (map fst o).
Proof.
  induction o as [|[k' v'] o IH]; cbn.
  - intros [<-|[]]. now left.
  - destruct (String.eqb_spec k' k) as [->|_]; cbn.
    + intros [<-|H]; [now left | right; right; apply in_map_iff; eauto].
    + intros [<-|H]; [right; now left |]. apply IH in H as [H|H]; [now left | right; now right].
Qed.

Lemma set_In {A} k (v : A) o e : In e (Obj.set k v o) -> e = (k, v) \/ In e o.
Proof.
  induction o as [|[k' v'] o IH]; cbn.
  - intros [<-|[]]. now left.
  - destruct (String.eqb_spec k' k) as [->|_]; cbn.
    + intros [<-|H]; [now left | right; now right].
    + intros [<-|H]; [right; now left |]. apply IH in H as [H|H]; [now left | right; now right].
Qed.

(** * Objects *)

Lemma get_set_eq {A} k (v : A) o : Obj.get k (Obj.set k v o) = Some v.
Proof.
  induction o as [|[k' v'] o IH]; cbn.
  - now rewrite String.eqb_refl.
  - destruct (String.eqb_spec k' k) as [->|Hne]; cbn.
    + now rewrite String.eqb_refl.
    + destruct (String.eqb_spec k' k); [congruence | exact IH].
Qed.

Lemma get_set_ne {A} k k' (v : A) o : k <> k' -> Obj.get k' (Obj.set k v o) = Obj.get k' o.
Proof.
  intros Hne. induction o as [|[k0 v0] o IH]; cbn.
  - destruct (String.eqb_spec k k'); [congruence | reflexivity].
  - destruct (String.eqb_spec k0 k) as [->|Hk]; cbn.
    + destruct (String.eqb_spec k k'); [congruence | reflexivity].
    + destruct (String.eqb_spec k0 k'); [reflexivity | exact IH].
Qed.

(** * The loops of parseJsonStat *)

Section JsonStat.

Variables (fuelTypes months : list string) (value : list (option Z)).
Hypothesis fuelTypes_distinct : NoDup fuelTypes.
Hypothesis months_distinct : NoDup months.

Let fuelAt (f : nat) : string := nth f fuelTypes "undefined".
Let monthAt (t : nat) : string := nth t months "undefined".
Let d : nat := length months.

Lemma iter_S {S} n (body : nat -> S -> S) st :
  iter (Datatypes.S n) body st = body n (iter n body st).
Proof. unfold iter. now rewrite seq_S, fold_left_app. Qed.

Lemma forUpTo_iter {S} (n : nat) (body : nat -> S -> S) st :
  NO.forUpTo (Z.of_nat n) body st = iter n body st.
Proof. unfold NO.forUpTo, iter. now rewrite Nat2Z.id. Qed.

Lemma store1_cell iFuel iTime st m f :
  cell (fst (NO.store1 fuelTypes months value iFuel iTime st)) m f
  = if decide (m = monthAt iTime /\ f = fuelAt iFuel)
    then Some (valueAt value (snd st))
    else cell (fst st) m f.
Proof.
  unfold NO.store1, cell. cbn [fst snd]. fold (fuelAt iFuel) (monthAt iTime).
  destruct (decide (m = monthAt iTime)) as [->|Hm].
  - rewrite get_set_eq. cbn.
    destruct (decide (f = fuelAt iFuel)) as [->|Hf].
    + rewrite get_set_eq. now rewrite decide_True.
    + rewrite get_set_ne by congruence. rewrite decide_False by tauto.
      destruct (Obj.get (monthAt iTime) (fst st)); reflexivity.
  - rewrite get_set_ne by congruence. rewrite decide_False by tauto. reflexivity.
Qed.

Lemma monthAt_inj t t' : (t < d)%nat -> (t' < d)%nat -> monthAt t = monthAt t' -> t = t'.
Proof. intros. eapply (proj1 (List.NoDup_nth months "undefined")); eauto.
       apply NoDup_ListNoDup, months_distinct. Qed.

Lemma fuelAt_inj f f' :
  (f < length fuelTypes)%nat -> (f' < length fuelTypes)%nat -> fuelAt f = fuelAt f' -> f = f'.
Proof. intros. eapply (proj1 (List.NoDup_nth fuelTypes "undefined")); eauto.
       apply NoDup_ListNoDup, fuelTypes_distinct. Qed.

(** The loop over the periods. *)
Lemma time_loop iFuel (n : nat) : forall st, (n <= d)%nat ->
  let st' := iter n (fun iTime => NO.store1 fuelTypes months value iFuel iTime) st in
  snd st' = (snd st + n)%nat
  /\ (forall t, (t < n)%nat ->
        cell (fst st') (monthAt t) (fuelAt iFuel) = Some (valueAt value (snd st + t)))
  /\ (forall m f, f <> fuelAt iFuel \/ (forall t, (t < n)%nat -> m <> monthAt t) ->
        cell (fst st') m f = cell (fst st) m f).
Proof.
  induction n as [|n IH]; intros st Hn; cbn zeta.
  - unfold iter. cbn [seq fold_left]. split; [lia |]. split; [intros; lia | reflexivity].
  - rewrite iter_S. destruct (IH st ltac:(lia)) as (Hk & Hw & Hf). cbn zeta in *.
    split; [cbn [NO.store1 snd]; lia |]. split.
    + intros t Ht. rewrite store1_cell.
      destruct (decide (monthAt t = monthAt n /\ fuelAt iFuel = fuelAt iFuel)) as [[E _]|Hne].
      * apply monthAt_inj in E; try lia. subst t. now rewrite Hk.
      * apply Hw. destruct (Nat.eq_dec t n) as [->|]; [tauto | lia].
    + intros m f H. rewrite store1_cell. rewrite decide_False.
      * apply Hf. destruct H as [H|H]; [now left | right]. intros t Ht. apply H. lia.
      * intros [-> ->]. destruct H as [H|H]; [congruence |]. apply (H n); [lia | reflexivity].
Qed.

(** The loop over the measures: each pass writes the same cells again. *)
Lemma contents_loop iFuel (c : nat) : forall st,
  let st' := iter c (fun _ =>
               NO.forUpTo (Z.of_nat d) (fun iTime =>
                 NO.store1 fuelTypes months value iFuel iTime)) st in
  snd st' = (snd st + c * d)%nat
  /\ ((1 <= c)%nat -> forall t, (t < d)%nat ->
        cell (fst st') (monthAt t) (fuelAt iFuel)
        = Some (valueAt value (snd st + (c - 1) * d + t)))
  /\ (forall m f, f <> fuelAt iFuel \/ (forall t, (t < d)%nat -> m <> monthAt t) ->
        cell (fst st') m f = cell (fst st) m f).
Proof.
  induction c as [|c IH]; intros st; cbn zeta.
  - unfold iter. cbn [seq fold_left]. split; [lia |]. split; [intros; lia | reflexivity].
  - rewrite iter_S, forUpTo_iter. destruct (IH st) as (Hk & _ & Hf). cbn zeta in *.
    match goal with |- context [iter d ?b ?s] =>
      destruct (time_loop iFuel d s (Nat.le_refl d)) as (Hk' & Hw' & Hf') end.
    cbn zeta in *. split; [lia |]. split.
    + intros _ t Ht. rewrite Hw' by exact Ht. rewrite Hk. do 2 f_equal; lia.
    + intros m f H. rewrite Hf' by exact H. now apply Hf.
Qed.

(** The loop over the fuels. *)
Lemma fuel_loop (c n : nat) : forall st,
  (1 <= c)%nat -> (n <= length fuelTypes)%nat ->
  let st' := iter n (fun iFuel =>
               NO.forUpTo (Z.of_nat c) (fun _ =>
                 NO.forUpTo (Z.of_nat d) (fun iTime =>
                   NO.store1 fuelTypes months value iFuel iTime))) st in
  snd st' = (snd st + n * (c * d))%nat
  /\ (forall f t, (f < n)%nat -> (t < d)%nat ->
        cell (fst st') (monthAt t) (fuelAt f)
        = Some (valueAt value (snd st + f * (c * d) + (c - 1) * d + t)))
  /\ (forall m f, (forall i, (i < n)%nat -> f <> fuelAt i)
                  \/ (forall t, (t < d)%nat -> m <> monthAt t) ->
        cell (fst st') m f = cell (fst st) m f).
Proof.
  intros st Hc. induction n as [|n IH]; intros Hn; cbn zeta.
  - unfold iter. cbn [seq fold_left]. split; [lia |]. split; [intros; lia | reflexivity].
  - rewrite iter_S, forUpTo_iter. destruct (IH ltac:(lia)) as (Hk & Hw & Hf). cbn zeta in *.
    match goal with |- context [iter c ?b ?s] =>
      destruct (contents_loop n c s) as (Hk' & Hw' & Hf') end.
    cbn zeta in *. split; [lia |]. split.
    + intros f t Hfn Ht. destruct (Nat.eq_dec f n) as [->|Hne].
      * rewrite Hw' by assumption. rewrite Hk. do 2 f_equal; lia.
      * rewrite Hf'.
        -- apply Hw; [lia | exact Ht].
        -- left. intros E. apply fuelAt_inj in E; lia.
    + intros m f H. rewrite Hf'.
      * apply Hf. destruct H as [H|H]; [left | now right]. intros i Hi. apply H. lia.
      * destruct H as [H|H]; [left | now right]. apply H. lia.
Qed.

(** The loop over the registration types: each pass writes the same cells
    again. *)
Lemma type_loop (b c a : nat) : forall st,
  (1 <= c)%nat -> b = length fuelTypes ->
  let st' := iter a (fun _ =>
               NO.forUpTo (Z.of_nat b) (fun iFuel =>
                 NO.forUpTo (Z.of_nat c) (fun _ =>
                   NO.forUpTo (Z.of_nat d) (fun iTime =>
                     NO.store1 fuelTypes months value iFuel iTime)))) st in
  snd st' = (snd st + a * (b * (c * d)))%nat
  /\ ((1 <= a)%nat -> forall f t, (f < b)%nat -> (t < d)%nat ->
        cell (fst st') (monthAt t) (fuelAt f)
        = Some (valueAt value (snd st + (a - 1) * (b * (c * d)) + f * (c * d) + (c - 1) * d + t))).
Proof.
  intros st Hc Hb. induction a as [|a IH]; cbn zeta.
  - unfold iter. cbn [seq fold_left]. split; [lia | intros; lia].
  - rewrite iter_S, forUpTo_iter. destruct IH as (Hk & _). cbn zeta in *.
    match goal with |- context [iter b ?body ?s] =>
      destruct (fuel_loop c b s Hc ltac:(lia)) as (Hk' & Hw' & _) end.
    cbn zeta in *. split; [lia |].
    intros _ f t Hf Ht. rewrite Hw' by assumption. rewrite Hk. do 2 f_equal; lia.
Qed.

End JsonStat.

(** C4, as amended.  [parseJsonStat] takes the four sizes as registration
    types, fuels, measures, periods, in this order, whatever order the
    response declares; the order of the fuels and of the periods within
    their dimension is the one of the metadata.  With sizes [a, b, c, d],
    the fuel at place [f] and the period at place [t] get the value at
    [(((a - 1) * b + f) * c + (c - 1)) * d + t] of the flat array, 0 when it
    is missing or null. *)
Theorem parseJsonStat_fixed_order (r : NO.Response) dim fuelIndex monthIndex values
    (a b c d : nat) :
  NO.dimension r = Some dim ->
  Obj.get "DrivstoffType" dim = Some fuelIndex ->
  Obj.get "Tid" dim = Some monthIndex ->
  NO.value r = Some values ->
  NO.size r = Some [Z.of_nat a; Z.of_nat b; Z.of_nat c; Z.of_nat d] ->
  NoDup (NO.categoryOrder fuelIndex) -> NoDup (NO.categoryOrder monthIndex) ->
  length (NO.categoryOrder fuelIndex) = b -> length (NO.categoryOrder monthIndex) = d ->
  (1 <= a)%nat -> (1 <= c)%nat ->
  exists results,
    NO.parseJsonStat r = Ok results
    /\ forall f t, (f < b)%nat -> (t < d)%nat ->
         cell results (nth t (NO.categoryOrder monthIndex) "undefined")
                      (nth f (NO.categoryOrder fuelIndex) "undefined")
         = Some (valueAt values ((((a - 1) * b + f) * c + (c - 1)) * d + t)).
Proof.
  intros Hdim Hfi Hmi Hval Hsize Hnf Hnm Hb Hd Ha Hc.
  unfold NO.parseJsonStat. rewrite Hdim, Hval, Hsize, Hfi, Hmi.
  eexists. split; [reflexivity |].
  intros f t Hf Ht. unfold NO.sizeAt. cbn [nth].
  rewrite forUpTo_iter.
  destruct (type_loop (NO.categoryOrder fuelIndex) (NO.categoryOrder monthIndex) values
              Hnf Hnm b c a ([], O) Hc (eq_sym Hb)) as (_ & Hw).
  cbn zeta in Hw. rewrite Hd in Hw. rewrite Hw by assumption.
  cbn [snd]. do 2 f_equal; lia.
Qed.

(** Sizes [1, 2, 1, 3] and six values: the value of fuel [f] and period
    [t] is the one at [3 * f + t]. *)
Lemma flat_1_2_1_3_mapping :
  NO.parseJsonStat flatResponse
  = Ok [("2024M01", [("19", 10); ("20", 40)]);
        ("2024M02", [("19", 20); ("20", 50)]);
        ("2024M03", [("19", 30); ("20", 60)])]
  /\ exists results,
       NO.parseJsonStat flatResponse = Ok results
       /\ forall f t, (f < 2)%nat -> (t < 3)%nat ->
            cell results (nth t ["2024M01"; "2024M02"; "2024M03"] "undefined")
                         (nth f ["19"; "20"] "undefined")
            = Some (valueAt [Some 10; Some 20; Some 30; Some 40; Some 50; Some 60]
                      ((((1 - 1) * 2 + f) * 1 + (1 - 1)) * 3 + t)).
Proof.
  split; [reflexivity |].
  apply (parseJsonStat_fixed_order flatResponse
           [("DrivstoffType", [("19", 0); ("20", 1)]);
            ("Tid", [("2024M01", 0); ("2024M02", 1); ("2024M03", 2)])]
           [("19", 0); ("20", 1)]
           [("2024M01", 0); ("2024M02", 1); ("2024M03", 2)]
           [Some 10; Some 20; Some 30; Some 40; Some 50; Some 60] 1 2 1 3);
    try reflexivity; try lia.
  - apply (bool_decide_unpack _). vm_compute. exact I.
  - apply (bool_decide_unpack _). vm_compute. exact I.
Defined.

(** C4 as stated fails: for a response that declares the periods before
    the fuels, sizes [1, 3, 1, 2], row-major order gives 30 to the second
    period of the first fuel; [parseJsonStat] gives it 20, and the third
    period gets nothing. *)
Lemma declared_order_is_not_read :
  declaredCell periodFirstResponse "2024M02" "19" = Some 30
  /\ exists results,
       NO.parseJsonStat periodFirstResponse = Ok results
       /\ cell results "2024M02" "19" = Some 20
       /\ cell results "2024M03" "19" = None.
Proof.
  split; [reflexivity |]. eexists. split; [reflexivity |]. split; reflexivity.
Qed.

(** On the order the extractor assumes, the declared reading and the
    extractor agree. *)
Remark declared_order_agrees_on_flatResponse :
  exists results,
    NO.parseJsonStat flatResponse = Ok results
    /\ Forall (fun mf => declaredCell flatResponse (fst mf) (snd mf)
                         = cell results (fst mf) (snd mf))
         [("2024M01", "19"); ("2024M01", "20"); ("2024M02", "19");
          ("2024M02", "20"); ("2024M03", "19"); ("2024M03", "20")].
Proof. eexists. split; [reflexivity |]. repeat constructor. Qed.

(** * Failures of months and of parsers *)

Lemma length_append (a b : string) :
  String.length (a ++ b) = (String.length a + String.length b)%nat.
Proof.
  induction a as [|c a IH]; [reflexivity |].
  change (S (String.length (a ++ b)) = S (String.length a + String.length b)).
  now rewrite IH.
Qed.

Lemma append_inv_tail (a b s : string) : a ++ s = b ++ s -> a = b.
Proof.
  revert b. induction a as [|c a IH]; intros [|c' b] H.
  - reflexivity.
  - exfalso. apply (f_equal String.length) in H.
    change (String.length s = S (String.length (b ++ s))) in H.
    rewrite length_append in H. lia.
  - exfalso. apply (f_equal String.length) in H.
    change (S (String.length (a ++ s)) = String.length s) in H.
    rewrite length_append in H. lia.
  - change (String c (a ++ s) = String c' (b ++ s)) in H.
    injection H as -> H. f_equal. now apply IH.
Qed.

Lemma json_path_inj dir c1 c2 :
  Fs.join dir (c1 ++ ".json") = Fs.join dir (c2 ++ ".json") -> c1 = c2.
Proof.
  unfold Fs.join. intros H.
  apply (inj (String.append dir)) in H. apply (inj (String.append "/")) in H.
  now apply append_inv_tail in H.
Qed.

Section Isolation.

Context {X : Type} (path : X -> string) (content : X -> option json).

(** Whatever the other items do, an item that yields a record has it
    written, as long as the items that share its file yield the same. *)
Lemma fold_write_reaches xs : forall st x v,
  content x = Some v ->
  (forall y w, In y xs -> path y = path x -> content y = Some w -> w = v) ->
  In x xs \/ st !! path x = Some v ->
  fold_left (fun s x => write path content x s) xs st !! path x = Some v.
Proof.
  induction xs as [|y xs IH]; intros st x v Hc Hsame Hin.
  - destruct Hin as [[]|H]. exact H.
  - cbn [fold_left]. apply IH; [exact Hc | |].
    + intros z w Hz. apply Hsame. now right.
    + destruct Hin as [[->|Hin]|Hst].
      * right. unfold write. rewrite Hc. apply lookup_insert_eq.
      * now left.
      * right. unfold write. destruct (content y) as [w|] eqn:Hy; [| exact Hst].
        unfold Fs.writeFileSync. destruct (decide (path y = path x)) as [E|Hne].
        -- rewrite E, lookup_insert_eq. f_equal. apply (Hsame y); auto. now left.
        -- now rewrite lookup_insert_ne.
Qed.

End Isolation.

(** The months of the Dutch loop do not depend on one another. *)
Lemma nl_month_reaches_store rdw now store m fuelData :
  In m (Util.filterMissingMonths (Util.getMonthsSinceStart 2019 now) NL.outputDir
          Util.codeJson store) ->
  NL.fetchMonthData rdw (Util.code m) = Ok fuelData ->
  Obj.keys fuelData <> [] ->
  NL.files (NL.fetchAllEVData rdw now store) !! Fs.join NL.outputDir (Util.code m ++ ".json")
  = Some (NL.output (Util.code m) fuelData).
Proof.
  intros Hin Hfetch Hkeys. unfold NL.fetchAllEVData. rewrite nl_fold_files.
  change (Fs.join NL.outputDir (Util.code m ++ ".json")) with (nlPath m).
  assert (forall y, nlPath y = nlPath m -> nlContent rdw y = nlContent rdw m) as Hsame.
  { intros y E. apply json_path_inj in E. unfold nlContent. now rewrite E. }
  assert (nlContent rdw m = Some (NL.output (Util.code m) fuelData)) as Hc.
  { unfold nlContent. rewrite Hfetch. destruct (Obj.keys fuelData); [congruence | reflexivity]. }
  apply fold_write_reaches; [exact Hc | | now left].
  intros y w _ E Hy. rewrite (Hsame y E), Hc in Hy. congruence.
Qed.

Lemma nl_counts rdw ms : forall p,
  let p' := fold_left (fun p m => NL.processMonth rdw m p) ms p in
  NL.successCount p' + NL.errorCount p'
  = NL.successCount p + NL.errorCount p + Z.of_nat (length ms).
Proof.
  induction ms as [|m ms IH]; intros p; cbn zeta; [cbn; lia |].
  cbn [fold_left length]. rewrite IH. unfold NL.processMonth.
  destruct (NL.fetchMonthData rdw (Util.code m)) as [fd|]; [destruct (Obj.keys fd) |];
    cbn [NL.successCount NL.errorCount]; lia.
Qed.

Section Runs.

Import CollectAll.
Context (scriptExists : string -> bool) (modules : string -> string -> option Parser).

Lemma runParsers_resolves zoneCode ps : forall r,
  (forall category info, In (category, info) ps -> scriptExists (script info) = true ->
     exists parser, modules (script info) (function info) = Some parser
                    /\ forall store, snd (parser store) = None) ->
  snd (runParsers scriptExists modules zoneCode ps r) = Resolved.
Proof.
  induction ps as [|[category info] ps IH]; intros r H; [reflexivity |].
  cbn [runParsers]. destruct (scriptExists (script info)) eqn:E.
  - destruct (H category info) as (parser & -> & Hp); [now left | exact E |].
    cbn [files]. specialize (Hp (files r)).
    destruct (parser (files r)) as [store [e|]]; [discriminate |].
    apply IH. intros c i Hin. apply (H c i). now right.
  - apply IH. intros c i Hin. apply (H c i). now right.
Qed.

Lemma runZones_resolves zs : forall r,
  (forall zoneCode zone ps category info,
     In (zoneCode, zone) zs -> parsers zone = Some ps ->
     In (category, info) (Obj.entries ps) -> scriptExists (script info) = true ->
     exists parser, modules (script info) (function info) = Some parser
                    /\ forall store, snd (parser store) = None) ->
  snd (runZones scriptExists modules zs r) = Resolved.
Proof.
  induction zs as [|[zoneCode zone] zs IH]; intros r H; [reflexivity |].
  cbn [runZones]. destruct (parsers zone) as [ps|] eqn:Hps.
  - pose proof (runParsers_resolves zoneCode (Obj.entries ps) r) as Hr.
    destruct (runParsers scriptExists modules zoneCode (Obj.entries ps) r) as [r' o].
    cbn [snd] in Hr. rewrite Hr.
    + apply IH. intros z zn ps' c i Hin. apply (H z zn ps' c i). now right.
    + intros c i Hin. apply (H zoneCode zone ps c i); auto. now left.
  - apply IH. intros z zn ps' c i Hin. apply (H z zn ps' c i). now right.
Qed.

End Runs.




(** * Record files *)

Section Records.

Variable codes : list string.

Lemma canonical_write store p j :
  AllCanonical codes store -> Canonical codes j ->
  AllCanonical codes (Fs.writeFileSync p j store).
Proof.
  intros Hs Hj q k. unfold Fs.writeFileSync. destruct (decide (p = q)) as [->|Hne].
  - rewrite lookup_insert_eq. now intros [= <-].
  - rewrite lookup_insert_ne by exact Hne. apply Hs.
Qed.

Lemma canonical_fold {X} (step : X -> Store -> Store) xs :
  (forall x st, AllCanonical codes st -> AllCanonical codes (step x st)) ->
  forall st, AllCanonical codes st ->
  AllCanonical codes (fold_left (fun s x => step x s) xs st).
Proof.
  intros Hstep. induction xs as [|x xs IH]; intros st Hst; [exact Hst |].
  cbn [fold_left]. apply IH, Hstep, Hst.
Qed.

(** The shape every parser but ACEA's gives its record. *)
Lemma canonical_record (y m region type : json) marque modele (l : list (string * Z))
    (code : string * Z -> string) :
  Forall (fun ft => In (code ft) codes) l ->
  Canonical codes
    (JObj [("year", y); ("month", m);
           ("data", JArr (map (fun ft => Json.entry marque modele (snd ft) (code ft)) l));
           ("region", region); ("type", type)]).
Proof.
  intros H. split; [reflexivity |].
  unfold Json.energies. cbn [Json.field Obj.get String.eqb Ascii.eqb Bool.eqb Json.elements].
  change (Obj.get "data" _) with (Some (JArr (map (fun ft =>
    Json.entry marque modele (snd ft) (code ft)) l))).
  cbn [Json.elements]. rewrite map_map. apply Forall_map.
  induction H as [|ft l Hft _ IH]; constructor; [| exact IH].
  exists (code ft). split; [reflexivity | exact Hft].
Qed.

Lemma guarded_write_canonical (rec : option (string * json)) st :
  (forall p j, rec = Some (p, j) -> Canonical codes j) ->
  AllCanonical codes st ->
  AllCanonical codes
    match rec with
    | None => st
    | Some (outPath, content) =>
        if Fs.existsSync st outPath then st else Fs.writeFileSync outPath content st
    end.
Proof.
  intros Hrec Hst. destruct rec as [[p j]|]; [| exact Hst].
  destruct (Fs.existsSync st p); [exact Hst |].
  apply canonical_write; [exact Hst | now apply (Hrec p j)].
Qed.

Lemma KeysIn_set {A} k (v : A) o : In k codes -> KeysIn codes o -> KeysIn codes (Obj.set k v o).
Proof.
  intros Hk Ho. apply Forall_forall. intros e He. apply list_elem_of_In in He.
  apply set_keys in He as [->|He]; [exact Hk |].
  apply in_map_iff in He as (e' & <- & He'). unfold KeysIn in Ho.
  rewrite Forall_forall in Ho. apply Ho. now apply list_elem_of_In.
Qed.

Lemma KeysIn_entries {A} (o : list (string * A)) : KeysIn codes o -> KeysIn codes (Obj.entries o).
Proof.
  unfold KeysIn. rewrite !Forall_forall. intros H e He. apply H.
  apply list_elem_of_In. apply list_elem_of_In in He. now apply entries_In.
Qed.

Lemma KeysIn_filter {A} (f : string * A -> bool) o : KeysIn codes o -> KeysIn codes (List.filter f o).
Proof.
  unfold KeysIn. rewrite !Forall_forall. intros H e He. apply H.
  apply list_elem_of_In. apply list_elem_of_In in He. now apply filter_In in He as [He _].
Qed.

(** Spreadsheets. *)
Lemma mapColumns_codes normalize row : forall j,
  (forall label, In (normalize label) codes) ->
  Forall (fun jc => In (snd jc) codes) (Sheet.mapColumns normalize row j).
Proof.
  intros j H. revert j. induction row as [|c row IH]; intros j; [constructor |].
  cbn [Sheet.mapColumns]. destruct c as [val| |]; try apply IH.
  destruct (_ && _); [constructor; [apply H | apply IH] | apply IH].
Qed.

Lemma aggregate_keys row colMapping : forall agg,
  Forall (fun jc => In (snd jc) codes) colMapping -> KeysIn codes agg ->
  KeysIn codes (Sheet.aggregate row colMapping agg).
Proof.
  induction colMapping as [|[j c] cm IH]; intros agg Hcm Hagg; [exact Hagg |].
  apply Forall_cons in Hcm as [Hc Hcm]. cbn [Sheet.aggregate]. apply IH; [exact Hcm |].
  destruct (0 <? _); [| exact Hagg]. now apply KeysIn_set.
Qed.

Lemma dataOf_record y m region type marque modele agg :
  KeysIn codes agg ->
  Canonical codes
    (JObj [("year", y); ("month", m);
           ("data", JArr (Sheet.dataOf marque modele agg));
           ("region", region); ("type", type)]).
Proof.
  intros H. unfold Sheet.dataOf. apply (canonical_record _ _ _ _ _ _ _ fst).
  apply KeysIn_entries, H.
Qed.

End Records.

Ltac in_codes :=
  unfold chineseCodes, canonicalFuelCodes; cbn [In app fst snd];
  repeat (first [left; reflexivity | right]).

(** France *)
Lemma scanAliases_range (S : list string) clean pairs : forall best bestLen,
  In "OTHER" S -> Forall (fun p => In (fst p) S) pairs -> In (strOr best "OTHER") S ->
  In (FR.scanAliases clean pairs best bestLen) S.
Proof.
  induction pairs as [|[c a] r IH]; intros best bestLen Ho Hp Hb; [exact Hb |].
  apply Forall_cons in Hp as [Hc Hr]. cbn [fst] in Hc. cbn [FR.scanAliases].
  destruct (String.eqb clean (FR.cleanAlias a)); [exact Hc |].
  destruct (_ && _); [| now apply IH].
  apply IH; [exact Ho | exact Hr |]. destruct c; [exact Ho | exact Hc].
Qed.

Lemma french_codes label : In (FR.normalizeFrenchFuel label) canonicalFuelCodes.
Proof.
  unfold FR.normalizeFrenchFuel, FR.normalizeWith.
  destruct label as [[|c r]|]; [in_codes | | in_codes].
  apply scanAliases_range; [in_codes | | in_codes]. unfold FR.FRENCH_FUEL_MAP, aliasPairs.
  cbn [flat_map map fst snd app].
  repeat (apply List.Forall_cons; [in_codes |]). apply List.Forall_nil.
Qed.

Lemma fr_findHeader_codes rows below colDate colMapping :
  FR.findHeader rows = Some (below, colDate, colMapping) ->
  Forall (fun jc => In (snd jc) canonicalFuelCodes) colMapping.
Proof.
  induction rows as [|row rows IH]; cbn [FR.findHeader]; [discriminate |].
  destruct (FR.hasFuelRef row); [| exact IH].
  intros [= _ _ <-]. apply mapColumns_codes, french_codes.
Qed.

Lemma fr_rowRecord_canonical colDate colMapping row p j :
  Forall (fun jc => In (snd jc) canonicalFuelCodes) colMapping ->
  FR.rowRecord colDate colMapping row = Some (p, j) -> Canonical canonicalFuelCodes j.
Proof.
  intros Hcm. unfold FR.rowRecord. destruct colDate as [d|]; [| discriminate].
  destruct (Sheet.falsy _); [discriminate |]. destruct (negb _); [discriminate |].
  destruct (Js.split _ _) as [|yStr [|mStr [|]]]; try discriminate.
  destruct (Sheet.dataOf _ _ _) eqn:E; [discriminate |]. rewrite <- E.
  intros [= _ <-]. apply dataOf_record, aggregate_keys; [exact Hcm | constructor].
Qed.

Lemma fr_canonical rows store :
  AllCanonical canonicalFuelCodes store ->
  AllCanonical canonicalFuelCodes (FR.processSheet rows store).
Proof.
  intros H. unfold FR.processSheet.
  destruct (FR.findHeader rows) as [[[below colDate] colMapping]|] eqn:E; [| exact H].
  apply (canonical_fold _ (FR.processRow colDate colMapping)); [| exact H].
  intros row st Hst. unfold FR.processRow. apply guarded_write_canonical; [| exact Hst].
  intros p j. apply fr_rowRecord_canonical. eapply fr_findHeader_codes, E.
Qed.

Lemma firstContained_range (S : list string) clean pairs :
  In "OTHER" S -> Forall (fun p => In (fst p) S) pairs -> In (CN.firstContained clean pairs) S.
Proof.
  intros Ho. induction 1 as [|[c a] r Hc _ IH]; [exact Ho |].
  cbn [CN.firstContained]. destruct (Js.includes clean a); [exact Hc | exact IH].
Qed.

Lemma chinese_codes label : In (CN.normalizeChineseFuel label) chineseCodes.
Proof.
  unfold CN.normalizeChineseFuel. destruct label as [[|c r]|]; [in_codes | | in_codes].
  apply firstContained_range; [in_codes |]. unfold CN.CHINESE_FUEL_MAP, aliasPairs.
  cbn [flat_map map fst snd app].
  repeat (apply List.Forall_cons; [in_codes |]). apply List.Forall_nil.
Qed.

Lemma cn_findHeader_codes rows below colDate colMapping :
  CN.findHeader rows = Some (below, colDate, colMapping) ->
  Forall (fun jc => In (snd jc) chineseCodes) colMapping.
Proof.
  induction rows as [|row rows IH]; cbn [CN.findHeader]; [discriminate |].
  destruct (CN.hasFuelRef row); [| exact IH].
  intros [= _ _ <-]. apply mapColumns_codes, chinese_codes.
Qed.

Lemma cn_rowRecord_canonical colDate colMapping row p j :
  Forall (fun jc => In (snd jc) chineseCodes) colMapping ->
  CN.rowRecord colDate colMapping row = Some (p, j) -> Canonical chineseCodes j.
Proof.
  intros Hcm. unfold CN.rowRecord. destruct colDate as [d|]; [| discriminate].
  destruct (Sheet.falsy _); [discriminate |].
  destruct (CN.splitPeriod _) as [[yStr mStr]|]; [| discriminate].
  destruct (Sheet.dataOf _ _ _) eqn:E; [discriminate |]. rewrite <- E.
  intros [= _ <-]. apply dataOf_record, aggregate_keys; [exact Hcm | constructor].
Qed.

Lemma cn_sheet_canonical rows store :
  AllCanonical chineseCodes store -> AllCanonical chineseCodes (CN.processSheet rows store).
Proof.
  intros H. unfold CN.processSheet.
  destruct (CN.findHeader rows) as [[[below colDate] colMapping]|] eqn:E; [| exact H].
  apply (canonical_fold _ (CN.processRow colDate colMapping)); [| exact H].
  intros row st Hst. unfold CN.processRow. apply guarded_write_canonical; [| exact Hst].
  intros p j. apply cn_rowRecord_canonical. eapply cn_findHeader_codes, E.
Qed.

Lemma cn_itemRecord_canonical it j :
  CN.itemRecord it = Some j -> Canonical canonicalFuelCodes j.
Proof.
  unfold CN.itemRecord, CN.dataOfItem, CN.record, CN.entryOf.
  destruct (CN.given (CN.BEV it)), (CN.given (CN.PHEV it)), (CN.given (CN.TOTAL it)),
    (CN.given (CN.NEV it)); cbn [andb negb app];
    try destruct (_ <? _); cbn [app]; intros [= <-];
    (split; [reflexivity |]); cbn;
    repeat (constructor; [eexists; split; [reflexivity | in_codes] |]); constructor.
Qed.

Lemma cn_items_canonical scrape now store :
  AllCanonical canonicalFuelCodes store ->
  AllCanonical canonicalFuelCodes (CN.fetchAllEVData scrape now store).
Proof.
  intros H. unfold CN.fetchAllEVData. destruct (forallb _ _); [exact H |].
  generalize (scrape (CN.existing store)) as monthlyData. intros monthlyData.
  unfold CN.saveItems.
  apply (canonical_fold _ (fun it st =>
    match CN.itemRecord it with
    | None => st
    | Some content => Fs.writeFileSync (CN.pathOfItem it) content st
    end)); [| exact H].
  intros it st Hst. destruct (CN.itemRecord it) as [j|] eqn:E; [| exact Hst].
  apply canonical_write; [exact Hst | now apply (cn_itemRecord_canonical it)].
Qed.

(** Sweden *)
Lemma swedish_codes label : In (SE.normalizeSwedishFuel label) canonicalFuelCodes.
Proof.
  unfold SE.normalizeSwedishFuel. destruct label as [[|c r]|]; [in_codes | | in_codes].
  generalize (Js.toLowerCase (Js.trim (String c r))) as clean. intros clean.
  unfold SE.SWEDISH_FUEL_MAP, aliasPairs. cbn [flat_map map fst snd app SE.firstEqual].
  repeat (destruct (String.eqb clean _); [in_codes |]). in_codes.
Qed.

Lemma MonthsOk_set key md monthlyData :
  KeysIn canonicalFuelCodes (SE.byFuel md) -> MonthsOk monthlyData ->
  MonthsOk (Obj.set key md monthlyData).
Proof.
  intros Hmd H. apply Forall_forall. intros e He. apply list_elem_of_In in He.
  apply set_In in He as [->|He]; [exact Hmd |].
  unfold MonthsOk in H. rewrite Forall_forall in H. apply H. now apply list_elem_of_In.
Qed.

Lemma MonthsOk_get key md monthlyData :
  MonthsOk monthlyData -> Obj.get key monthlyData = Some md ->
  KeysIn canonicalFuelCodes (SE.byFuel md).
Proof.
  intros H Hget. apply get_In in Hget. unfold MonthsOk in H. rewrite Forall_forall in H.
  apply (H (key, md)). now apply list_elem_of_In.
Qed.

Lemma se_addRow_ok row monthlyData : MonthsOk monthlyData -> MonthsOk (SE.addRow row monthlyData).
Proof.
  intros H. unfold SE.addRow. destruct (negb _); [exact H |].
  destruct (SE.matchMonth _) as [[y m]|]; [| exact H].
  set (key := (Js.showZ _ ++ "-" ++ Js.pad2 _)).
  set (md0 := match Obj.get key monthlyData with Some _ => monthlyData | None => _ end).
  assert (MonthsOk md0) as H0.
  { unfold md0. destruct (Obj.get key monthlyData); [exact H |].
    apply MonthsOk_set; [constructor | exact H]. }
  destruct (_ && _); [| exact H0].
  destruct (Obj.get key md0) as [md|] eqn:E; [| exact H0].
  apply MonthsOk_set; [| exact H0]. cbn [SE.byFuel].
  apply KeysIn_set; [apply swedish_codes | eapply MonthsOk_get; eauto].
Qed.

Lemma se_monthRecord_canonical km p j :
  KeysIn canonicalFuelCodes (SE.byFuel (snd km)) ->
  SE.monthRecord km = Some (p, j) -> Canonical canonicalFuelCodes j.
Proof.
  intros H. unfold SE.monthRecord.
  match goal with |- context [map ?f ?l] => set (data := map f l) end.
  destruct data eqn:E; [discriminate |]. rewrite <- E. intros [= _ <-]. unfold data.
  apply (canonical_record _ _ _ _ _ _ _ _ fst). apply KeysIn_filter, KeysIn_entries, H.
Qed.

Lemma se_canonical records store :
  AllCanonical canonicalFuelCodes store ->
  AllCanonical canonicalFuelCodes (SE.processRecords records store).
Proof.
  intros H. unfold SE.processRecords.
  set (monthlyData := fold_left _ records []).
  assert (MonthsOk monthlyData) as Hmd.
  { unfold monthlyData. generalize (@nil (string * SE.MonthData)) (Forall_nil_2
      (fun km : string * SE.MonthData => KeysIn canonicalFuelCodes (SE.byFuel (snd km)))).
    induction records as [|row records IH]; intros md Hmd; [exact Hmd |].
    cbn [fold_left]. apply IH, se_addRow_ok, Hmd. }
  assert (Forall (fun km => KeysIn canonicalFuelCodes (SE.byFuel (snd km)))
                 (Obj.entries monthlyData)) as He.
  { apply Forall_forall. intros km Hkm. unfold MonthsOk in Hmd. rewrite Forall_forall in Hmd.
    apply Hmd. apply list_elem_of_In. apply list_elem_of_In in Hkm. now apply entries_In. }
  revert store H. induction He as [|km l Hkm _ IH]; intros store H; [exact H |].
  cbn [fold_left]. apply IH. unfold SE.writeMonth.
  apply guarded_write_canonical; [| exact H].
  intros p j. now apply se_monthRecord_canonical.
Qed.

(** Norway *)
Lemma norwegian_codes code : In (NO.mapFuelType code) canonicalFuelCodes.
Proof.
  unfold NO.mapFuelType, NO.mapping. cbn [Obj.get].
  repeat (destruct (String.eqb _ code); [in_codes |]). in_codes.
Qed.

Lemma no_canonical monthCode fuelData store :
  AllCanonical canonicalFuelCodes store ->
  AllCanonical canonicalFuelCodes (snd (NO.saveMonthlyData monthCode fuelData store)).
Proof.
  intros H. unfold NO.saveMonthlyData.
  destruct (NO.matchMonth monthCode) as [[y monthStr]|]; [| exact H].
  destruct (NO.dataOf fuelData) eqn:E; [exact H |]. rewrite <- E. cbn [snd].
  apply canonical_write; [exact H |]. unfold NO.output, NO.dataOf.
  apply (canonical_record _ _ _ _ _ _ _ _ (fun ft => NO.mapFuelType (fst ft))).
  apply Forall_forall. intros ft _. apply norwegian_codes.
Qed.

Lemma no_run_canonical fetchJson now store :
  AllCanonical canonicalFuelCodes store ->
  AllCanonical canonicalFuelCodes (NO.files (NO.fetchAllEVData fetchJson now store)).
Proof.
  intros H. unfold NO.fetchAllEVData.
  assert (AllCanonical canonicalFuelCodes (NO.files (NO.mkProgress store 0))) as K by exact H.
  revert K. generalize (NO.mkProgress store 0) as p.
  generalize (Util.filterMissingMonths
                (map NO.withApiCode (Util.getMonthsSinceStart 2011 now)) NO.outDir
                NO.fileNamer store) as missing. intros missing.
  induction (NO.batchStarts (length missing)) as [|i starts IH]; intros p K; [exact K |].
  cbn [fold_left]. apply IH. unfold NO.processBatch.
  generalize (map Util.code (NO.slice i NO.batchSize missing)) as codes. intros codes.
  destruct (NO.fetchMonthsBatch fetchJson codes) as [results|].
  - revert p K. induction codes as [|c codes IHc]; intros p K; [exact K |].
    cbn [NO.saveBatch fold_left]. apply IHc.
    destruct (Obj.get c results) as [fd|]; [| exact K]. cbn [NO.files]. now apply no_canonical.
  - revert p K. induction codes as [|c codes IHc]; intros p K; [exact K |].
    cbn [NO.fetchOneByOne fold_left]. apply IHc.
    destruct (NO.fetchMonthsBatch fetchJson [c]) as [results|]; [| exact K].
    destruct (Obj.get c results) as [fd|]; [| exact K]. cbn [NO.files]. now apply no_canonical.
Qed.

(** The Netherlands *)
Lemma dutch_codes label : In (NL.mapFuelType label) canonicalFuelCodes.
Proof.
  unfold NL.mapFuelType, NL.mapping. generalize (default "undefined" label) as k. intros k.
  cbn [Obj.get]. repeat (destruct (String.eqb _ k); [in_codes |]). in_codes.
Qed.

Lemma nl_countFuels_keys results : KeysIn canonicalFuelCodes (NL.countFuels results).
Proof.
  unfold NL.countFuels.
  generalize (@nil (string * Z)) (Forall_nil_2 (fun e : string * Z => In (fst e) canonicalFuelCodes)).
  induction results as [|[records|] results IH]; intros fc Hfc; [exact Hfc | |].
  - cbn [fold_left]. apply IH. clear IH. revert fc Hfc.
    induction records as [|rec records IH]; intros fc Hfc; [exact Hfc |].
    cbn [fold_left]. apply IH, KeysIn_set; [apply dutch_codes | exact Hfc].
  - cbn [fold_left]. apply IH, Hfc.
Qed.

Lemma nl_canonical rdw now store :
  AllCanonical canonicalFuelCodes store ->
  AllCanonical canonicalFuelCodes (NL.files (NL.fetchAllEVData rdw now store)).
Proof.
  intros H. unfold NL.fetchAllEVData. rewrite nl_fold_files. cbn [NL.files].
  apply (canonical_fold _ (write nlPath (nlContent rdw))); [| exact H].
  intros m st Hst. unfold write. destruct (nlContent rdw m) as [j|] eqn:E; [| exact Hst].
  apply canonical_write; [exact Hst |]. unfold nlContent, NL.fetchMonthData in E.
  destruct (rdw (Util.code m)) as [results|]; [| discriminate].
  destruct (Obj.keys (NL.countFuels results)); [discriminate |].
  injection E as <-. unfold NL.output.
  apply (canonical_record _ _ _ _ _ _ _ _ fst). apply KeysIn_entries, nl_countFuels_keys.
Qed.

(** Germany *)
Lemma de_putPositive_keys code v fuelData :
  In code canonicalFuelCodes -> KeysIn canonicalFuelCodes fuelData ->
  KeysIn canonicalFuelCodes (DE.putPositive code v fuelData).
Proof.
  intros Hc H. unfold DE.putPositive. destruct v as [x|]; [| exact H].
  destruct (0 <? x); [now apply KeysIn_set | exact H].
Qed.

Lemma de_fuelDataOf_keys totals : KeysIn canonicalFuelCodes (DE.fuelDataOf totals).
Proof.
  unfold DE.fuelDataOf.
  assert (KeysIn canonicalFuelCodes
            (DE.putPositive "HYBRID" (DE.kHYBRID totals)
               (DE.putPositive "PHEV" (DE.kPHEV totals)
                  (DE.putPositive "DIESEL" (DE.kDIESEL totals)
                     (DE.putPositive "BEV" (DE.kBEV totals) []))))) as Hk.
  { repeat (apply de_putPositive_keys; [in_codes |]). constructor. }
  cbn zeta. destruct (0 <? _); [| exact Hk]. apply KeysIn_set; [in_codes | exact Hk].
Qed.

Lemma de_firstData_totals Buffer fetchFile readTotals urls fuelData :
  DE.firstData Buffer fetchFile readTotals urls = Some fuelData ->
  exists totals, fuelData = DE.fuelDataOf totals.
Proof.
  induction urls as [|url urls IH]; cbn [DE.firstData]; [discriminate |].
  destruct (fetchFile url) as [buffer|]; [| exact IH].
  unfold DE.parseKbaExcel. destruct (readTotals buffer) as [t|]; cbn; [| exact IH].
  destruct (Obj.keys (DE.fuelDataOf t)) eqn:E; [exact IH |].
  intros [= <-]. now exists t.
Qed.

Lemma de_canonical Buffer fetchFile readTotals now store :
  AllCanonical canonicalFuelCodes store ->
  AllCanonical canonicalFuelCodes
    (DE.files (DE.fetchAllEVData Buffer fetchFile readTotals now store)).
Proof.
  intros H. rewrite de_fetchAll_writeMissing. unfold writeMissing.
  apply (canonical_fold _ (write dePath (deContent Buffer fetchFile readTotals))); [| exact H].
  intros m st Hst. unfold write. destruct (deContent _ _ _ m) as [j|] eqn:E; [| exact Hst].
  apply canonical_write; [exact Hst |]. unfold deContent, DE.fetchMonthData in E.
  destruct (DE.firstData _ _ _ _) as [fd|] eqn:Hfd; [| discriminate].
  destruct (Obj.keys fd); [discriminate |]. injection E as <-.
  apply de_firstData_totals in Hfd as [totals ->]. unfold DE.output.
  apply (canonical_record _ _ _ _ _ _ _ _ fst). apply KeysIn_entries, de_fuelDataOf_keys.
Qed.




(** The object ACEA's [processAceaMonth] writes has neither [region] nor
    [type], which the other parsers write. *)
Remark acea_output_lacks_region_and_type year month rawData :
  Json.hasField "region" (ACEA.output year month rawData) = false
  /\ Json.hasField "type" (ACEA.output year month rawData) = false
  /\ Json.hasRecordFields (ACEA.output year month rawData) = false.
Proof. repeat split. Qed.

(** * The French sheet *)

(** C7 as stated fails: "Gazole" alone is no alias of the French table, so
    its column is not read: the record of 2023-05 has no DIESEL entry. *)
Lemma bare_gazole_column_is_not_read :
  FR.normalizeFrenchFuel (Some "Gazole") = "OTHER"
  /\ map_to_list (FR.processSheet gazoleSheet ∅)
     = [("data/FR/ev/2023-05.json",
         FR.record (Some 2023) (Some 5) [frEntry 50 "GASOLINE"; frEntry 25 "BEV"])]
  /\ ~ (exists record,
          FR.processSheet gazoleSheet ∅ !! "data/FR/ev/2023-05.json" = Some record
          /\ In (Some (JStr "DIESEL")) (Json.energies record)).
Proof.
  split; [reflexivity |]. split; [vm_compute; reflexivity |].
  intros (record & Hr & Hin).
  assert (FR.processSheet gazoleSheet ∅ !! "data/FR/ev/2023-05.json"
          = Some (FR.record (Some 2023) (Some 5) [frEntry 50 "GASOLINE"; frEntry 25 "BEV"]))
    as E by (vm_compute; reflexivity).
  rewrite E in Hr. injection Hr as <-. vm_compute in Hin.
  destruct Hin as [H|[H|[]]]; discriminate H.
Qed.

(** C7, as amended.  For the header ["Period", "Gazole", "Essence",
    "Electrique"] and the row ["2023_05", "100", "50", "25"] one file is
    written, 2023-05, with the entries GASOLINE 50 and BEV 25; with the
    header "Gazole (thermique)", which the table registers, its entries are
    DIESEL 100, GASOLINE 50 and BEV 25. *)
Theorem french_sheet_2023_05 :
  map_to_list (FR.processSheet gazoleSheet ∅)
  = [("data/FR/ev/2023-05.json",
      FR.record (Some 2023) (Some 5) [frEntry 50 "GASOLINE"; frEntry 25 "BEV"])]
  /\ map_to_list (FR.processSheet thermiqueSheet ∅)
     = [("data/FR/ev/2023-05.json",
         FR.record (Some 2023) (Some 5)
           [frEntry 100 "DIESEL"; frEntry 50 "GASOLINE"; frEntry 25 "BEV"])].
Proof. split; vm_compute; reflexivity. Qed.

(** * The PDF rows *)

Lemma dash_tokens_give_no_number variations text :
  ACEA.dashesOnly text = true \/ ACEA.hasSign text = true ->
  ACEA.numberOf variations text = None.
Proof.
  intros [H|H]; unfold ACEA.numberOf; destruct (existsb _ variations); try reflexivity;
    destruct (ACEA.hasSign text); try reflexivity; [now rewrite H | discriminate].
Qed.

(** The numbers of a row are its figures. *)
Lemma extractNumbers_figures variations row layout :
  Forall2 (shows variations) row layout ->
  ACEA.extractNumbers variations row = figures layout.
Proof.
  induction 1 as [|it t row layout Hit _ IH]; [reflexivity |].
  unfold ACEA.extractNumbers, figures in *. cbn [omap list_omap].
  destruct t as [|n| |]; cbn [shows] in Hit.
  - unfold ACEA.numberOf. rewrite Hit. exact IH.
  - rewrite Hit. now rewrite IH.
  - rewrite dash_tokens_give_no_number by now right. exact IH.
  - rewrite dash_tokens_give_no_number by now left. exact IH.
Qed.



(** The earlier extractor takes the same twelve numbers by their place in
    the full layout. *)
Remark text_extractor_shifts_degraded_row :
  ACEAText.slots "FR" [25000; 20000; 9000; 8000; 300; 200; 40000; 45000; 10000; 12000;
                       84300; 85200]
  = Ok [("BEV", 25000); ("PHEV", 9000); ("HYBRID", 300); ("DIESEL", 84300);
        ("GASOLINE", 10000); ("OTHER", 40000)].
Proof. reflexivity. Qed.

(** * Six entries, zeros kept *)

Lemma aggregate_positive row colMapping : forall agg,
  Forall (fun e => 0 < snd e) agg ->
  Forall (fun e => 0 < snd e) (Sheet.aggregate row colMapping agg).
Proof.
  induction colMapping as [|[j c] cm IH]; intros agg H; [exact H |].
  cbn [Sheet.aggregate]. apply IH.
  destruct (Z.ltb_spec 0 (Sheet.intOrZero (Sheet.cellAt row j))) as [Hv|_]; [| exact H].
  apply Forall_forall. intros e He. apply list_elem_of_In, set_In in He as [->|He].
  - cbn [snd]. assert (0 <= default 0 (Obj.get c agg)); [| lia].
    destruct (Obj.get c agg) as [t|] eqn:E; cbn; [| lia].
    apply get_In in E. rewrite Forall_forall in H.
    specialize (H (c, t) (proj2 (list_elem_of_In _ _) E)). cbn in H. lia.
  - rewrite Forall_forall in H. apply H. now apply list_elem_of_In.
Qed.

Lemma slots_six countryCode numbers r :
  ACEA.slots countryCode numbers = Ok r -> map fst r = sixCodes.
Proof. unfold ACEA.slots. destruct (_ <? _)%nat; [discriminate |]. now intros [= <-]. Qed.

Lemma output_totals year month rawData :
  Json.totals (ACEA.output year month rawData)
  = map (fun e => (Some (JStr (fst e)), Some (JNum (snd e)))) rawData.
Proof.
  unfold Json.totals, ACEA.output.
  change (Json.field "data" _) with (Some (JArr (map (fun item =>
    Json.entry "Toutes marques" "Tous modèles" (snd item) (fst item)) rawData))).
  cbn [Json.elements]. rewrite map_map. reflexivity.
Qed.

(** C10.  When an ACEA extractor succeeds it returns six entries, BEV,
    PHEV, HYBRID, DIESEL, GASOLINE, OTHER in this order, and
    [processAceaMonth] writes all six with their totals, zeros included; the
    spreadsheet path keeps no total that is not above zero. *)
Theorem pdf_extractor_keeps_six_entries :
  (* the extractor that reads positions *)
  (forall pdf countryCode rawData,
     ACEA.parsePdf pdf countryCode = Ok rawData ->
     map fst rawData = sixCodes
     /\ forall Buffer fetchFile getDocument year month outDir store pdfBuffer,
          ACEA.fetchAceaPdf Buffer fetchFile year month = Ok pdfBuffer ->
          getDocument pdfBuffer = Some pdf ->
          exists record,
            ACEA.processAceaMonth Buffer fetchFile getDocument year month countryCode outDir
              store !! Fs.join outDir (Util.monthCode year month ++ ".json") = Some record
            /\ Json.totals record
               = map (fun e => (Some (JStr (fst e)), Some (JNum (snd e)))) rawData)
  (* the extractor that reads the text *)
  /\ (forall countryCode numbers rawData,
        ACEAText.slots countryCode numbers = Ok rawData -> map fst rawData = sixCodes)
  (* the spreadsheet path keeps no total that is not above zero *)
  /\ (forall row colMapping,
        Forall (fun e => 0 < snd e) (Sheet.aggregate row colMapping [])).
Proof.
  repeat apply conj.
  - intros pdf countryCode rawData H. split.
    + unfold ACEA.parsePdf in H. destruct (ACEA.findCountryRow _ pdf); [| discriminate].
      now apply slots_six in H.
    + intros Buffer fetchFile getDocument year month outDir store pdfBuffer Hf Hd.
      exists (ACEA.output year month rawData). split; [| apply output_totals].
      unfold ACEA.processAceaMonth, ACEA.parsePdfData. rewrite Hf, Hd, H.
      unfold Fs.writeFileSync. apply lookup_insert_eq.
  - intros countryCode numbers rawData. unfold ACEAText.slots.
    destruct (_ <? _)%nat; [discriminate |]. now intros [= <-].
  - intros row colMapping. apply aggregate_positive. constructor.
Qed.

(** The sample page in May 2025: six entries are written, the hybrid zero
    among them. *)
Lemma degraded_row_is_written_with_its_zero :
  exists record,
    ACEA.processAceaMonth unit (fun _ => Some tt) (fun _ => Some [degradedPage]) 2025 5 "FR"
      "data/FR/ev" ∅ !! "data/FR/ev/2025-05.json" = Some record
    /\ Json.totals record
       = [(Some (JStr "BEV"), Some (JNum 25000)); (Some (JStr "PHEV"), Some (JNum 9000));
          (Some (JStr "HYBRID"), Some (JNum 0)); (Some (JStr "DIESEL"), Some (JNum 10000));
          (Some (JStr "GASOLINE"), Some (JNum 40000)); (Some (JStr "OTHER"), Some (JNum 300))].
Proof.
  apply (proj2 (proj1 pdf_extractor_keeps_six_entries [degradedPage] "FR"
                  [("BEV", 25000); ("PHEV", 9000); ("HYBRID", 0); ("DIESEL", 10000);
                   ("GASOLINE", 40000); ("OTHER", 300)]
                  ltac:(vm_compute; reflexivity))
           unit (fun _ => Some tt) (fun _ => Some [degradedPage]) 2025 5 "data/FR/ev" ∅ tt);
    reflexivity.
Defined.

(** * Further properties of the scripts *)

(** ** util.js: fetchFile *)

Section Redirects.

Context (get : string -> Result Util.IncomingMessage) (resolveUrl : string -> string -> string).

(** What the walk from [url] has to show, [more] being the URLs asked
    after it. *)
Let Walk (n : nat) (url : string) (asked : list string) (out : list string * Result string)
    : Prop :=
  exists more,
    fst out = (asked ++ url :: more)%list
    /\ (length more <= n)%nat
    /\ forall body,
         snd out = Ok body ->
         exists res, get (List.last (url :: more) "") = Ok res
                     /\ Util.statusCode res = 200 /\ Util.data res = body.

Lemma settle_walk n url asked res :
  get url = Ok res ->
  Walk n url asked
    (if Util.statusCode res =? 200 then ((asked ++ [url])%list, Ok (Util.data res))
     else ((asked ++ [url])%list, Throw ("HTTP error: " ++ Js.showZ (Util.statusCode res)))).
Proof.
  intros G. exists []. destruct (Z.eqb_spec (Util.statusCode res) 200) as [E|_]; cbn [fst snd].
  - split; [reflexivity |]. split; [cbn; lia |]. intros body [= <-].
    exists res. now split.
  - split; [reflexivity |]. split; [cbn; lia | discriminate].
Qed.

Lemma request_walk (n : nat) : forall url asked,
  Walk n url asked (Util.request get resolveUrl n url asked).
Proof.
  induction n as [|n IH]; intros url asked; cbn [Util.request];
    destruct (get url) as [res|e] eqn:G;
    try (exists []; cbn; split; [reflexivity |]; split; [lia | discriminate]).
  - destruct ((300 <=? _) && _); [destruct (Util.location res) as [[|c r]|] |];
      now apply settle_walk.
  - destruct ((300 <=? _) && _); [| now apply settle_walk].
    destruct (Util.location res) as [[|c r]|]; try now apply settle_walk.
    set (nextUrl := if Js.startsWith (String c r) "http" then String c r
                    else resolveUrl (String c r) url).
    destruct (IH nextUrl (asked ++ [url])%list) as (more & Hfst & Hlen & Hok).
    exists (nextUrl :: more). rewrite Hfst, <- app_assoc. split; [reflexivity |].
    split; [cbn; lia |]. exact Hok.
Qed.

Lemma request_loop (n : nat) : forall url asked,
  (forall u, exists res c r,
     get u = Ok res /\ 300 <= Util.statusCode res < 400
     /\ Util.location res = Some (String c r)) ->
  exists code more,
    Util.request get resolveUrl n url asked
    = ((asked ++ url :: more)%list, Throw ("HTTP error: " ++ Js.showZ code))
    /\ 300 <= code < 400 /\ length more = n.
Proof.
  induction n as [|n IH]; intros url asked H;
    destruct (H url) as (res & c & r & G & Hs & Hl); cbn [Util.request]; rewrite G, Hl;
    replace ((300 <=? Util.statusCode res) && (Util.statusCode res <? 400)) with true
      by (symmetry; apply andb_true_iff; split; [apply Z.leb_le | apply Z.ltb_lt]; lia).
  - replace (Util.statusCode res =? 200) with false by (symmetry; apply Z.eqb_neq; lia).
    exists (Util.statusCode res), []. repeat split; lia.
  - set (nextUrl := if Js.startsWith (String c r) "http" then String c r
                    else resolveUrl (String c r) url).
    destruct (IH nextUrl (asked ++ [url])%list H) as (code & more & E & Hc & Hlen).
    exists code, (nextUrl :: more). rewrite E, <- app_assoc. repeat split; cbn; lia.
Qed.

End Redirects.

(** X1.  [fetchFile] asks the URL it is given first and follows at most
    [maxRedirects] redirections, so it asks at most [maxRedirects + 1] URLs;
    it resolves only with the body of a response whose status is 200, the
    response of the last URL asked. *)
Theorem fetchFile_follows_at_most_maxRedirects get resolveUrl url (maxRedirects : nat) :
  exists more,
    fst (Util.fetchFile get resolveUrl url maxRedirects) = url :: more
    /\ (length more <= maxRedirects)%nat
    /\ forall body,
         snd (Util.fetchFile get resolveUrl url maxRedirects) = Ok body ->
         exists res, get (List.last (url :: more) "") = Ok res
                     /\ Util.statusCode res = 200 /\ Util.data res = body.
Proof. apply (request_walk get resolveUrl maxRedirects url []). Qed.



(** ** util.js: the keys of the months *)

Lemma showZ_inj n n' : Js.showZ n = Js.showZ n' -> n = n'.
Proof.
  assert (forall z, NilZero.int_of_string (Js.showZ z) = Some (Z.to_int z)) as H.
  { intros z. unfold Js.showZ. apply NilZero.isi; destruct z; cbn; try discriminate;
      intros [= E]; now apply DecimalPos.Unsigned.to_uint_nonnil in E. }
  intros E. apply DecimalZ.to_int_inj. pose proof (H n) as Hn. rewrite E, H in Hn. congruence.
Qed.

Lemma append_inv_same_length (a b s t : string) :
  a ++ s = b ++ t -> String.length s = String.length t -> a = b /\ s = t.
Proof.
  revert b. induction a as [|c a IH]; intros [|c' b] H Hl.
  - now split.
  - exfalso. apply (f_equal String.length) in H. cbn in H.
    change (String.length s = S (String.length (b ++ t))) in H.
    rewrite length_append in H. lia.
  - exfalso. apply (f_equal String.length) in H.
    change (S (String.length (a ++ s)) = String.length t) in H.
    rewrite length_append in H. lia.
  - change (String c (a ++ s) = String c' (b ++ t)) in H. injection H as -> H.
    destruct (IH b H Hl) as [-> ->]. now split.
Qed.

Lemma pad2_month m : 1 <= m <= 12 ->
  String.length (Js.pad2 m) = 2%nat /\ Js.parseInt (Js.pad2 m) = Some m.
Proof.
  intros Hm. pose proof (proj1 (forallb_forall _ _) months_shown m (In_range _ _ _ Hm)) as M.
  unfold monthOk in M. apply andb_true_iff in M as [M M3]. apply andb_true_iff in M as [M1 _].
  apply bool_decide_eq_true in M3. split; [now apply Nat.eqb_eq | exact M3].
Qed.

(** Two months of the year with the same key are the same month. *)
Lemma monthCode_inj y m y' m' :
  1 <= m <= 12 -> 1 <= m' <= 12 -> Util.monthCode y m = Util.monthCode y' m' ->
  y = y' /\ m = m'.
Proof.
  intros Hm Hm' E. unfold Util.monthCode in E.
  destruct (pad2_month m Hm) as [L P]. destruct (pad2_month m' Hm') as [L' P'].
  apply append_inv_same_length in E as [Ey Em].
  - split; [now apply showZ_inj |].
    change ("-" ++ Js.pad2 m) with (String "-"%char (Js.pad2 m)) in Em.
    change ("-" ++ Js.pad2 m') with (String "-"%char (Js.pad2 m')) in Em.
    injection Em as Em. rewrite Em in P. congruence.
  - change (S (String.length (Js.pad2 m)) = S (String.length (Js.pad2 m'))). congruence.
Qed.

Lemma NoDup_range lo hi : NoDup (Util.range lo hi).
Proof.
  unfold Util.range. apply NoDup_fmap_2_strong; [| apply NoDup_seq].
  intros a b _ _ H. lia.
Qed.

Lemma NoDup_map_by {A B C} (f : A -> B) (g : A -> C) (l : list A) :
  (forall x y, In x l -> In y l -> f x = f y -> g x = g y) ->
  NoDup (map g l) -> NoDup (map f l).
Proof.
  induction l as [|x l IH]; intros H Hg; [constructor |].
  cbn [map] in *. apply NoDup_cons in Hg as [Hx Hg]. apply NoDup_cons. split.
  - intros Hin. apply Hx. apply list_elem_of_In, in_map_iff in Hin as (y & E & Hy).
    apply list_elem_of_In, in_map_iff. exists y. split; [| exact Hy].
    apply H; [now right | now left | exact E].
  - apply IH; [| exact Hg]. intros a b Ha Hb. apply H; now right.
Qed.

(** X3.  The keys [getMonthsSinceStart] gives are pairwise distinct: no two
    months of a range share a key, hence a file. *)
Theorem month_keys_are_distinct (startYear : Z) (now : Util.Clock) :
  1 <= Util.currentMonth now <= 12 ->
  NoDup (map Util.code (Util.getMonthsSinceStart startYear now)).
Proof.
  intros Hm. apply (NoDup_map_by _ ordinal).
  - pose proof (months_wellformed now startYear Hm) as W. rewrite Forall_forall in W.
    intros x y Hx Hy E.
    destruct (W x (proj2 (list_elem_of_In _ _) Hx)) as [Mx Cx].
    destruct (W y (proj2 (list_elem_of_In _ _) Hy)) as [My Cy].
    rewrite Cx, Cy in E. apply monthCode_inj in E as [Ey Em]; [| assumption..].
    unfold ordinal. now rewrite Ey, Em.
  - unfold Util.getMonthsSinceStart.
    rewrite (ordinal_years now _ startYear Hm eq_refl). apply NoDup_range.
Qed.

(** The fifteen keys from 2020-01 to 2021-03. *)
Lemma month_keys_2020_to_2021_03_are_distinct :
  NoDup (map Util.code (Util.getMonthsSinceStart 2020 (Util.mkClock 2021 3))).
Proof. apply month_keys_are_distinct. cbn. lia. Defined.

(** ** NL.js, ACEA.js: what a run leaves to do *)

Lemma filter_both {A} (f g h : A -> bool) (l : list A) :
  (forall x, In x l -> f x = h x && g x) ->
  List.filter f l = List.filter g (List.filter h l).
Proof.
  induction l as [|x l IH]; intros H; [reflexivity |].
  cbn [List.filter]. rewrite (H x) by now left.
  rewrite IH by (intros y Hy; apply H; now right).
  destruct (h x); cbn [andb List.filter]; [destruct (g x) |]; reflexivity.
Qed.

Section Untouched.

Context {X : Type} (path : X -> string) (content : X -> option json).

(** A file no item with a record goes to is left as it is. *)
Lemma fold_write_untouched xs : forall st p,
  (forall x, In x xs -> path x = p -> content x = None) ->
  fold_left (fun s x => write path content x s) xs st !! p = st !! p.
Proof.
  induction xs as [|y xs IH]; intros st p H; [reflexivity |].
  cbn [fold_left]. rewrite IH by (intros x Hin; apply H; now right).
  unfold write. destruct (content y) as [v|] eqn:E; [| reflexivity].
  unfold Fs.writeFileSync. apply lookup_insert_ne. intros Hp.
  rewrite (H y (or_introl eq_refl) Hp) in E. discriminate.
Qed.

(** After a run the items without a file are the items that had none and
    have no record, when the items that share a file share their record. *)
Lemma writeMissing_leaves xs st :
  (forall x y, In x xs -> In y xs -> path x = path y -> content x = content y) ->
  List.filter (fun x => negb (Fs.existsSync (writeMissing path content xs st) (path x))) xs
  = List.filter (fun x => bool_decide (content x = None))
      (List.filter (fun x => negb (Fs.existsSync st (path x))) xs).
Proof.
  intros Hsame.
  assert (forall x, In x xs ->
            negb (Fs.existsSync (writeMissing path content xs st) (path x))
            = negb (Fs.existsSync st (path x)) && bool_decide (content x = None)) as Hx.
  { intros x Hin. destruct (Fs.existsSync st (path x)) eqn:E; cbn [negb andb].
    - apply negb_false_iff, existsSync_true.
      apply existsSync_true in E as [v Hv]. exists v. now apply writeMissing_once.
    - destruct (content x) as [v|] eqn:Hc.
      + rewrite bool_decide_eq_false_2 by discriminate.
        apply negb_false_iff, existsSync_true. unfold writeMissing.
        apply (fold_write_written _ _ _ _ _ v); [| exact Hc].
        apply filter_In. split; [exact Hin |]. now rewrite E.
      + rewrite bool_decide_eq_true_2 by reflexivity.
        apply negb_true_iff, existsSync_false. unfold writeMissing.
        rewrite fold_write_untouched; [now apply existsSync_false |].
        intros y Hy Hp. apply filter_In in Hy as [Hy _].
        now rewrite (Hsame y x Hy Hin Hp). }
  now apply filter_both.
Qed.

End Untouched.

(** X4.  After a Dutch run the months still without a file are the months
    that had none before it and whose data could not be fetched or counted
    no fuel: every other missing month has been written. *)
Theorem nl_run_leaves_the_failed_months rdw now store :
  Util.filterMissingMonths (Util.getMonthsSinceStart 2019 now) NL.outputDir Util.codeJson
    (NL.files (NL.fetchAllEVData rdw now store))
  = List.filter (nlFails rdw)
      (Util.filterMissingMonths (Util.getMonthsSinceStart 2019 now) NL.outputDir
         Util.codeJson store).
Proof.
  rewrite nl_fetchAll_writeMissing. unfold Util.filterMissingMonths.
  change (fun m => negb (Fs.existsSync ?s (Fs.join NL.outputDir (Util.codeJson m))))
    with (fun m => negb (Fs.existsSync s (nlPath m))).
  rewrite (writeMissing_leaves nlPath (nlContent rdw)).
  - apply filter_ext. intros m. unfold nlFails, nlContent.
    destruct (NL.fetchMonthData rdw (Util.code m)) as [fd|]; [| reflexivity].
    destruct (Obj.keys fd); reflexivity.
  - intros x y _ _ E. apply json_path_inj in E. unfold nlContent. now rewrite E.
Qed.

(** X5.  After an ACEA run the months still without a file are the months
    that had none before it and whose PDF could not be fetched or read. *)
Theorem acea_run_leaves_the_failed_months Buffer fetchFile getDocument now countryCode
    startYear store :
  1 <= Util.currentMonth now <= 12 ->
  Util.filterMissingMonths (Util.getMonthsSinceStart startYear now)
    (ACEA.outDirOf countryCode) Util.codeJson
    (ACEA.collectAceaData Buffer fetchFile getDocument now countryCode startYear store)
  = List.filter (fun m =>
      bool_decide (aceaContent Buffer fetchFile getDocument countryCode m = None))
      (Util.filterMissingMonths (Util.getMonthsSinceStart startYear now)
         (ACEA.outDirOf countryCode) Util.codeJson store).
Proof.
  intros Hm. rewrite collectAceaData_writeMissing. unfold Util.filterMissingMonths.
  change (fun m => negb (Fs.existsSync ?s (Fs.join (ACEA.outDirOf countryCode) (Util.codeJson m))))
    with (fun m => negb (Fs.existsSync s (aceaPath countryCode m))).
  apply (writeMissing_leaves (aceaPath countryCode)).
  pose proof (months_wellformed now startYear Hm) as W. rewrite Forall_forall in W.
  intros x y Hx Hy E. apply json_path_inj in E.
  destruct (W x (proj2 (list_elem_of_In _ _) Hx)) as [Mx Cx].
  destruct (W y (proj2 (list_elem_of_In _ _) Hy)) as [My Cy].
  rewrite Cx, Cy in E. apply monthCode_inj in E as [Ey Em]; [| assumption..].
  unfold aceaContent. now rewrite Ey, Em.
Qed.

(** In February 2024 with the PDF of January alone: February is left. *)
Lemma acea_february_is_left :
  map Util.code
    (Util.filterMissingMonths (Util.getMonthsSinceStart 2024 (Util.mkClock 2024 2))
       (ACEA.outDirOf "FR") Util.codeJson
       (ACEA.collectAceaData unit januaryOnly (fun _ => Some [degradedPage])
          (Util.mkClock 2024 2) "FR" 2024 ∅))
  = ["2024-02"].
Proof.
  rewrite (acea_run_leaves_the_failed_months unit januaryOnly (fun _ => Some [degradedPage])
             (Util.mkClock 2024 2) "FR" 2024 ∅ ltac:(cbn; lia)).
  vm_compute. reflexivity.
Defined.

(** ** NO.js: month codes, batches and the count of saved files *)

(** X6.  For a month with a four-digit year, [saveMonthlyData] reads the
    month code of the API back into the year and the month it was made
    from: when some total is above zero it writes the file
    [filterMissingMonths] looked for, with that year and month, and when
    none is it writes nothing and returns [false]. *)
Theorem no_saveMonthlyData_reads_the_code_back (m : Util.MonthInfo) fuelData store :
  1000 <= Util.year m <= 9999 -> 1 <= Util.month m <= 12 ->
  NO.saveMonthlyData (NO.apiCode m) fuelData store
  = match NO.dataOf fuelData with
    | [] => (false, store)
    | data =>
        (true,
         Fs.writeFileSync (Fs.join NO.outDir (NO.fileNamer m))
           (NO.output (Some (Util.year m)) (Some (Util.month m)) data) store)
    end.
Proof.
  intros Hy Hm. unfold NO.saveMonthlyData, NO.apiCode, NO.fileNamer.
  destruct (matchMonth_apiCode _ _ Hy Hm) as (-> & -> & ->). reflexivity.
Qed.

(** January 2024 with seven electric cars and no fossil one. *)
Lemma no_2024M01_is_read_back :
  NO.saveMonthlyData "2024M01" [("19", 7); ("20", 0)] ∅
  = (true,
     {[ "data/NO/ev/2024-01.json" :=
          NO.output (Some 2024) (Some 1) [Json.entry "Toutes marques" "Tous modÃ¨les" 7 "BEV"] ]}).
Proof.
  rewrite (no_saveMonthlyData_reads_the_code_back (Util.mkMonth 2024 1 "2024-01")
             [("19", 7); ("20", 0)] ∅ ltac:(cbn; lia) ltac:(cbn; lia)).
  reflexivity.
Defined.

Lemma slice_length {A} i n (l : list A) :
  length (NO.slice i n l) = Nat.min n (length l - i).
Proof. unfold NO.slice. now rewrite length_take, length_drop. Qed.

Lemma fold_left_mapped {A B C} (f : A -> C -> A) (g : B -> C) (l : list B) : forall a,
  fold_left f (map g l) a = fold_left (fun a x => f a (g x)) l a.
Proof. induction l as [|x l IH]; intros a; [reflexivity |]. cbn. apply IH. Qed.

(** X7.  The Norwegian loop takes the missing months in batches, the
    missing months cut in runs of at most 36: put end to end the batches
    are the missing months, each asked for once, and no batch is empty. *)
Theorem no_batches_cut_the_missing_months :
  (forall fetchJson now store,
     NO.fetchAllEVData fetchJson now store
     = fold_left (fun p batch => NO.processBatch fetchJson batch p)
         (noBatches (Util.filterMissingMonths
                       (map NO.withApiCode (Util.getMonthsSinceStart 2011 now))
                       NO.outDir NO.fileNamer store))
         (NO.mkProgress store 0))
  /\ (forall missingMonths : list Util.MonthInfo,
        concat (noBatches missingMonths) = missingMonths
        /\ Forall (fun batch => (1 <= length batch <= 36)%nat) (noBatches missingMonths)).
Proof.
  split.
  - intros fetchJson now store. unfold NO.fetchAllEVData, noBatches.
    now rewrite fold_left_mapped.
  - intros missingMonths. split; [apply concat_batches |].
    unfold noBatches, NO.batchStarts. apply Forall_map, Forall_map.
    apply Forall_forall. intros k Hk. apply list_elem_of_In, in_seq in Hk.
    rewrite slice_length. unfold NO.batchSize in *.
    pose proof (Nat.div_mod_eq (length missingMonths + 36 - 1) 36) as E.
    pose proof (Nat.mod_upper_bound (length missingMonths + 36 - 1) 36 ltac:(lia)) as U.
    lia.
Qed.

Section NoCount.

Context (fetchJson : list string -> Result NO.Response).

Lemma no_saveMonthlyData_fst monthCode fuelData store :
  fst (NO.saveMonthlyData monthCode fuelData store) = noSaves monthCode fuelData.
Proof.
  unfold noSaves, NO.saveMonthlyData.
  destruct (NO.matchMonth monthCode) as [[y monthStr]|]; [| reflexivity].
  destruct (NO.dataOf fuelData); reflexivity.
Qed.

Lemma no_saveBatch_count results monthCodes : forall p,
  NO.totalSaved (NO.saveBatch results monthCodes p)
  = NO.totalSaved p
    + Z.of_nat (length (List.filter (fun monthCode =>
        match Obj.get monthCode results with
        | Some fuelData => noSaves monthCode fuelData
        | None => false
        end) monthCodes)).
Proof.
  induction monthCodes as [|c cs IH]; intros p; [cbn; lia |].
  cbn [NO.saveBatch fold_left List.filter]. unfold NO.saveBatch in IH. rewrite IH.
  destruct (Obj.get c results) as [fd|]; [| lia].
  cbn [NO.totalSaved]. rewrite no_saveMonthlyData_fst.
  destruct (noSaves c fd); cbn [length]; lia.
Qed.

Lemma no_fetchOneByOne_count monthCodes : forall p,
  NO.totalSaved (NO.fetchOneByOne fetchJson monthCodes p)
  = NO.totalSaved p
    + Z.of_nat (length (List.filter (fun monthCode =>
        bool_decide (is_Some (single fetchJson monthCode))) monthCodes)).
Proof.
  induction monthCodes as [|c cs IH]; intros p; [cbn; lia |].
  cbn [NO.fetchOneByOne fold_left List.filter]. unfold NO.fetchOneByOne in IH. rewrite IH.
  unfold single. destruct (NO.fetchMonthsBatch fetchJson [c]) as [results|].
  - destruct (Obj.get c results) as [fd|].
    + rewrite bool_decide_eq_true_2 by eauto. cbn [NO.totalSaved length]. lia.
    + rewrite bool_decide_eq_false_2 by (intros [? ?]; discriminate). lia.
  - rewrite bool_decide_eq_false_2 by (intros [? ?]; discriminate). lia.
Qed.

End NoCount.

(** X8.  [totalSaved] is not always the number of files saved.  When the
    request for a batch is answered it grows by one for each month of the
    batch whose data [saveMonthlyData] saves; when the request fails and the
    months are asked for one by one, it grows by one for each month the API
    answers, saved or not. *)
Theorem no_totalSaved_counts fetchJson (batch : list Util.MonthInfo) p :
  NO.totalSaved (NO.processBatch fetchJson batch p)
  = NO.totalSaved p
    + match NO.fetchMonthsBatch fetchJson (map Util.code batch) with
      | Ok results =>
          Z.of_nat (length (List.filter (fun monthCode =>
            match Obj.get monthCode results with
            | Some fuelData => noSaves monthCode fuelData
            | None => false
            end) (map Util.code batch)))
      | Throw _ =>
          Z.of_nat (length (List.filter (fun monthCode =>
            bool_decide (is_Some (single fetchJson monthCode))) (map Util.code batch)))
      end.
Proof.
  unfold NO.processBatch.
  destruct (NO.fetchMonthsBatch fetchJson (map Util.code batch)) as [results|].
  - apply no_saveBatch_count.
  - apply no_fetchOneByOne_count.
Qed.

(** ** Objects: keys stay distinct *)

Lemma set_map_fst {A} k (v : A) o :
  map fst (Obj.set k v o)
  = if existsb (fun k' => String.eqb k' k) (map fst o) then map fst o
    else (map fst o ++ [k])%list.
Proof.
  induction o as [|[k' v'] o IH]; [reflexivity |].
  cbn [Obj.set map fst existsb]. destruct (String.eqb k' k); [reflexivity |].
  cbn [map fst orb]. rewrite IH. now destruct (existsb _ (map fst o)).
Qed.

Lemma set_NoDup {A} k (v : A) o : NoDup (map fst o) -> NoDup (map fst (Obj.set k v o)).
Proof.
  intros H. rewrite set_map_fst. destruct (existsb _ (map fst o)) eqn:E; [exact H |].
  apply NoDup_app. split; [exact H |]. split; [| apply NoDup_singleton].
  intros x Hx Hk. apply list_elem_of_In in Hk as [<-|[]].
  assert (existsb (fun k' => String.eqb k' k) (map fst o) = true); [| congruence].
  apply existsb_exists. exists k. split; [now apply list_elem_of_In | apply String.eqb_refl].
Qed.

Lemma set_Forall {A} (P : string * A -> Prop) k v o :
  P (k, v) -> Forall P o -> Forall P (Obj.set k v o).
Proof.
  intros Hk H. apply Forall_forall. intros e He.
  apply list_elem_of_In, set_In in He as [->|He]; [exact Hk |].
  rewrite Forall_forall in H. apply H. now apply list_elem_of_In.
Qed.

Lemma insertIndexed_perm {A} n (e : string * A) l :
  map snd (Obj.insertIndexed n e l) ≡ₚ e :: map snd l.
Proof.
  induction l as [|[m e'] l IH]; [reflexivity |].
  cbn [Obj.insertIndexed]. destruct (n <? m); [reflexivity |].
  cbn [map snd]. rewrite IH. apply Permutation_swap.
Qed.

(** [Object.entries] lists every property once. *)
Lemma entries_perm {A} (o : list (string * A)) : Obj.entries o ≡ₚ o.
Proof.
  unfold Obj.entries, Obj.named. induction o as [|[k v] o IH]; [reflexivity |].
  cbn [Obj.indexed List.filter fst]. destruct (Obj.indexKey k) as [n|] eqn:E.
  - rewrite bool_decide_eq_false_2 by discriminate.
    rewrite insertIndexed_perm. cbn. now rewrite IH.
  - rewrite bool_decide_eq_true_2 by reflexivity.
    rewrite <- Permutation_middle. now rewrite IH.
Qed.

Lemma entries_NoDup {A} (o : list (string * A)) :
  NoDup (map fst o) -> NoDup (map fst (Obj.entries o)).
Proof. intros H. now rewrite entries_perm. Qed.

Lemma entries_Forall {A} (P : string * A -> Prop) o : Forall P o -> Forall P (Obj.entries o).
Proof. intros H. now rewrite entries_perm. Qed.

(** ** Records that are filled *)

Lemma totals_record (y m region type : json) marque modele (l : list (string * Z))
    (code : string * Z -> string) :
  Json.totals
    (JObj [("year", y); ("month", m);
           ("data", JArr (map (fun ft => Json.entry marque modele (snd ft) (code ft)) l));
           ("region", region); ("type", type)])
  = entriesOf (map (fun ft => (code ft, snd ft)) l).
Proof.
  unfold Json.totals, entriesOf.
  change (Json.field "data" _) with (Some (JArr (map (fun ft =>
    Json.entry marque modele (snd ft) (code ft)) l))).
  cbn [Json.elements]. rewrite !map_map. reflexivity.
Qed.

Lemma map_pair_id {A B} (l : list (A * B)) : map (fun e => (fst e, snd e)) l = l.
Proof. induction l as [|[a b] l IH]; [reflexivity |]. cbn. now rewrite IH. Qed.

Lemma sound_record codes (y m region type : json) marque modele (l : list (string * Z)) :
  l <> [] -> Counts codes l -> NoDup (map fst l) ->
  Sound codes
    (JObj [("year", y); ("month", m);
           ("data", JArr (map (fun ft => Json.entry marque modele (snd ft) (fst ft)) l));
           ("region", region); ("type", type)]).
Proof.
  intros Hne Hc Hd. exists l. rewrite (totals_record _ _ _ _ _ _ _ fst), map_pair_id.
  now repeat split.
Qed.

Lemma allRecords_empty (P : json -> Prop) : AllRecords P ∅.
Proof. intros p j H. rewrite lookup_empty in H. discriminate H. Qed.

Lemma allRecords_write (P : json -> Prop) store p j :
  AllRecords P store -> P j -> AllRecords P (Fs.writeFileSync p j store).
Proof.
  intros Hs Hj q k. unfold Fs.writeFileSync. destruct (decide (p = q)) as [->|Hne].
  - rewrite lookup_insert_eq. now intros [= <-].
  - rewrite lookup_insert_ne by exact Hne. apply Hs.
Qed.

Lemma allRecords_fold (P : json -> Prop) {X} (step : X -> Store -> Store) xs :
  (forall x st, In x xs -> AllRecords P st -> AllRecords P (step x st)) ->
  forall st, AllRecords P st -> AllRecords P (fold_left (fun s x => step x s) xs st).
Proof.
  induction xs as [|x xs IH]; intros Hstep st Hst; [exact Hst |].
  cbn [fold_left]. apply IH; [intros y s Hy; apply Hstep; now right |].
  apply Hstep; [now left | exact Hst].
Qed.

Lemma allRecords_guarded (P : json -> Prop) (rec : option (string * json)) st :
  (forall p j, rec = Some (p, j) -> P j) -> AllRecords P st ->
  AllRecords P
    match rec with
    | None => st
    | Some (outPath, content) =>
        if Fs.existsSync st outPath then st else Fs.writeFileSync outPath content st
    end.
Proof.
  intros Hrec Hst. destruct rec as [[p j]|]; [| exact Hst].
  destruct (Fs.existsSync st p); [exact Hst |].
  apply allRecords_write; [exact Hst | now apply (Hrec p j)].
Qed.

(** ** Spreadsheets: sums above zero, one entry for a code *)

Lemma aggregate_counts codes row colMapping : forall agg,
  Forall (fun jc => In (snd jc) codes) colMapping ->
  Counts codes agg -> NoDup (map fst agg) ->
  Counts codes (Sheet.aggregate row colMapping agg)
  /\ NoDup (map fst (Sheet.aggregate row colMapping agg)).
Proof.
  induction colMapping as [|[j c] cm IH]; intros agg Hcm Hagg Hd; [now split |].
  apply Forall_cons in Hcm as [Hc Hcm]. cbn [snd] in Hc. cbn [Sheet.aggregate].
  destruct (Z.ltb_spec 0 (Sheet.intOrZero (Sheet.cellAt row j))) as [Hv|_];
    [| now apply IH].
  apply IH; [exact Hcm | | now apply set_NoDup].
  apply set_Forall; [| exact Hagg]. split; [exact Hc |]. cbn [snd].
  destruct (Obj.get c agg) as [t|] eqn:E; cbn; [| lia].
  apply get_In in E. unfold Counts in Hagg. rewrite Forall_forall in Hagg.
  destruct (Hagg (c, t) (proj2 (list_elem_of_In _ _) E)) as [_ Ht]. cbn in Ht. lia.
Qed.

Lemma dataOf_sound codes y m region type marque modele agg :
  Sheet.dataOf marque modele agg <> [] ->
  Counts codes agg -> NoDup (map fst agg) ->
  Sound codes
    (JObj [("year", y); ("month", m);
           ("data", JArr (Sheet.dataOf marque modele agg));
           ("region", region); ("type", type)]).
Proof.
  intros Hne Hc Hd. unfold Sheet.dataOf in *. apply sound_record.
  - intros E. apply Hne. now rewrite E.
  - now apply entries_Forall.
  - now apply entries_NoDup.
Qed.

Lemma mapColumns_fuels normalize codes row : forall j,
  (forall label, In (normalize label) ("OTHER" :: "UNKNOWN" :: codes)) ->
  Forall (fun jc => In (snd jc) codes) (Sheet.mapColumns normalize row j).
Proof.
  intros j H. revert j. induction row as [|c row IH]; intros j; [constructor |].
  cbn [Sheet.mapColumns]. destruct c as [val| |]; try apply IH.
  destruct (String.eqb_spec (normalize (Some val)) "OTHER") as [|Ho]; [apply IH |].
  destruct (String.eqb_spec (normalize (Some val)) "UNKNOWN") as [|Hu]; [apply IH |].
  cbn [negb andb]. constructor; [| apply IH]. cbn [snd].
  destruct (H (Some val)) as [E|[E|E]]; [congruence | congruence | exact E].
Qed.

Ltac in_list := cbn [In]; repeat (first [left; reflexivity | right]).

Lemma french_names label :
  In (FR.normalizeFrenchFuel label) ("OTHER" :: "UNKNOWN" :: fiveCodes).
Proof.
  unfold FR.normalizeFrenchFuel, FR.normalizeWith, fiveCodes.
  destruct label as [[|c r]|]; [in_list | | in_list].
  apply scanAliases_range; [in_list | | in_list]. unfold FR.FRENCH_FUEL_MAP, aliasPairs.
  cbn [flat_map map fst snd app].
  repeat (apply List.Forall_cons; [in_list |]). apply List.Forall_nil.
Qed.

Lemma chinese_names label :
  In (CN.normalizeChineseFuel label) ("OTHER" :: "UNKNOWN" :: chineseSheetCodes).
Proof.
  unfold CN.normalizeChineseFuel, chineseSheetCodes.
  destruct label as [[|c r]|]; [in_list | | in_list].
  apply firstContained_range; [in_list |]. unfold CN.CHINESE_FUEL_MAP, aliasPairs.
  cbn [flat_map map fst snd app].
  repeat (apply List.Forall_cons; [in_list |]). apply List.Forall_nil.
Qed.

Lemma fr_rowRecord_sound colDate colMapping row p j :
  Forall (fun jc => In (snd jc) fiveCodes) colMapping ->
  FR.rowRecord colDate colMapping row = Some (p, j) -> Sound fiveCodes j.
Proof.
  intros Hcm. unfold FR.rowRecord. destruct colDate as [d|]; [| discriminate].
  destruct (Sheet.falsy _); [discriminate |]. destruct (negb _); [discriminate |].
  destruct (Js.split _ _) as [|yStr [|mStr [|]]]; try discriminate.
  destruct (Sheet.dataOf _ _ _) eqn:E; [discriminate |]. rewrite <- E.
  intros [= _ <-].
  destruct (aggregate_counts fiveCodes row colMapping [] Hcm) as [Hc Hd];
    [constructor | constructor |].
  apply dataOf_sound; [rewrite E; discriminate | exact Hc | exact Hd].
Qed.

Lemma cn_rowRecord_sound colDate colMapping row p j :
  Forall (fun jc => In (snd jc) chineseSheetCodes) colMapping ->
  CN.rowRecord colDate colMapping row = Some (p, j) -> Sound chineseSheetCodes j.
Proof.
  intros Hcm. unfold CN.rowRecord. destruct colDate as [d|]; [| discriminate].
  destruct (Sheet.falsy _); [discriminate |].
  destruct (CN.splitPeriod _) as [[yStr mStr]|]; [| discriminate].
  destruct (Sheet.dataOf _ _ _) eqn:E; [discriminate |]. rewrite <- E.
  intros [= _ <-].
  destruct (aggregate_counts chineseSheetCodes row colMapping [] Hcm) as [Hc Hd];
    [constructor | constructor |].
  apply dataOf_sound; [rewrite E; discriminate | exact Hc | exact Hd].
Qed.

(** X9.  The records the spreadsheet parsers write are filled: at least one
    entry, one entry for a code at most, every total above zero, and no
    entry for OTHER or UNKNOWN: the French codes are DIESEL, GASOLINE,
    HYBRID, PHEV and BEV, the Chinese ones these and FCEV.  Said of the
    store: what holds of its files before a run holds after it. *)
Theorem spreadsheet_records_are_filled :
  (forall rows store,
     AllRecords (Sound fiveCodes) store ->
     AllRecords (Sound fiveCodes) (FR.processSheet rows store))
  /\ (forall rows store,
        AllRecords (Sound chineseSheetCodes) store ->
        AllRecords (Sound chineseSheetCodes) (CN.processSheet rows store)).
Proof.
  split; intros rows store H.
  - unfold FR.processSheet.
    destruct (FR.findHeader rows) as [[[below colDate] colMapping]|] eqn:E; [| exact H].
    apply (allRecords_fold _ (FR.processRow colDate colMapping)); [| exact H].
    intros row st _ Hst. unfold FR.processRow. apply allRecords_guarded; [| exact Hst].
    intros p j. apply fr_rowRecord_sound.
    clear -E. revert E. induction rows as [|row rows IH]; cbn [FR.findHeader]; [discriminate |].
    destruct (FR.hasFuelRef row); [| exact IH].
    intros [= _ _ <-]. apply mapColumns_fuels, french_names.
  - unfold CN.processSheet.
    destruct (CN.findHeader rows) as [[[below colDate] colMapping]|] eqn:E; [| exact H].
    apply (allRecords_fold _ (CN.processRow colDate colMapping)); [| exact H].
    intros row st _ Hst. unfold CN.processRow. apply allRecords_guarded; [| exact Hst].
    intros p j. apply cn_rowRecord_sound.
    clear -E. revert E. induction rows as [|row rows IH]; cbn [CN.findHeader]; [discriminate |].
    destruct (CN.hasFuelRef row); [| exact IH].
    intros [= _ _ <-]. apply mapColumns_fuels, chinese_names.
Qed.

(** The record of the French sample sheet is filled. *)
Lemma french_2023_05_is_filled :
  Sound fiveCodes
    (FR.record (Some 2023) (Some 5)
       [frEntry 100 "DIESEL"; frEntry 50 "GASOLINE"; frEntry 25 "BEV"]).
Proof.
  apply (proj1 spreadsheet_records_are_filled thermiqueSheet ∅ (allRecords_empty _)
           "data/FR/ev/2023-05.json").
  vm_compute. reflexivity.
Defined.

(** ** The German figures *)

Lemma de_putPositive_get code v fuelData k :
  Obj.get k (DE.putPositive code v fuelData)
  = if String.eqb code k
    then match positive v with Some x => Some x | None => Obj.get k fuelData end
    else Obj.get k fuelData.
Proof.
  unfold DE.putPositive, positive. destruct (String.eqb_spec code k) as [->|Hne].
  - destruct v as [x|]; [| reflexivity]. destruct (0 <? x); [apply get_set_eq | reflexivity].
  - destruct v as [x|]; [| reflexivity].
    destruct (0 <? x); [now apply get_set_ne | reflexivity].
Qed.

(** X10.  What the German parser reads in the total row: the electric,
    diesel, plug-in and hybrid figures that are above zero, and a gasoline
    figure that is computed: the total less diesel, hybrids and electric.
    Without a column of all hybrids the electric and the diesel figure are
    taken off twice.  A gasoline figure of zero or less is left out. *)
Theorem de_gasoline_is_the_remainder (t : DE.KbaTotals) :
  Obj.get "BEV" (DE.fuelDataOf t) = positive (DE.kBEV t)
  /\ Obj.get "DIESEL" (DE.fuelDataOf t) = positive (DE.kDIESEL t)
  /\ Obj.get "PHEV" (DE.fuelDataOf t) = positive (DE.kPHEV t)
  /\ Obj.get "HYBRID" (DE.fuelDataOf t) = positive (DE.kHYBRID t)
  /\ Obj.get "GASOLINE" (DE.fuelDataOf t) = positive (Some (germanRemainder t)).
Proof.
  unfold DE.fuelDataOf. cbn zeta.
  set (fd := DE.putPositive "HYBRID" _ _).
  assert (Obj.get "BEV" fd = positive (DE.kBEV t)) as Hb.
  { unfold fd. rewrite !de_putPositive_get. cbn [String.eqb Ascii.eqb Bool.eqb Obj.get].
    now destruct (positive (DE.kBEV t)). }
  assert (Obj.get "DIESEL" fd = positive (DE.kDIESEL t)) as Hd.
  { unfold fd. rewrite !de_putPositive_get. cbn [String.eqb Ascii.eqb Bool.eqb Obj.get].
    now destruct (positive (DE.kDIESEL t)). }
  assert (Obj.get "PHEV" fd = positive (DE.kPHEV t)) as Hp.
  { unfold fd. rewrite !de_putPositive_get. cbn [String.eqb Ascii.eqb Bool.eqb Obj.get].
    now destruct (positive (DE.kPHEV t)). }
  assert (Obj.get "HYBRID" fd = positive (DE.kHYBRID t)) as Hh.
  { unfold fd. rewrite !de_putPositive_get. cbn [String.eqb Ascii.eqb Bool.eqb Obj.get].
    now destruct (positive (DE.kHYBRID t)). }
  assert (Obj.get "GASOLINE" fd = None) as Hg.
  { unfold fd. rewrite !de_putPositive_get. reflexivity. }
  rewrite Hb, Hd, Hp, Hh.
  set (g := _ - _ - _ - _).
  assert (g = germanRemainder t) as Eg.
  { unfold g, germanRemainder. destruct (DE.kALL_HYBRIDS t); cbn zeta; lia. }
  unfold positive at 5. rewrite <- Eg. destruct (0 <? g).
  - rewrite get_set_eq, !get_set_ne by discriminate. now rewrite Hb, Hd, Hp, Hh.
  - now rewrite Hb, Hd, Hp, Hh, Hg.
Qed.

Lemma de_putPositive_sound code v fuelData :
  In code germanCodes ->
  Counts germanCodes fuelData /\ NoDup (map fst fuelData) ->
  Counts germanCodes (DE.putPositive code v fuelData)
  /\ NoDup (map fst (DE.putPositive code v fuelData)).
Proof.
  intros Hc [H Hd]. unfold DE.putPositive. destruct v as [x|]; [| now split].
  destruct (Z.ltb_spec 0 x); [| now split].
  split; [apply set_Forall; [now split | exact H] | now apply set_NoDup].
Qed.

Lemma de_fuelDataOf_sound t :
  Counts germanCodes (DE.fuelDataOf t) /\ NoDup (map fst (DE.fuelDataOf t)).
Proof.
  unfold DE.fuelDataOf. cbn zeta. set (fd := DE.putPositive "HYBRID" _ _).
  assert (Counts germanCodes fd /\ NoDup (map fst fd)) as [H Hd].
  { unfold fd. repeat (apply de_putPositive_sound; [unfold germanCodes; in_list |]).
    split; constructor. }
  destruct (Z.ltb_spec 0 (default 0 (DE.kTOTAL t) - default 0 (Obj.get "DIESEL" fd)
            - match DE.kALL_HYBRIDS t with
              | Some h => h
              | None => default 0 (Obj.get "BEV" fd) + default 0 (Obj.get "DIESEL" fd)
                        + default 0 (Obj.get "PHEV" fd) + default 0 (Obj.get "HYBRID" fd)
              end - default 0 (Obj.get "BEV" fd))); [| now split].
  split; [apply set_Forall; [split; [unfold germanCodes; in_list | assumption] | exact H]
         | now apply set_NoDup].
Qed.

(** X11.  The files the German run writes are filled: at least one entry,
    one entry for a code at most, the codes being BEV, DIESEL, PHEV, HYBRID
    and GASOLINE, every total above zero.  Said of the store: what holds of
    its files before a run holds after it. *)
Theorem german_records_are_filled Buffer fetchFile readTotals now store :
  AllRecords (Sound germanCodes) store ->
  AllRecords (Sound germanCodes)
    (DE.files (DE.fetchAllEVData Buffer fetchFile readTotals now store)).
Proof.
  intros H. rewrite de_fetchAll_writeMissing. unfold writeMissing.
  apply (allRecords_fold _ (write dePath (deContent Buffer fetchFile readTotals))); [| exact H].
  intros m st _ Hst. unfold write. destruct (deContent _ _ _ m) as [j|] eqn:E; [| exact Hst].
  apply allRecords_write; [exact Hst |]. unfold deContent, DE.fetchMonthData in E.
  destruct (DE.firstData _ _ _ _) as [fd|] eqn:Hfd; [| discriminate].
  destruct (Obj.keys fd) eqn:Hk; [discriminate |]. injection E as <-.
  apply de_firstData_totals in Hfd as [totals ->]. unfold DE.output.
  destruct (de_fuelDataOf_sound totals) as [Hc Hd].
  apply sound_record; [| now apply entries_Forall | now apply entries_NoDup].
  intros E. unfold Obj.keys in Hk. now rewrite E in Hk.
Qed.

(** A month of 1000 cars, 200 of them electric and 100 diesel, in a sheet
    without a hybrid column: 400 gasoline cars are written. *)
Lemma german_sample_month_is_filled :
  Sound germanCodes
    (DE.output 2021 1 [("BEV", 200); ("DIESEL", 100); ("GASOLINE", 400)]).
Proof.
  apply (german_records_are_filled unit (fun _ => Some tt)
           (fun _ => Some (DE.mkKba (Some 200) (Some 100) None None (Some 1000) None))
           (Util.mkClock 2021 1) ∅ (allRecords_empty _) "data/DE/ev/2021-01.json").
  vm_compute. reflexivity.
Defined.

(** ** Sweden, the Netherlands and Norway *)

Lemma filter_NoDup_keys {A} (f : string * A -> bool) (l : list (string * A)) :
  NoDup (map fst l) -> NoDup (map fst (List.filter f l)).
Proof.
  induction l as [|e l IH]; [trivial |]. cbn [map List.filter]. intros H.
  apply NoDup_cons in H as [Hn H]. destruct (f e); [| now apply IH].
  cbn [map]. apply NoDup_cons. split; [| now apply IH].
  intros Hin. apply Hn. apply list_elem_of_In in Hin. apply list_elem_of_In.
  apply in_map_iff in Hin as (x & <- & Hx). apply in_map. now apply filter_In in Hx.
Qed.

Lemma swedish_names label :
  In (SE.normalizeSwedishFuel label) ("OTHER" :: "UNKNOWN" :: fiveCodes).
Proof.
  unfold SE.normalizeSwedishFuel, fiveCodes. destruct label as [[|c r]|]; [in_list | | in_list].
  generalize (Js.toLowerCase (Js.trim (String c r))) as clean. intros clean.
  unfold SE.SWEDISH_FUEL_MAP, aliasPairs. cbn [flat_map map fst snd app SE.firstEqual].
  repeat (destruct (String.eqb clean _); [in_list |]). in_list.
Qed.

Lemma MonthsSound_set key md monthlyData :
  KeysIn fiveCodes (SE.byFuel md) /\ NoDup (map fst (SE.byFuel md)) ->
  MonthsSound monthlyData -> MonthsSound (Obj.set key md monthlyData).
Proof. intros Hmd H. apply set_Forall; assumption. Qed.

Lemma MonthsSound_get key md monthlyData :
  MonthsSound monthlyData -> Obj.get key monthlyData = Some md ->
  KeysIn fiveCodes (SE.byFuel md) /\ NoDup (map fst (SE.byFuel md)).
Proof.
  intros H Hget. apply get_In in Hget. unfold MonthsSound in H. rewrite Forall_forall in H.
  apply (H (key, md)). now apply list_elem_of_In.
Qed.

Lemma se_addRow_sound row monthlyData :
  MonthsSound monthlyData -> MonthsSound (SE.addRow row monthlyData).
Proof.
  intros H. unfold SE.addRow. destruct (negb _); [exact H |].
  destruct (SE.matchMonth _) as [[y m]|]; [| exact H].
  set (key := (Js.showZ _ ++ "-" ++ Js.pad2 _)).
  set (md0 := match Obj.get key monthlyData with Some _ => monthlyData | None => _ end).
  assert (MonthsSound md0) as H0.
  { unfold md0. destruct (Obj.get key monthlyData); [exact H |].
    apply MonthsSound_set; [split; constructor | exact H]. }
  destruct (String.eqb_spec (SE.normalizeSwedishFuel (Some (SE.fuel row))) "OTHER") as [|Ho];
    [exact H0 |].
  destruct (String.eqb_spec (SE.normalizeSwedishFuel (Some (SE.fuel row))) "UNKNOWN") as [|Hu];
    [exact H0 |].
  cbn [negb andb].
  destruct (Obj.get key md0) as [md|] eqn:E; [| exact H0].
  destruct (MonthsSound_get _ _ _ H0 E) as [Hk Hd].
  apply MonthsSound_set; [| exact H0]. cbn [SE.byFuel]. split.
  - apply KeysIn_set; [| exact Hk].
    destruct (swedish_names (Some (SE.fuel row))) as [E'|[E'|E']];
      [congruence | congruence | exact E'].
  - now apply set_NoDup.
Qed.

Lemma se_monthRecord_sound km p j :
  KeysIn fiveCodes (SE.byFuel (snd km)) /\ NoDup (map fst (SE.byFuel (snd km))) ->
  SE.monthRecord km = Some (p, j) -> Sound fiveCodes j.
Proof.
  intros [Hk Hd]. unfold SE.monthRecord.
  match goal with |- context [map ?f ?l] => set (l0 := l); set (data := map f l0) end.
  destruct data eqn:E; [discriminate |]. rewrite <- E. intros [= _ <-]. unfold data.
  apply sound_record.
  - intros El. unfold data in E. now rewrite El in E.
  - apply Forall_forall. intros e He. apply list_elem_of_In, filter_In in He as [He Hpos].
    apply bool_decide_eq_true in Hpos. split; [| exact Hpos].
    apply (proj1 (entries_In _ _)) in He. unfold KeysIn in Hk. rewrite Forall_forall in Hk.
    apply Hk. now apply list_elem_of_In.
  - apply filter_NoDup_keys. now apply entries_NoDup.
Qed.

(** X12.  The files the Swedish parser writes are filled: at least one
    entry, one entry for a code at most, the codes being DIESEL, GASOLINE,
    HYBRID, PHEV and BEV, every total above zero; a month whose counts are
    all zero gives no file.  Said of the store: what holds of its files
    before a run holds after it. *)
Theorem swedish_records_are_filled records store :
  AllRecords (Sound fiveCodes) store ->
  AllRecords (Sound fiveCodes) (SE.processRecords records store).
Proof.
  intros H. unfold SE.processRecords.
  set (monthlyData := fold_left _ records []).
  assert (MonthsSound monthlyData) as Hmd.
  { unfold monthlyData.
    assert (MonthsSound []) as H0 by constructor. revert H0.
    generalize (@nil (string * SE.MonthData)).
    induction records as [|row records IH]; intros md Hmd; [exact Hmd |].
    cbn [fold_left]. apply IH, se_addRow_sound, Hmd. }
  apply (allRecords_fold _ SE.writeMonth); [| exact H].
  intros km st Hkm Hst. unfold SE.writeMonth. apply allRecords_guarded; [| exact Hst].
  intros p j. apply se_monthRecord_sound.
  unfold MonthsSound in Hmd. rewrite Forall_forall in Hmd. apply Hmd.
  apply list_elem_of_In. now apply entries_In.
Qed.

(** Two rows of January 2024, one of them without a car. *)
Lemma swedish_2024_01_is_filled :
  Sound fiveCodes
    (JObj [("year", JNum 2024); ("month", JNum 1);
           ("data", JArr [Json.entry "Toutes marques" "Tous modèles" 7 "BEV"]);
           ("region", JStr "SE"); ("type", JStr "all")]).
Proof.
  apply (swedish_records_are_filled
           [SE.mkRow "00 Sweden" "electricity" "2024M01" "7";
            SE.mkRow "00 Sweden" "diesel" "2024M01" "0"] ∅ (allRecords_empty _)
           "data/SE/ev/2024-01.json").
  vm_compute. reflexivity.
Defined.

(** *** The Dutch counts *)

Lemma nl_inner_count c records : forall fc,
  default 0 (Obj.get c
    (fold_left (fun fc rec =>
       let fuelType := NL.mapFuelType rec in
       Obj.set fuelType (default 0 (Obj.get fuelType fc) + 1) fc) records fc))
  = default 0 (Obj.get c fc) + nlCount c records.
Proof.
  unfold nlCount. induction records as [|rec records IH]; intros fc; [cbn; lia |].
  cbn [fold_left List.filter]. rewrite IH. cbn zeta.
  destruct (String.eqb_spec (NL.mapFuelType rec) c) as [->|Hne].
  - rewrite get_set_eq. cbn [default length]. unfold id. lia.
  - rewrite get_set_ne by exact Hne. lia.
Qed.

Lemma nlCount_app c a b : nlCount c (a ++ b) = nlCount c a + nlCount c b.
Proof. unfold nlCount. rewrite List.filter_app, length_app. lia. Qed.

Lemma nl_outer_count c results : forall fc,
  default 0 (Obj.get c
    (fold_left (fun fuelCounts (fuelData : NL.Batch) =>
       match fuelData with
       | None => fuelCounts
       | Some records =>
           fold_left (fun fc rec =>
             let fuelType := NL.mapFuelType rec in
             Obj.set fuelType (default 0 (Obj.get fuelType fc) + 1) fc) records fuelCounts
       end) results fc))
  = default 0 (Obj.get c fc) + nlCount c (nlRecords results).
Proof.
  induction results as [|[records|] results IH]; intros fc.
  - unfold nlCount. cbn [fold_left nlRecords flat_map List.filter length]. lia.
  - cbn [fold_left]. rewrite IH, nl_inner_count.
    change (nlRecords (Some records :: results)) with (records ++ nlRecords results)%list.
    rewrite nlCount_app. lia.
  - cbn [fold_left]. apply IH.
Qed.

Lemma nl_inner_sound records : forall fc,
  Counts dutchCodes fc /\ NoDup (map fst fc) ->
  Counts dutchCodes
    (fold_left (fun fc rec =>
       let fuelType := NL.mapFuelType rec in
       Obj.set fuelType (default 0 (Obj.get fuelType fc) + 1) fc) records fc)
  /\ NoDup (map fst
    (fold_left (fun fc rec =>
       let fuelType := NL.mapFuelType rec in
       Obj.set fuelType (default 0 (Obj.get fuelType fc) + 1) fc) records fc)).
Proof.
  induction records as [|rec records IH]; intros fc [H Hd]; [now split |].
  cbn [fold_left]. apply IH. cbn zeta. split; [| now apply set_NoDup].
  apply set_Forall; [| exact H]. cbn [fst snd]. split.
  - unfold NL.mapFuelType, NL.mapping, dutchCodes.
    generalize (default "undefined" rec) as k. intros k.
    cbn [Obj.get]. repeat (destruct (String.eqb _ k); [in_list |]). in_list.
  - destruct (Obj.get (NL.mapFuelType rec) fc) as [n|] eqn:E;
      unfold default; cbn [from_option]; unfold id; [| lia].
    apply get_In in E. unfold Counts in H. rewrite Forall_forall in H.
    apply list_elem_of_In, H in E. cbn [fst snd] in E. lia.
Qed.

Lemma nl_countFuels_sound results :
  Counts dutchCodes (NL.countFuels results) /\ NoDup (map fst (NL.countFuels results)).
Proof.
  unfold NL.countFuels.
  assert (Counts dutchCodes [] /\ NoDup (map fst (@nil (string * Z)))) as H0
    by (split; constructor).
  revert H0. generalize (@nil (string * Z)).
  induction results as [|[records|] results IH]; intros fc Hfc; [exact Hfc | |].
  - cbn [fold_left]. apply IH. now apply nl_inner_sound.
  - cbn [fold_left]. apply IH, Hfc.
Qed.

(** X13.  [fetchMonthData] of the Dutch parser counts every record of the
    answers once, under the code of its fuel: the count of a code is the
    number of records with that code, and a code without a record has no
    count.  An empty answer set gives an empty object. *)
Theorem dutch_counts_are_record_counts (results : list NL.Batch) (c : string) :
  default 0 (Obj.get c (NL.countFuels results)) = nlCount c (nlRecords results)
  /\ (Obj.get c (NL.countFuels results) = None <-> nlCount c (nlRecords results) = 0).
Proof.
  assert (default 0 (Obj.get c (NL.countFuels results)) = nlCount c (nlRecords results)) as E.
  { unfold NL.countFuels. rewrite nl_outer_count. cbn [Obj.get]. unfold default at 1.
    cbn [from_option]. lia. }
  split; [exact E |]. split.
  - intros Hn. rewrite <- E, Hn. reflexivity.
  - intros Hz. destruct (Obj.get c (NL.countFuels results)) as [n|] eqn:Hg; [| reflexivity].
    destruct (nl_countFuels_sound results) as [Hc _].
    apply get_In in Hg. unfold Counts in Hc. rewrite Forall_forall in Hc.
    apply list_elem_of_In, Hc in Hg. cbn [fst snd] in Hg.
    unfold default in E. cbn [from_option] in E. unfold id in E. lia.
Qed.



(** *** Norway *)

Lemma no_record_filled y m (fuelData : list (string * Z)) :
  NO.dataOf fuelData <> [] ->
  Filled norwegianCodes (NO.output y m (NO.dataOf fuelData)).
Proof.
  intros Hne. unfold NO.output, NO.dataOf in *.
  match goal with |- context [map ?f ?l] => set (l0 := l) in * end.
  exists (map (fun ft => (NO.mapFuelType (fst ft), snd ft)) l0).
  split; [apply (totals_record _ _ _ _ _ _ _ (fun ft => NO.mapFuelType (fst ft))) |].
  split; [destruct l0; [now cbn in Hne | discriminate] |].
  apply Forall_forall. intros e He. apply list_elem_of_In, in_map_iff in He as (ft & <- & Hft).
  cbn [fst snd]. apply filter_In in Hft as [_ Hpos]. apply bool_decide_eq_true in Hpos.
  split; [| exact Hpos].
  unfold NO.mapFuelType, NO.mapping, norwegianCodes. cbn [Obj.get].
  repeat (destruct (String.eqb _ (fst ft)); [in_list |]). in_list.
Qed.

Lemma no_save_filled monthCode fuelData store :
  AllRecords (Filled norwegianCodes) store ->
  AllRecords (Filled norwegianCodes) (snd (NO.saveMonthlyData monthCode fuelData store)).
Proof.
  intros H. unfold NO.saveMonthlyData.
  destruct (NO.matchMonth monthCode) as [[y monthStr]|]; [| exact H].
  destruct (NO.dataOf fuelData) eqn:E; [exact H |]. rewrite <- E. cbn [snd].
  apply allRecords_write; [exact H |]. apply no_record_filled. rewrite E. discriminate.
Qed.



(** ** The rows of a sheet *)

Lemma aggregate_sum row c colMapping : forall agg,
  default 0 (Obj.get c (Sheet.aggregate row colMapping agg))
  = default 0 (Obj.get c agg) + columnSum row colMapping c.
Proof.
  unfold columnSum. induction colMapping as [|[j code] cm IH]; intros agg.
  - cbn [Sheet.aggregate List.filter map fold_right]. lia.
  - cbn [Sheet.aggregate List.filter snd fst]. rewrite IH.
    destruct (Z.ltb_spec 0 (Sheet.intOrZero (Sheet.cellAt row j))) as [Hv|Hv];
      destruct (String.eqb_spec code c) as [->|Hne]; cbn [map fold_right fst].
    + rewrite get_set_eq. unfold default at 1. cbn [from_option]. unfold id. lia.
    + rewrite get_set_ne by exact Hne. lia.
    + lia.
    + lia.
Qed.

(** X16.  The total a row gives to a code is the sum of the cells of the
    columns that carry the code, a cell that is no number above zero
    counting for nothing: two columns with the same code are added
    together.  A code whose cells add up to nothing has no entry. *)
Theorem aggregate_adds_the_columns_of_a_code (row : list Cell)
    (colMapping : list (nat * string)) (c : string) :
  default 0 (Obj.get c (Sheet.aggregate row colMapping [])) = columnSum row colMapping c
  /\ (Obj.get c (Sheet.aggregate row colMapping []) = None
      <-> columnSum row colMapping c = 0).
Proof.
  assert (default 0 (Obj.get c (Sheet.aggregate row colMapping []))
          = columnSum row colMapping c) as E.
  { rewrite aggregate_sum. cbn [Obj.get]. unfold default at 1. cbn [from_option]. lia. }
  split; [exact E |]. split.
  - intros Hn. rewrite <- E, Hn. reflexivity.
  - intros Hz. destruct (Obj.get c (Sheet.aggregate row colMapping [])) as [n|] eqn:Hg;
      [| reflexivity].
    pose proof (aggregate_positive row colMapping [] (Forall_nil_2 _)) as Hp.
    apply get_In in Hg. rewrite Forall_forall in Hp.
    apply list_elem_of_In, Hp in Hg. cbn [snd] in Hg.
    unfold default in E. cbn [from_option] in E. unfold id in E. lia.
Qed.

Lemma fr_findHeader_skips above header rows :
  forallb (fun row => negb (FR.hasFuelRef row)) above = true ->
  FR.hasFuelRef header = true ->
  FR.findHeader (above ++ header :: rows)
  = Some (rows, Sheet.dateColumn (Sheet.mapColumns FR.normalizeFrenchFuel header 0),
          Sheet.mapColumns FR.normalizeFrenchFuel header 0).
Proof.
  intros Ha Hh. induction above as [|row above IH].
  - cbn [app FR.findHeader]. now rewrite Hh.
  - cbn [forallb] in Ha. apply andb_true_iff in Ha as [Hr Ha].
    cbn [app FR.findHeader]. apply negb_true_iff in Hr. rewrite Hr. now apply IH.
Qed.

Lemma cn_findHeader_skips above header rows :
  forallb (fun row => negb (CN.hasFuelRef row)) above = true ->
  CN.hasFuelRef header = true ->
  CN.findHeader (above ++ header :: rows)
  = Some (rows, Sheet.dateColumn (Sheet.mapColumns CN.normalizeChineseFuel header 0),
          Sheet.mapColumns CN.normalizeChineseFuel header 0).
Proof.
  intros Ha Hh. induction above as [|row above IH].
  - cbn [app CN.findHeader]. now rewrite Hh.
  - cbn [forallb] in Ha. apply andb_true_iff in Ha as [Hr Ha].
    cbn [app CN.findHeader]. apply negb_true_iff in Hr. rewrite Hr. now apply IH.
Qed.

Lemma fold_left_id {A B} (f : A -> B -> A) (l : list B) (a : A) :
  (forall x b, f x b = x) -> fold_left f l a = a.
Proof. intros H. induction l as [|b l IH]; [reflexivity |]. cbn. now rewrite H. Qed.

Lemma dateColumn_fuel normalize codes label rest :
  (forall l, In (normalize l) ("OTHER" :: "UNKNOWN" :: codes)) ->
  Forall (fun c => c <> "") codes ->
  normalize (Some label) <> "OTHER" -> normalize (Some label) <> "UNKNOWN" ->
  Sheet.dateColumn (Sheet.mapColumns normalize (CStr label :: rest) 0) = None.
Proof.
  intros Hn Hc Ho Hu. cbn [Sheet.mapColumns].
  destruct (String.eqb_spec (normalize (Some label)) "OTHER") as [|_]; [contradiction |].
  destruct (String.eqb_spec (normalize (Some label)) "UNKNOWN") as [|_]; [contradiction |].
  cbn [negb andb]. unfold Sheet.dateColumn. cbn [Sheet.codeAt Nat.eqb].
  destruct (normalize (Some label)) as [|a r] eqn:E; [| reflexivity].
  destruct (Hn (Some label)) as [H|[H|H]]; rewrite E in H; [discriminate | discriminate |].
  rewrite Forall_forall in Hc. apply list_elem_of_In, Hc in H. contradiction.
Qed.

(** X17.  The period of a row is read in the first column, and only when
    the header gives that column no fuel.  When the first cell of the
    header row names a fuel, the French and the Chinese spreadsheet parser
    write no file, whatever the rows below hold.  The header row is the
    first row that names a fuel; the rows above it are not read. *)
Theorem header_with_a_fuel_in_the_first_column_gives_no_file :
  (forall above label rest rows store,
     forallb (fun row => negb (FR.hasFuelRef row)) above = true ->
     FR.hasFuelRef (CStr label :: rest) = true ->
     FR.normalizeFrenchFuel (Some label) <> "OTHER" ->
     FR.normalizeFrenchFuel (Some label) <> "UNKNOWN" ->
     FR.processSheet (above ++ (CStr label :: rest) :: rows) store = store)
  /\ (forall above label rest rows store,
        forallb (fun row => negb (CN.hasFuelRef row)) above = true ->
        CN.hasFuelRef (CStr label :: rest) = true ->
        CN.normalizeChineseFuel (Some label) <> "OTHER" ->
        CN.normalizeChineseFuel (Some label) <> "UNKNOWN" ->
        CN.processSheet (above ++ (CStr label :: rest) :: rows) store = store).
Proof.
  split; intros above label rest rows store Ha Hh Ho Hu.
  - unfold FR.processSheet. rewrite (fr_findHeader_skips _ _ _ Ha Hh).
    rewrite (dateColumn_fuel _ fiveCodes _ _ french_names); [| | exact Ho | exact Hu].
    + apply fold_left_id. reflexivity.
    + unfold fiveCodes. repeat (apply List.Forall_cons; [discriminate |]). constructor.
  - unfold CN.processSheet. rewrite (cn_findHeader_skips _ _ _ Ha Hh).
    rewrite (dateColumn_fuel _ chineseSheetCodes _ _ chinese_names); [| | exact Ho | exact Hu].
    + apply fold_left_id. reflexivity.
    + unfold chineseSheetCodes. repeat (apply List.Forall_cons; [discriminate |]). constructor.
Qed.

(** A French sheet whose periods are in the second column. *)
Lemma period_in_the_second_column_gives_no_file :
  FR.processSheet
    [ [CStr "Ventes"];
      [CStr "Diesel"; CStr "Period"; CStr "Essence"];
      [CStr "100"; CStr "2023_05"; CStr "50"] ] ∅ = ∅.
Proof.
  apply (proj1 header_with_a_fuel_in_the_first_column_gives_no_file
           [[CStr "Ventes"]] "Diesel" [CStr "Period"; CStr "Essence"]
           [[CStr "100"; CStr "2023_05"; CStr "50"]] ∅);
    vm_compute; congruence.
Defined.

(** ** The search for the French page *)

Lemma monthOfOrdinal_place y m : 1 <= m <= 12 -> monthOfOrdinal (12 * y + (m - 1)) = (y, m).
Proof.
  intros H. unfold monthOfOrdinal. f_equal.
  - symmetry. apply (Z.div_unique_pos _ _ _ (m - 1)); lia.
  - assert ((12 * y + (m - 1)) mod 12 = m - 1) as ->; [| lia].
    symmetry. apply (Z.mod_unique_pos _ _ y); lia.
Qed.

Section PageSearch.

Context (Buffer : Type) (fetchFile : string -> option Buffer).

Lemma findFrom_back tries : forall y m k0 now,
  1 <= m <= 12 ->
  12 * y + (m - 1) = 12 * Util.currentYear now + (Util.currentMonth now - 1) - Z.of_nat k0 ->
  match FR.findFrom Buffer fetchFile tries y m with
  | Some url =>
      exists k, (k0 <= k < k0 + tries)%nat /\ url = pageBack now k
                /\ fetchFile url <> None
                /\ forall i, (k0 <= i < k)%nat -> fetchFile (pageBack now i) = None
  | None => forall i, (k0 <= i < k0 + tries)%nat -> fetchFile (pageBack now i) = None
  end.
Proof.
  induction tries as [|tries IH]; intros y m k0 now Hm Ho; cbn [FR.findFrom].
  - intros i Hi. lia.
  - assert (pageBack now k0 = FR.pageUrl y m) as Hp.
    { unfold pageBack. cbn zeta. rewrite <- Ho, monthOfOrdinal_place by exact Hm.
      reflexivity. }
    destruct (fetchFile (FR.pageUrl y m)) as [b|] eqn:Hf.
    + exists k0. repeat split; [lia | lia | now symmetry | now rewrite Hf | intros i Hi; lia].
    + assert (forall y' m', 1 <= m' <= 12 ->
                12 * y' + (m' - 1)
                = 12 * Util.currentYear now + (Util.currentMonth now - 1) - Z.of_nat (S k0) ->
                match FR.findFrom Buffer fetchFile tries y' m' with
                | Some url =>
                    exists k, (k0 <= k < k0 + S tries)%nat /\ url = pageBack now k
                              /\ fetchFile url <> None
                              /\ forall i, (k0 <= i < k)%nat -> fetchFile (pageBack now i) = None
                | None => forall i, (k0 <= i < k0 + S tries)%nat ->
                                    fetchFile (pageBack now i) = None
                end) as Hstep.
      { intros y' m' Hm' Ho'. specialize (IH y' m' (S k0) now Hm' Ho').
        destruct (FR.findFrom Buffer fetchFile tries y' m') as [url|].
        - destruct IH as (k & Hk & Hu & Hok & Hno). exists k.
          repeat split; [lia | lia | exact Hu | exact Hok |].
          intros i Hi. destruct (decide (i = k0)) as [->|Hne]; [now rewrite Hp |].
          apply Hno. lia.
        - intros i Hi. destruct (decide (i = k0)) as [->|Hne]; [now rewrite Hp |].
          apply IH. lia. }
      destruct (Z.eqb_spec (m - 1) 0) as [E|E]; apply Hstep; lia.
Qed.

End PageSearch.

(** X18.  [findLatestPageUrl] goes back from the month of the clock, one
    calendar month at a time and across the turn of a year, for 24 months
    at most: it returns the page of the first of these months that the
    site answers for, and nothing when it answers for none of them. *)
Theorem findLatestPageUrl_goes_back_month_by_month (Buffer : Type)
    (fetchFile : string -> option Buffer) (now : Util.Clock) :
  1 <= Util.currentMonth now <= 12 ->
  match FR.findLatestPageUrl Buffer fetchFile now with
  | Some url =>
      exists k, (k < 24)%nat /\ url = pageBack now k /\ fetchFile url <> None
                /\ forall i, (i < k)%nat -> fetchFile (pageBack now i) = None
  | None => forall i, (i < 24)%nat -> fetchFile (pageBack now i) = None
  end.
Proof.
  intros Hm. unfold FR.findLatestPageUrl.
  pose proof (findFrom_back Buffer fetchFile 24 (Util.currentYear now) (Util.currentMonth now)
                O now Hm ltac:(cbn; lia)) as H.
  destruct (FR.findFrom _ _ _ _ _) as [url|].
  - destruct H as (k & Hk & Hu & Hok & Hno). exists k.
    repeat split; [lia | exact Hu | exact Hok | intros i Hi; apply Hno; lia].
  - intros i Hi. apply H. lia.
Qed.

(** In February 2024, on a site that has the page of November 2023 and no
    other. *)
Lemma november_2023_is_found_in_february_2024 :
  1 <= 2 <= 12
  /\ match FR.findLatestPageUrl unit november2023 (Util.mkClock 2024 2) with
     | Some url =>
         exists k, (k < 24)%nat /\ url = pageBack (Util.mkClock 2024 2) k
                   /\ november2023 url <> None
                   /\ forall i, (i < k)%nat ->
                                november2023 (pageBack (Util.mkClock 2024 2) i) = None
     | None => forall i, (i < 24)%nat ->
                         november2023 (pageBack (Util.mkClock 2024 2) i) = None
     end.
Proof.
  split; [lia |].
  apply (findLatestPageUrl_goes_back_month_by_month unit november2023 (Util.mkClock 2024 2)).
  cbn. lia.
Defined.

(** ** The Chinese run *)

(** X19.  The three months the Chinese run looks for before it scrapes are
    the month of the clock and the two before it, across the turn of a
    year: in January they are January, and December and November of the
    year before. *)
Theorem cn_recentMonths_are_the_last_three (now : Util.Clock) :
  1 <= Util.currentMonth now <= 12 ->
  CN.recentMonths now = [codeBack now 0; codeBack now 1; codeBack now 2].
Proof.
  intros Hm. unfold CN.recentMonths, codeBack. cbn zeta.
  set (y := Util.currentYear now). set (m := Util.currentMonth now) in *.
  replace (12 * y + (m - 1) - 0) with (12 * y + (m - 1)) by lia.
  rewrite monthOfOrdinal_place by exact Hm. cbn [fst snd].
  replace (m - 1 + 1) with m by lia. unfold Util.monthCode at 1. f_equal.
  destruct (Z.eqb_spec (m - 1) 0) as [E1|E1].
  - replace (12 * y + (m - 1) - 1) with (12 * (y - 1) + (12 - 1)) by lia.
    replace (12 * y + (m - 1) - 2) with (12 * (y - 1) + (11 - 1)) by lia.
    rewrite !monthOfOrdinal_place by lia. cbn [fst snd].
    destruct (Z.leb_spec (m - 1) 1); [| lia].
    replace (12 + (m - 1) - 1) with 11 by lia. reflexivity.
  - replace (12 * y + (m - 1) - 1) with (12 * y + ((m - 1) - 1)) by lia.
    rewrite monthOfOrdinal_place by lia. cbn [fst snd]. unfold Util.monthCode at 1. f_equal.
    destruct (Z.leb_spec (m - 1) 1).
    + replace (12 * y + (m - 1) - 2) with (12 * (y - 1) + (12 - 1)) by lia.
      rewrite monthOfOrdinal_place by lia. cbn [fst snd].
      replace (12 + (m - 1) - 1) with 12 by lia. reflexivity.
    + replace (12 * y + (m - 1) - 2) with (12 * y + ((m - 1 - 1) - 1)) by lia.
      rewrite monthOfOrdinal_place by lia. reflexivity.
Qed.

(** January 2026. *)
Lemma cn_recentMonths_in_january_2026 :
  1 <= 1 <= 12
  /\ CN.recentMonths (Util.mkClock 2026 1) = ["2026-01"; "2025-12"; "2025-11"].
Proof.
  split; [lia |].
  apply (cn_recentMonths_are_the_last_three (Util.mkClock 2026 1)). cbn. lia.
Defined.

Lemma given_nonzero v : CN.given v = true -> default 0 v <> 0.
Proof.
  destruct v as [n|]; cbn; [| discriminate]. intros H. apply negb_true_iff in H.
  now apply Z.eqb_neq in H.
Qed.

(** X20.  What the Chinese run writes for a scraped month.  There is no
    record when the BEV, PHEV and NEV figures are all missing or zero.
    A record has one entry for a code at most, the codes being BEV, PHEV
    and FOSSIL, and no total is zero; its FOSSIL entry is the total of the
    market less the NEV figure, and it is there only when that is above
    zero; the NEV figure is written as BEV when neither the BEV nor the
    PHEV figure is given. *)
Theorem cn_item_record (it : CN.Item) :
  (CN.itemRecord it = None
   <-> CN.given (CN.BEV it) = false /\ CN.given (CN.PHEV it) = false
       /\ CN.given (CN.NEV it) = false)
  /\ exists entries,
       Json.totals (CN.record (Some (CN.year it)) (Some (CN.month it)) (CN.dataOfItem it))
       = entriesOf entries
       /\ NoDup (map fst entries)
       /\ Forall (fun e => In (fst e) ["BEV"; "PHEV"; "FOSSIL"] /\ snd e <> 0) entries
       /\ (forall t, In ("FOSSIL", t) entries
                     <-> CN.given (CN.TOTAL it) = true /\ CN.given (CN.NEV it) = true
                         /\ 0 < t /\ t = default 0 (CN.TOTAL it) - default 0 (CN.NEV it))
       /\ (CN.given (CN.BEV it) = false -> CN.given (CN.PHEV it) = false ->
           CN.given (CN.NEV it) = true -> In ("BEV", default 0 (CN.NEV it)) entries).
Proof.
  unfold CN.itemRecord, CN.dataOfItem, CN.record, CN.entryOf, Json.totals, Json.entry.
  pose proof (given_nonzero (CN.BEV it)) as Hb.
  pose proof (given_nonzero (CN.PHEV it)) as Hp.
  pose proof (given_nonzero (CN.NEV it)) as Hn.
  destruct (CN.given (CN.BEV it)); destruct (CN.given (CN.PHEV it));
    destruct (CN.given (CN.TOTAL it)); destruct (CN.given (CN.NEV it));
    cbn [andb negb];
    try destruct (Z.ltb_spec (default 0 (CN.NEV it)) (default 0 (CN.TOTAL it))) as [Hlt|Hge];
    cbn [app Json.field Obj.get String.eqb Ascii.eqb Bool.eqb Json.elements map];
    (split; [split; [try discriminate; now intros _ | intros (? & ? & ?); congruence] |]);
    match goal with
    | |- exists entries, ?l = entriesOf entries /\ _ =>
        let rec build l :=
          match l with
          | [] => constr:(@nil (string * Z))
          | (Some (JStr ?c), Some (JNum ?t)) :: ?r =>
              let r' := build r in constr:((c, t) :: r')
          end in
        let e := build l in exists e
    end;
    (split; [reflexivity |]);
    (split; [cbn [map fst]; apply (bool_decide_unpack _); vm_compute; exact I |]);
    (split; [repeat (apply List.Forall_cons;
               [cbn [fst snd]; split; [in_list | auto; lia] |]); apply List.Forall_nil |]);
    (split; [intros t; cbn [In]; split;
             [intros H; repeat destruct H as [H|H]; try discriminate H; try contradiction;
              injection H as <-; repeat split; lia
             | intros (H1 & H2 & H3 & ->); try discriminate; try lia; auto 6] |]);
    intros H1 H2 H3; try discriminate; cbn [In]; auto 6.
Qed.

(** ** The rows of a page *)

Lemma rowAt_pushAt y y' it rowMap :
  rowAt y (ACEA.pushAt y' it rowMap)
  = if y' =? y then (rowAt y rowMap ++ [it])%list else rowAt y rowMap.
Proof.
  unfold rowAt. induction rowMap as [|[k items] rowMap IH].
  - cbn [ACEA.pushAt List.find fst snd]. now destruct (y' =? y).
  - cbn [ACEA.pushAt]. destruct (Z.eqb_spec k y') as [->|Hk].
    + cbn [List.find fst snd]. destruct (y' =? y); reflexivity.
    + cbn [List.find fst snd]. destruct (Z.eqb_spec k y) as [->|Hy]; [| exact IH].
      destruct (Z.eqb_spec y' y); [congruence | reflexivity].
Qed.

Lemma pushAt_keys y it rowMap :
  map fst (ACEA.pushAt y it rowMap)
  = if existsb (fun k => k =? y) (map fst rowMap) then map fst rowMap
    else (map fst rowMap ++ [y])%list.
Proof.
  induction rowMap as [|[k items] rowMap IH]; [reflexivity |].
  cbn [ACEA.pushAt map fst existsb]. destruct (k =? y); [reflexivity |].
  cbn [map fst orb]. rewrite IH. now destruct (existsb _ _).
Qed.

Lemma pushAt_NoDup y it rowMap :
  NoDup (map fst rowMap) -> NoDup (map fst (ACEA.pushAt y it rowMap)).
Proof.
  intros H. rewrite pushAt_keys. destruct (existsb _ _) eqn:E; [exact H |].
  apply NoDup_app. split; [exact H |]. split; [| apply NoDup_singleton].
  intros k Hk Hy. apply list_elem_of_In in Hy as [<-|[]].
  assert (existsb (fun k => k =? y) (map fst rowMap) = true); [| congruence].
  apply existsb_exists. exists y. split; [now apply list_elem_of_In | apply Z.eqb_refl].
Qed.

Lemma pushAt_filled y it rowMap :
  Forall (fun r => snd r <> []) rowMap ->
  Forall (fun r => snd r <> []) (ACEA.pushAt y it rowMap).
Proof.
  induction rowMap as [|[k items] rowMap IH]; intros H.
  - cbn [ACEA.pushAt]. repeat constructor. discriminate.
  - apply Forall_cons in H as [Hk H]. cbn [ACEA.pushAt]. destruct (k =? y).
    + apply List.Forall_cons; [| exact H]. cbn [snd]. now destruct items.
    + apply List.Forall_cons; [exact Hk | now apply IH].
Qed.

Lemma groupRows_from y page : forall rowMap,
  let rows :=
    fold_left (fun rowMap item =>
      let text := Js.trim (ACEA.str item) in
      match text with
      | EmptyString => rowMap
      | _ => ACEA.pushAt (ACEA.round (ACEA.ty item)) (ACEA.mkRowItem text (ACEA.tx item)) rowMap
      end) page rowMap in
  (rowAt y rows = rowAt y rowMap ++ itemsAt y page)%list
  /\ (NoDup (map fst rowMap) -> NoDup (map fst rows))
  /\ (Forall (fun r => snd r <> []) rowMap -> Forall (fun r => snd r <> []) rows).
Proof.
  induction page as [|item page IH]; intros rowMap; cbn zeta.
  - cbn [fold_left itemsAt omap list_omap]. rewrite app_nil_r. now repeat split.
  - cbn [fold_left].
    assert (itemsAt y (item :: page)
            = match Js.trim (ACEA.str item) with
              | EmptyString => itemsAt y page
              | String c r =>
                  if ACEA.round (ACEA.ty item) =? y
                  then ACEA.mkRowItem (String c r) (ACEA.tx item) :: itemsAt y page
                  else itemsAt y page
              end) as ->.
    { unfold itemsAt. cbn [omap list_omap]. destruct (Js.trim _); [reflexivity |].
      destruct (_ =? _); reflexivity. }
    cbn zeta. destruct (Js.trim (ACEA.str item)) as [|c r] eqn:E.
    + exact (IH rowMap).
    + specialize (IH (ACEA.pushAt (ACEA.round (ACEA.ty item))
                        (ACEA.mkRowItem (String c r) (ACEA.tx item)) rowMap)).
      cbn zeta in IH. destruct IH as (Hrow & Hkeys & Hfilled). repeat split.
      * rewrite Hrow, rowAt_pushAt.
        destruct (ACEA.round (ACEA.ty item) =? y); [| reflexivity].
        now rewrite <- app_assoc.
      * intros H. now apply Hkeys, pushAt_NoDup.
      * intros H. now apply Hfilled, pushAt_filled.
Qed.

(** X21.  The rows of a page: the row at a height holds the items of the
    page whose height rounds to it, trimmed, in the order of the page, and
    the blank items are in no row; a height has one row, and no row is
    empty. *)
Theorem groupRows_gathers_the_items_of_a_height (page : ACEA.Page) :
  (forall y, rowAt y (ACEA.groupRows page) = itemsAt y page)
  /\ NoDup (map fst (ACEA.groupRows page))
  /\ Forall (fun r => snd r <> []) (ACEA.groupRows page).
Proof.
  split; [| split].
  - intros y. apply (groupRows_from y page []).
  - apply (groupRows_from 0 page []). constructor.
  - apply (groupRows_from 0 page []). constructor.
Qed.

(** ** The parsers a run starts *)

Section Started.

Import CollectAll.
Context (scriptExists : string -> bool) (modules : string -> string -> option Parser).

Lemma runParsers_started zoneCode ps : forall r pair,
  In pair (started (fst (runParsers scriptExists modules zoneCode ps r))) ->
  In pair (started r)
  \/ (fst pair = zoneCode
      /\ exists info, In (snd pair, info) ps /\ scriptExists (script info) = true).
Proof.
  induction ps as [|[category info] ps IH]; intros r pair; cbn [runParsers];
    [now left |].
  assert (forall r', (forall q, In q (started r') -> In q (started r) \/ q = (zoneCode, category)) ->
            scriptExists (script info) = true ->
            In pair (started (fst (runParsers scriptExists modules zoneCode ps r'))) ->
            In pair (started r)
            \/ (fst pair = zoneCode
                /\ exists info0, In (snd pair, info0) ((category, info) :: ps)
                                 /\ scriptExists (script info0) = true)) as Hrest.
  { intros r' Hr' Hs H. apply IH in H as [H|(Hz & i & Hi & Hsi)].
    - apply Hr' in H as [H| ->]; [now left |]. right. split; [reflexivity |].
      exists info. split; [now left | exact Hs].
    - right. split; [exact Hz |]. exists i. split; [now right | exact Hsi]. }
  destruct (scriptExists (script info)) eqn:Hs.
  - destruct (modules (script info) (function info)) as [parser|].
    + cbn [files started]. destruct (parser (files r)) as [store [e|]].
      * cbn [fst started]. intros [<-|H]; [| now left]. right. split; [reflexivity |].
        exists info. split; [now left | exact Hs].
      * apply Hrest; [| reflexivity]. cbn [started]. intros q [<-|H]; [now right | now left].
    + cbn [fst started]. intros [<-|H]; [| now left]. right. split; [reflexivity |].
      exists info. split; [now left | exact Hs].
  - intros H. apply IH in H as [H|(Hz & i & Hi & Hsi)]; [now left |].
    right. split; [exact Hz |]. exists i. split; [now right | exact Hsi].
Qed.

Lemma runZones_started zones zs : forall r pair,
  (forall z, In z zs -> In z zones) ->
  In pair (started (fst (runZones scriptExists modules zs r))) ->
  In pair (started r)
  \/ (Configured scriptExists zones pair /\ In (fst pair) (map fst zs)).
Proof.
  induction zs as [|[zoneCode zone] zs IH]; intros r pair Hzs; cbn [runZones]; [now left |].
  assert (forall r', (forall q, In q (started r') ->
                        In q (started r)
                        \/ (Configured scriptExists zones q /\ fst q = zoneCode)) ->
            In pair (started (fst (runZones scriptExists modules zs r'))) ->
            In pair (started r)
            \/ (Configured scriptExists zones pair
                /\ In (fst pair) (map fst ((zoneCode, zone) :: zs)))) as Hrest.
  { intros r' Hr' H. apply IH in H as [H|[Hc Hin]]; [| | intros z Hz; apply Hzs; now right].
    - apply Hr' in H as [H|[Hc Hz]]; [now left |]. right. split; [exact Hc | now left].
    - right. split; [exact Hc | now right]. }
  destruct (parsers zone) as [ps|] eqn:Hps.
  - assert (forall q, In q (started (fst (runParsers scriptExists modules zoneCode
                                            (Obj.entries ps) r))) ->
              In q (started r) \/ (Configured scriptExists zones q /\ fst q = zoneCode)) as Hq.
    { intros q H. apply runParsers_started in H as [H|(Hz & i & Hi & Hsi)]; [now left |].
      right. split; [| exact Hz]. exists zone, ps, i. rewrite Hz.
      repeat split; [apply Hzs; now left | exact Hps | now apply entries_In | exact Hsi]. }
    destruct (runParsers scriptExists modules zoneCode (Obj.entries ps) r) as [r' o].
    cbn [fst] in Hq. destruct o.
    + now apply Hrest.
    + cbn [fst]. intros H. apply Hq in H as [H|[Hc Hz]]; [now left |].
      right. split; [exact Hc | now left].
    + cbn [fst]. intros H. apply Hq in H as [H|[Hc Hz]]; [now left |].
      right. split; [exact Hc | now left].
  - apply Hrest. intros q H. now left.
Qed.

End Started.

(** X22.  A run starts no parser but those the configuration names with a
    script that exists: a parser whose script is missing is passed over.
    Asked for one zone, it starts the parsers of that zone only. *)
Theorem run_starts_configured_parsers_only (scriptExists : string -> bool)
    (modules : string -> string -> option CollectAll.Parser)
    (zones : list (string * CollectAll.Zone)) (targetZone : option string)
    (r : CollectAll.Run) (pair : string * string) :
  In pair (CollectAll.started
             (fst (CollectAll.runAllParsers scriptExists modules zones targetZone r))) ->
  In pair (CollectAll.started r)
  \/ (Configured scriptExists zones pair /\ InTarget targetZone (fst pair)).
Proof.
  unfold CollectAll.runAllParsers, InTarget. intros H.
  assert (In pair (CollectAll.started
                     (fst (CollectAll.runZones scriptExists modules (Obj.entries zones) r))) ->
          In pair (CollectAll.started r) \/ (Configured scriptExists zones pair /\ True))
    as Hall.
  { intros K. apply (runZones_started _ _ zones) in K as [K|[K _]]; [now left | now right |].
    intros z Hz. now apply entries_In. }
  destruct targetZone as [[|c t]|]; [now apply Hall | | now apply Hall].
  destruct (Obj.get (String c t) zones) as [zone|] eqn:Hget; [| now left].
  rewrite entries_singleton in H.
  apply (runZones_started _ _ zones) in H as [H|[Hc Hin]]; [now left | |].
  - right. split; [exact Hc |]. cbn in Hin. now destruct Hin as [<-|[]].
  - intros z [<-|[]]. now apply get_In.
Qed.

(** The run of the sample configuration, asked for the Netherlands, starts
    the Dutch parser and no other. *)
Lemma dutch_run_starts_the_dutch_parser :
  In ("NL", "ev")
     (CollectAll.started
        (fst (CollectAll.runAllParsers (fun _ => true) seNlModules seThenNl (Some "NL")
                (CollectAll.mkRun ∅ []))))
  /\ (In ("NL", "ev") []
      \/ (Configured (fun _ => true) seThenNl ("NL", "ev") /\ InTarget (Some "NL") "NL")).
Proof.
  assert (In ("NL", "ev")
            (CollectAll.started
               (fst (CollectAll.runAllParsers (fun _ => true) seNlModules seThenNl (Some "NL")
                       (CollectAll.mkRun ∅ []))))) as H
    by (vm_compute; now left).
  split; [exact H |].
  exact (run_starts_configured_parsers_only (fun _ => true) seNlModules seThenNl (Some "NL")
           (CollectAll.mkRun ∅ []) ("NL", "ev") H).
Defined.

(** ** The totals of the Swedish files *)

Lemma In_get {A} k (v : A) o : NoDup (map fst o) -> In (k, v) o -> Obj.get k o = Some v.
Proof.
  induction o as [|[k' v'] o IH]; intros Hd Hin; [destruct Hin |].
  cbn [map fst] in Hd. apply NoDup_cons in Hd as [Hk Hd]. cbn [Obj.get].
  destruct Hin as [[= -> ->]|Hin]; [now rewrite String.eqb_refl |].
  destruct (String.eqb_spec k' k) as [->|_]; [| now apply IH].
  exfalso. apply Hk. apply list_elem_of_In. apply (in_map fst) in Hin. exact Hin.
Qed.

Lemma se_addRow_keys row monthlyData :
  NoDup (map fst monthlyData) -> NoDup (map fst (SE.addRow row monthlyData)).
Proof.
  intros H. unfold SE.addRow. destruct (negb _); [exact H |].
  destruct (SE.matchMonth _) as [[y m]|]; [| exact H].
  set (key := (Js.showZ _ ++ "-" ++ Js.pad2 _)).
  set (md0 := match Obj.get key monthlyData with Some _ => monthlyData | None => _ end).
  assert (NoDup (map fst md0)) as H0.
  { unfold md0. destruct (Obj.get key monthlyData); [exact H | now apply set_NoDup]. }
  destruct (_ && _); [| exact H0].
  destruct (Obj.get key md0); [now apply set_NoDup | exact H0].
Qed.

Lemma se_addRow_cell key code row monthlyData :
  code <> "OTHER" -> code <> "UNKNOWN" ->
  seCell key code (SE.addRow row monthlyData)
  = seCell key code monthlyData
    + (if seAdds key code row then default 0 (Js.parseInt (SE.number row)) else 0).
Proof.
  intros Ho Hu. unfold SE.addRow, seAdds, seKey.
  destruct (Js.includes (SE.region row) "00 Sweden"); cbn [negb];
    [| rewrite bool_decide_eq_false_2 by discriminate; cbn [andb]; lia].
  destruct (SE.matchMonth (SE.month row)) as [[y m]|];
    [| rewrite bool_decide_eq_false_2 by discriminate; cbn [andb]; lia].
  set (k := (Js.showZ _ ++ "-" ++ Js.pad2 _)).
  set (count := default 0 (Js.parseInt (SE.number row))).
  set (md0 := match Obj.get k monthlyData with Some _ => monthlyData | None => _ end).
  assert (seCell key code md0 = seCell key code monthlyData) as E0.
  { unfold md0. destruct (Obj.get k monthlyData) eqn:G; [reflexivity |].
    unfold seCell. destruct (String.eqb_spec k key) as [<-|Hne].
    - now rewrite get_set_eq, G.
    - now rewrite get_set_ne. }
  assert (is_Some (Obj.get k md0)) as [md G0].
  { unfold md0. destruct (Obj.get k monthlyData) eqn:G; [now rewrite G |].
    rewrite get_set_eq. eauto. }
  rewrite G0, <- E0. set (fuelCode := SE.normalizeSwedishFuel (Some (SE.fuel row))).
  destruct (String.eqb_spec fuelCode "OTHER") as [Eo|No].
  { cbn [negb andb]. destruct (String.eqb_spec fuelCode code); [congruence |].
    rewrite andb_false_r. lia. }
  destruct (String.eqb_spec fuelCode "UNKNOWN") as [Eu|Nu].
  { cbn [negb andb]. destruct (String.eqb_spec fuelCode code); [congruence |].
    rewrite andb_false_r. lia. }
  cbn [negb andb]. unfold seCell. destruct (String.eqb_spec k key) as [<-|Hne].
  - rewrite get_set_eq, G0. cbn [mbind option_bind SE.byFuel].
    rewrite bool_decide_eq_true_2 by reflexivity. cbn [andb].
    destruct (String.eqb_spec fuelCode code) as [<-|Hc].
    + rewrite get_set_eq. unfold default at 1. cbn [from_option]. unfold id. lia.
    + rewrite get_set_ne by exact Hc. lia.
  - rewrite get_set_ne by exact Hne.
    rewrite bool_decide_eq_false_2 by congruence. cbn [andb]. lia.
Qed.

Lemma se_gathered records key code : forall monthlyData,
  code <> "OTHER" -> code <> "UNKNOWN" ->
  seCell key code (fold_left (fun md row => SE.addRow row md) records monthlyData)
  = seCell key code monthlyData + seCount key code records.
Proof.
  unfold seCount. induction records as [|row records IH]; intros monthlyData Ho Hu.
  - cbn [fold_left List.filter map fold_right]. lia.
  - cbn [fold_left List.filter]. rewrite IH, se_addRow_cell by assumption.
    destruct (seAdds key code row); cbn [map fold_right]; lia.
Qed.

Lemma se_gathered_sound records : forall monthlyData,
  MonthsSound monthlyData -> NoDup (map fst monthlyData) ->
  MonthsSound (fold_left (fun md row => SE.addRow row md) records monthlyData)
  /\ NoDup (map fst (fold_left (fun md row => SE.addRow row md) records monthlyData)).
Proof.
  induction records as [|row records IH]; intros md Hs Hd; [now split |].
  cbn [fold_left]. apply IH; [now apply se_addRow_sound | now apply se_addRow_keys].
Qed.

Lemma se_monthRecord_path km p j :
  SE.monthRecord km = Some (p, j) -> p = Fs.join SE.outDir (fst km ++ ".json").
Proof.
  unfold SE.monthRecord. destruct (map _ _); [discriminate |]. now intros [= <- _].
Qed.

Lemma se_writeMonth_keeps l : forall st p v,
  st !! p = Some v -> fold_left (fun st km => SE.writeMonth km st) l st !! p = Some v.
Proof.
  induction l as [|km l IH]; intros st p v H; [exact H |].
  cbn [fold_left]. apply IH. unfold SE.writeMonth.
  destruct (SE.monthRecord km) as [[q w]|]; [| exact H].
  destruct (Fs.existsSync st q) eqn:E; [exact H |].
  apply existsSync_false in E. unfold Fs.writeFileSync.
  rewrite lookup_insert_ne; [exact H | congruence].
Qed.

Lemma se_write_at key l : forall st,
  NoDup (map fst l) ->
  st !! Fs.join SE.outDir (key ++ ".json") = None ->
  fold_left (fun st km => SE.writeMonth km st) l st !! Fs.join SE.outDir (key ++ ".json")
  = md ← Obj.get key l; snd <$> SE.monthRecord (key, md).
Proof.
  induction l as [|[k md] l IH]; intros st Hd Hst; [exact Hst |].
  cbn [map fst] in Hd. apply NoDup_cons in Hd as [Hk Hd].
  cbn [fold_left Obj.get]. destruct (String.eqb_spec k key) as [->|Hne].
  - cbn [mbind option_bind]. unfold SE.writeMonth at 2.
    destruct (SE.monthRecord (key, md)) as [[p j]|] eqn:E.
    + apply se_monthRecord_path in E as Hp. cbn [fst] in Hp. subst p.
      rewrite (proj2 (existsSync_false _ _) Hst). cbn [fmap option_fmap option_map snd].
      apply se_writeMonth_keeps. unfold Fs.writeFileSync. apply lookup_insert_eq.
    + rewrite IH; [| exact Hd | exact Hst].
      destruct (Obj.get key l) as [md'|] eqn:G; [| reflexivity].
      exfalso. apply Hk. apply get_In in G. apply list_elem_of_In.
      apply (in_map fst) in G. exact G.
  - apply IH; [exact Hd |]. unfold SE.writeMonth.
    destruct (SE.monthRecord (k, md)) as [[p j]|] eqn:E; [| exact Hst].
    destruct (Fs.existsSync st p); [exact Hst |].
    apply se_monthRecord_path in E. cbn [fst] in E. subst p.
    unfold Fs.writeFileSync. rewrite lookup_insert_ne; [exact Hst |].
    intros H. apply json_path_inj in H. contradiction.
Qed.

Lemma get_entries {A} k (o : list (string * A)) :
  NoDup (map fst o) -> Obj.get k (Obj.entries o) = Obj.get k o.
Proof.
  intros Hd. destruct (Obj.get k o) as [v|] eqn:G.
  - apply In_get; [now apply entries_NoDup |]. apply entries_In. now apply get_In.
  - destruct (Obj.get k (Obj.entries o)) as [v|] eqn:G'; [| reflexivity].
    apply get_In in G'. apply (proj1 (entries_In _ _)) in G'.
    apply (In_get _ _ _ Hd) in G'. congruence.
Qed.

(** X23.  The file the Swedish parser writes for a month that had none:
    for each of the codes DIESEL, GASOLINE, HYBRID, PHEV and BEV its total
    is the sum of the numbers of the records of the whole country
    ("00 Sweden") for that month and that code, and the code has an entry
    exactly when the sum is above zero; the records of other regions, of
    ill-formed months and of fuels read as OTHER count for nothing.  No
    file is written when no sum is above zero. *)
Theorem swedish_totals_are_the_sums_of_the_records (records : list SE.CsvRow)
    (store : Store) (key : string) :
  store !! Fs.join SE.outDir (key ++ ".json") = None ->
  match SE.processRecords records store !! Fs.join SE.outDir (key ++ ".json") with
  | Some j =>
      exists entries,
        Json.totals j = entriesOf entries
        /\ forall code t,
             In (code, t) entries
             <-> code <> "OTHER" /\ code <> "UNKNOWN"
                 /\ t = seCount key code records /\ 0 < t
  | None =>
      forall code, code <> "OTHER" -> code <> "UNKNOWN" -> seCount key code records <= 0
  end.
Proof.
  intros Hst. unfold SE.processRecords.
  set (T := fold_left (fun md row => SE.addRow row md) records []).
  destruct (se_gathered_sound records [] ltac:(constructor) ltac:(constructor)) as [Hs Hd].
  fold T in Hs, Hd.
  assert (forall code, code <> "OTHER" -> code <> "UNKNOWN" ->
            seCell key code T = seCount key code records) as Hcell.
  { intros code Ho Hu. unfold T. rewrite se_gathered by assumption. unfold seCell.
    cbn [Obj.get mbind option_bind]. unfold default at 1. cbn [from_option]. lia. }
  rewrite se_write_at; [| now apply entries_NoDup | exact Hst].
  rewrite get_entries by exact Hd.
  destruct (Obj.get key T) as [md|] eqn:G; cbn [mbind option_bind].
  - destruct (MonthsSound_get _ _ _ Hs G) as [Hk Hn].
    assert (forall code, seCell key code T = default 0 (Obj.get code (SE.byFuel md))) as Hmd.
    { intros code. unfold seCell. now rewrite G. }
    assert (forall code t, In (code, t) (SE.byFuel md) ->
              code <> "OTHER" /\ code <> "UNKNOWN" /\ t = seCount key code records) as Hin.
    { intros code t H. apply (In_get _ _ _ Hn) in H as Hg.
      unfold KeysIn in Hk. rewrite Forall_forall in Hk.
      apply list_elem_of_In, Hk in H. cbn [fst] in H.
      assert (code <> "OTHER" /\ code <> "UNKNOWN") as [Ho Hu].
      { unfold fiveCodes in H. cbn [In] in H.
        split; intros ->; repeat destruct H as [H|H]; try discriminate H; exact H. }
      repeat split; [exact Ho | exact Hu |].
      rewrite <- (Hcell code Ho Hu), Hmd, Hg. reflexivity. }
    unfold SE.monthRecord. cbn [snd fst].
    set (l := List.filter _ (Obj.entries (SE.byFuel md))).
    destruct (map _ l) eqn:E.
    + cbn [fmap option_fmap option_map]. intros code Ho Hu.
      rewrite <- (Hcell code Ho Hu), Hmd.
      destruct (Obj.get code (SE.byFuel md)) as [t|] eqn:Hg; [| cbn; lia].
      unfold default. cbn [from_option]. unfold id.
      destruct (Z.ltb_spec 0 t) as [Hpos|]; [| assumption].
      exfalso. assert (In (code, t) l) as Hl.
      { unfold l. apply filter_In. split; [apply entries_In; now apply get_In |].
        now apply bool_decide_eq_true. }
      destruct l; [destruct Hl | discriminate E].
    + rewrite <- E. cbn [fmap option_fmap option_map snd]. exists l. split.
      * rewrite (totals_record _ _ _ _ _ _ _ fst). now rewrite map_pair_id.
      * intros code t. unfold l. rewrite filter_In, bool_decide_eq_true. cbn [snd]. split.
        -- intros [H Hpos]. apply (proj1 (entries_In _ _)) in H.
           destruct (Hin code t H) as (Ho & Hu & Et). repeat split; assumption.
        -- intros (Ho & Hu & Et & Hpos). split; [| exact Hpos]. apply entries_In.
           apply get_In. pose proof (Hcell code Ho Hu) as Hc. rewrite Hmd in Hc.
           destruct (Obj.get code (SE.byFuel md)) as [t'|]; cbn in Hc; [f_equal; lia | lia].
  - cbn [fmap option_fmap option_map]. intros code Ho Hu.
    rewrite <- (Hcell code Ho Hu). unfold seCell. rewrite G. cbn. lia.
Qed.

(** Two records of January 2024 for electric cars, one for another region
    and one without a car. *)
Lemma swedish_2024_01_adds_up :
  (∅ : Store) !! Fs.join SE.outDir ("2024-01" ++ ".json") = None
  /\ match SE.processRecords
             [SE.mkRow "00 Sweden" "electricity" "2024M01" "7";
              SE.mkRow "01 Stockholm county" "electricity" "2024M01" "3";
              SE.mkRow "00 Sweden" "electricity" "2024M01" "5";
              SE.mkRow "00 Sweden" "diesel" "2024M01" "0"] ∅
             !! Fs.join SE.outDir ("2024-01" ++ ".json") with
     | Some j =>
         exists entries,
           Json.totals j = entriesOf entries
           /\ forall code t,
                In (code, t) entries
                <-> code <> "OTHER" /\ code <> "UNKNOWN"
                    /\ t = seCount "2024-01" code
                             [SE.mkRow "00 Sweden" "electricity" "2024M01" "7";
                              SE.mkRow "01 Stockholm county" "electricity" "2024M01" "3";
                              SE.mkRow "00 Sweden" "electricity" "2024M01" "5";
                              SE.mkRow "00 Sweden" "diesel" "2024M01" "0"]
                    /\ 0 < t
     | None =>
         forall code, code <> "OTHER" -> code <> "UNKNOWN" ->
           seCount "2024-01" code
             [SE.mkRow "00 Sweden" "electricity" "2024M01" "7";
              SE.mkRow "01 Stockholm county" "electricity" "2024M01" "3";
              SE.mkRow "00 Sweden" "electricity" "2024M01" "5";
              SE.mkRow "00 Sweden" "diesel" "2024M01" "0"] <= 0
     end.
Proof.
  split; [apply lookup_empty |].
  apply (swedish_totals_are_the_sums_of_the_records
           [SE.mkRow "00 Sweden" "electricity" "2024M01" "7";
            SE.mkRow "01 Stockholm county" "electricity" "2024M01" "3";
            SE.mkRow "00 Sweden" "electricity" "2024M01" "5";
            SE.mkRow "00 Sweden" "diesel" "2024M01" "0"] ∅ "2024-01").
  apply lookup_empty.
Defined.

(** ** Which record reaches a file *)

Lemma guarded_fold_keeps {X} (rec : X -> option (string * json)) (xs : list X) : forall st p v,
  st !! p = Some v ->
  fold_left (fun st x =>
    match rec x with
    | None => st
    | Some (outPath, content) =>
        if Fs.existsSync st outPath then st else Fs.writeFileSync outPath content st
    end) xs st !! p = Some v.
Proof. intros st p v. apply (proj1 (guarded_fold_once rec xs)). Qed.

Lemma guarded_fold_first {X} (rec : X -> option (string * json)) p (xs : list X) : forall st,
  st !! p = None ->
  fold_left (fun st x =>
    match rec x with
    | None => st
    | Some (outPath, content) =>
        if Fs.existsSync st outPath then st else Fs.writeFileSync outPath content st
    end) xs st !! p = head (recordsFor rec p xs).
Proof.
  induction xs as [|x xs IH]; intros st Hst; [exact Hst |].
  cbn [fold_left]. unfold recordsFor. cbn [omap list_omap]. fold (recordsFor rec p xs).
  destruct (rec x) as [[q j]|]; [| now apply IH].
  destruct (String.eqb_spec q p) as [->|Hne].
  - rewrite (proj2 (existsSync_false _ _) Hst). cbn [head].
    apply guarded_fold_keeps. unfold Fs.writeFileSync. apply lookup_insert_eq.
  - apply IH. destruct (Fs.existsSync st q); [exact Hst |].
    unfold Fs.writeFileSync. now rewrite lookup_insert_ne.
Qed.

(** X24.  When several rows of a sheet go to the same file and the file
    does not exist, the French and the Chinese spreadsheet parser write
    the first of them that has data and pass over the others; the rows
    that go to other files do not matter. *)
Theorem first_row_of_a_period_is_written :
  (forall rows store p,
     store !! p = None ->
     FR.processSheet rows store !! p
     = match FR.findHeader rows with
       | Some (below, colDate, colMapping) =>
           head (recordsFor (FR.rowRecord colDate colMapping) p below)
       | None => None
       end)
  /\ (forall rows store p,
        store !! p = None ->
        CN.processSheet rows store !! p
        = match CN.findHeader rows with
          | Some (below, colDate, colMapping) =>
              head (recordsFor (CN.rowRecord colDate colMapping) p below)
          | None => None
          end).
Proof.
  split; intros rows store p Hst.
  - unfold FR.processSheet. destruct (FR.findHeader rows) as [[[below colDate] cm]|];
      [| exact Hst].
    apply (guarded_fold_first (FR.rowRecord colDate cm)). exact Hst.
  - unfold CN.processSheet. destruct (CN.findHeader rows) as [[[below colDate] cm]|];
      [| exact Hst].
    apply (guarded_fold_first (CN.rowRecord colDate cm)). exact Hst.
Qed.

(** Of the two rows for May 2023 the first is written. *)
Lemma first_row_of_may_2023_is_written :
  FR.processSheet twiceMaySheet ∅ !! "data/FR/ev/2023-05.json"
  = Some (FR.record (Some 2023) (Some 5) [frEntry 100 "DIESEL"; frEntry 50 "GASOLINE"]).
Proof.
  rewrite (proj1 first_row_of_a_period_is_written twiceMaySheet ∅
             "data/FR/ev/2023-05.json" (lookup_empty _)).
  vm_compute. reflexivity.
Defined.

Lemma write_fold_last {X} (rec : X -> option (string * json)) p (xs : list X) : forall st,
  fold_left (fun st x =>
    match rec x with
    | None => st
    | Some (outPath, content) => Fs.writeFileSync outPath content st
    end) xs st !! p
  = match head (rev (recordsFor rec p xs)) with
    | Some j => Some j
    | None => st !! p
    end.
Proof.
  induction xs as [|x xs IH]; intros st; [reflexivity |].
  cbn [fold_left]. rewrite IH. unfold recordsFor. cbn [omap list_omap].
  fold (recordsFor rec p xs).
  destruct (rec x) as [[q j]|]; [| reflexivity].
  destruct (String.eqb_spec q p) as [->|Hne].
  - cbn [rev]. destruct (rev (recordsFor rec p xs)) as [|j' l]; cbn [app head].
    + unfold Fs.writeFileSync. apply lookup_insert_eq.
    + reflexivity.
  - unfold Fs.writeFileSync. now rewrite lookup_insert_ne.
Qed.

Lemma recordsFor_filter {X} (rec : X -> option (string * json)) (keep : X -> bool) p xs :
  (forall x q j, rec x = Some (q, j) -> q = p -> keep x = true) ->
  recordsFor rec p (List.filter keep xs) = recordsFor rec p xs.
Proof.
  intros H. induction xs as [|x xs IH]; [reflexivity |].
  cbn [List.filter]. unfold recordsFor in *. destruct (keep x) eqn:K.
  - cbn [omap list_omap]. now rewrite IH.
  - cbn [omap list_omap]. rewrite IH. destruct (rec x) as [[q j]|] eqn:R; [| reflexivity].
    destruct (String.eqb_spec q p) as [E|]; [| reflexivity].
    rewrite (H x q j R E) in K. discriminate.
Qed.

(** X25.  When the scraper of the Chinese run returns several items for a
    month that has no file, the last of them that yields a record is the
    one in the file after the run: each is written over the one before. *)
Theorem last_scraped_item_of_a_month_is_kept (monthlyData : list CN.Item) (store : Store)
    (p : string) :
  store !! p = None ->
  CN.saveItems monthlyData store !! p = head (rev (recordsFor cnItemFile p monthlyData)).
Proof.
  intros Hst. unfold CN.saveItems.
  rewrite (fold_left_ext_in _
             (fun st it => match cnItemFile it with
                           | None => st
                           | Some (outPath, content) => Fs.writeFileSync outPath content st
                           end)).
  - rewrite write_fold_last, Hst. rewrite recordsFor_filter.
    + now destruct (head _).
    + intros it q j R ->. unfold cnItemFile in R.
      destruct (CN.itemRecord it); [| discriminate]. injection R as <- _.
      apply negb_true_iff. now apply existsSync_false.
  - intros it st _. unfold cnItemFile. now destruct (CN.itemRecord it).
Qed.

(** Two items for December 2025: the figures of the second are kept. *)
Lemma second_december_item_is_kept :
  CN.saveItems
    [ CN.mkItem 2025 12 (Some 1700000) None None None;
      CN.mkItem 2025 12 (Some 1710000) None None None ] ∅ !! "data/CN/ev/2025-12.json"
  = Some (CN.record (Some 2025) (Some 12) [CN.entryOf 1710000 "BEV"]).
Proof.
  rewrite (last_scraped_item_of_a_month_is_kept _ ∅ "data/CN/ev/2025-12.json"
             (lookup_empty _)).
  vm_compute. reflexivity.
Defined.
